(** * CreateUPDM.py: a shallow embedding and its checked properties

    The script provisions an ALRS schema in a geodatabase through the
    ArcGIS toolbox.  This development embeds the script's own logic: the
    ElementTree operations it uses, its unit conversion, its parameter
    accessors and validation, the spatial reference substitution, the LRS
    metadata patchers, index naming and the pre-flight name check.  Calls
    into the platform are recorded in a trace; what the platform answers is
    taken from a record of oracles. *)

From Stdlib Require Import QArith Qcanon.
From stdpp Require Import base option list strings gmap pretty.


Local Open Scope list_scope.

(** ** Python strings *)

Module PyStr.

(** ASCII text: every character is below 128. *)
Fixpoint is_ascii (s : string) : bool :=
  match s with
  | EmptyString => true
  | String c s' => (Ascii.nat_of_ascii c <? 128)%nat && is_ascii s'
  end.

(** [str.lower] on ASCII text, where it changes the letters A to Z and
    nothing else.  Outside ASCII Python lowers by the Unicode tables,
    which may even lead into ASCII (the Kelvin sign becomes k); that is
    not modelled, so [lower s] is [s.lower()] for a text [s] with
    [is_ascii s] only, and what is stated of the lower-cased form of a
    text that the script does not fix is stated for ASCII text. *)
Definition lower_ascii (c : Ascii.ascii) : Ascii.ascii :=
  let n := Ascii.nat_of_ascii c in
  if (65 <=? n)%nat && (n <=? 90)%nat then Ascii.ascii_of_nat (n + 32) else c.

Fixpoint lower (s : string) : string :=
  match s with
  | EmptyString => EmptyString
  | String c s' => String (lower_ascii c) (lower s')
  end.

(** [sep.join(items)] *)
Fixpoint join (sep : string) (items : list string) : string :=
  match items with
  | [] => ""
  | [x] => x
  | x :: rest => x +:+ sep +:+ join sep rest
  end.

(** [str(i)] for an integer. *)
Definition str_int (i : Z) : string := pretty i.

End PyStr.

(** ** xml.etree.ElementTree *)

Module ET.

(** An [Element] object.  [oid] is the identity of the Python object:
    [Element] defines no [__eq__], so [list.remove], [list.index] and
    dictionary keys go by identity.  [text] and [tail] are [None] when
    absent.  Attribute names are unique, as in a Python [dict]. *)
#[local] Unset Elimination Schemes.
Inductive Element : Type := Elem {
  oid : nat;
  tag : string;
  attrib : gmap string string;
  text : option string;
  tail : option string;
  children : list Element
}.
#[local] Set Elimination Schemes.

Definition with_children (e : Element) (cs : list Element) : Element :=
  Elem (oid e) (tag e) (attrib e) (text e) (tail e) cs.

Definition with_text (e : Element) (t : option string) : Element :=
  Elem (oid e) (tag e) (attrib e) t (tail e) (children e).

(** [len(e)], and the truth value of an element: [bool(e)] is
    [len(e) != 0], so an element without children is falsy. *)
Definition len (e : Element) : nat := length (children e).

Definition truthy (e : option Element) : bool :=
  match e with
  | Some x => negb (Nat.eqb (len x) 0)
  | None => false
  end.

(** [e.get(key, None)] and [e.set(key, value)] *)
Definition get (key : string) (e : Element) : option string := attrib e !! key.

Definition set (key value : string) (e : Element) : Element :=
  Elem (oid e) (tag e) (<[key := value]> (attrib e)) (text e) (tail e) (children e).

(** [e.iter()]: the element and all its descendants, in document order. *)
Fixpoint iter (e : Element) : list Element :=
  e :: flat_map iter (children e).

(** [e.iter(t)] *)
Definition iter_tag (t : string) (e : Element) : list Element :=
  filter (λ x, tag x = t) (iter e).

(** [e.find(t)]: the first child with tag [t]; [find_i] also gives its
    index among the children, which is where that object sits. *)
Definition find_i (t : string) (e : Element) : option (nat * Element) :=
  list_find (λ c, tag c = t) (children e).

Definition find (t : string) (e : Element) : option Element :=
  snd <$> find_i t e.

(** [e.find("t[@key='value']")] *)
Definition find_attr_i (t key value : string) (e : Element) : option (nat * Element) :=
  list_find (λ c, tag c = t ∧ get key c = Some value) (children e).

Definition find_attr (t key value : string) (e : Element) : option Element :=
  snd <$> find_attr_i t key value e.

(** [e.findall(t)]: the children with tag [t], in order. *)
Definition findall (t : string) (e : Element) : list Element :=
  filter (λ c, tag c = t) (children e).

(** [list(e).index(x)]: the index of the first child that is the object
    [x]. *)
Definition index (x : Element) (e : Element) : option nat :=
  fst <$> list_find (λ c, oid c = oid x) (children e).

(** [e.remove(x)] drops the first child that is the object [x].
    [remove_at i e] is that for the child at index [i]; [remove] finds the
    index by identity, and [None] stands for the [ValueError] raised when
    [x] is no child of [e]. *)
Definition remove_at (i : nat) (e : Element) : Element :=
  with_children e (delete i (children e)).

Definition remove (x : Element) (e : Element) : option Element :=
  i ← index x e; Some (remove_at i e).

(** [e.insert(i, x)] for [0 <= i]: as [list.insert], past the end appends. *)
Definition insert (i : nat) (x : Element) (e : Element) : Element :=
  with_children e (take i (children e) ++ x :: drop i (children e)).

(** A child object changed in place: the parent then holds the changed
    child at the same index. *)
Definition set_child (i : nat) (c : Element) (e : Element) : Element :=
  with_children e (<[i := c]> (children e)).

(** [for c in e.findall(t): ...] changing [c] in place. *)
Definition update_children (t : string) (f : Element → Element) (e : Element) : Element :=
  with_children e (map (λ c, if decide (tag c = t) then f c else c) (children e)).

(** Mutation through a reference: [modify o f e] applies [f] to the
    object [o] wherever it sits in the tree [e]. *)
Fixpoint modify (o : nat) (f : Element → Element) (e : Element) : Element :=
  if decide (oid e = o) then f e
  else with_children e (map (modify o f) (children e)).

(** [for x in e.iter(t): ...] changing [x] in place: [f] is applied to
    every element with tag [t] in the tree of [e], [e] included.  [f]
    changes the text or the attributes only. *)
Fixpoint update_all (t : string) (f : Element → Element) (e : Element) : Element :=
  let e' := with_children e (map (update_all t f) (children e)) in
  if decide (tag e = t) then f e' else e'.

(** The object [o] as it currently is in the tree [e], if it is there. *)
Definition lookup_obj (o : nat) (e : Element) : option Element :=
  snd <$> list_find (λ x, oid x = o) (iter e).

(** The node reached from [e] by following child indexes. *)
Fixpoint at_path (p : list nat) (e : Element) : option Element :=
  match p with
  | [] => Some e
  | i :: p' => c ← children e !! i; at_path p' c
  end.

(** Every element of a parsed document is an object of its own. *)
Definition distinct_objects (e : Element) : Prop := NoDup (oid <$> iter e).

End ET.

(** ** The platform: calls, exceptions, and the monad of the script *)

Module Py.

Import ET.

(** What [arcpy.GetParameter] hands to the script for a spatial reference.
    [metersPerUnit] is [None] when reading the property raises
    [NameError]. *)
Record SpatialReference : Type := {
  XYTolerance : Qc;
  ZTolerance : Qc;
  metersPerUnit : option Qc;
  type : string
}.

(** The calls with an effect outside the script, as they appear in the
    trace.  Queries ([Exists], [ListDomains], ...) are oracles of the
    platform and leave no entry. *)
Inductive Call : Type :=
| AddMessage (message : string)
| AddWarning (message : string)
| AddError (message : string)
| SetProgressorLabel (label : string)
| ElementTree_write (path : string) (doc : Element)
| ImportXMLWorkspaceDocument_management (workspace path importType : string)
| CreateFeatureclass_management (outPath outName : string) (sr : option SpatialReference)
| ExportXMLWorkspaceDocument_management (inData outFile exportType : string)
| Delete_management (item : string)
| DeleteDomain_management (gdb domain : string)
| DeleteField_management (table field : string)
| AssignDomainToField_management (table field domain : string)
| RegisterAsVersioned_management (table editToBase : string)
| AddIndex_management (table : string) (fields : list string) (indexName unique ascending : string)
| updateRow (table : string) (row : nat)
| os_remove (path : string).

Inductive Exn : Type :=
| ExecuteError (message : string)   (* raised by [logError] *)
| CallFailed (c : Call)             (* raised inside the platform call [c] *)
| AttributeError                    (* an attribute or method of [None] *)
| NameError
| KeyError
| ValueError
| ParseError
| TypeError
| ZeroDivisionError.

(** The state the script acts on: the trace of calls so far and the two
    tables of the geodatabase it edits through cursors. *)
Record World : Type := {
  trace : list Call;
  Lrs_Metadata : list Element;
  Lrs_Event_Behavior : list Z
}.

Definition M (A : Type) : Type := World → World * (Exn + A).

Definition ret {A} (a : A) : M A := λ w, (w, inr a).

Definition bind {A B} (m : M A) (k : A → M B) : M B := λ w,
  match m w with
  | (w', inr a) => k a w'
  | (w', inl e) => (w', inl e)
  end.

Definition raise {A} (e : Exn) : M A := λ w, (w, inl e).

(** [try: body / except: handler e / raise] is [try_except body handler]
    with a handler that re-raises. *)
Definition try_except {A} (body : M A) (handler : Exn → M A) : M A := λ w,
  match body w with
  | (w', inl e) => handler e w'
  | r => r
  end.

(** [try: body / finally: cleanup]: the cleanup runs either way; an
    exception of the body goes on after it, unless the cleanup raises. *)
Definition try_finally {A} (body : M A) (cleanup : M unit) : M A := λ w,
  match body w with
  | (w', r) =>
      match cleanup w' with
      | (w'', inr _) => (w'', r)
      | (w'', inl e) => (w'', inl e)
      end
  end.

(** The world after the calls [cs]. *)
Definition logged (w : World) (cs : list Call) : World :=
  {| trace := trace w ++ cs;
     Lrs_Metadata := Lrs_Metadata w;
     Lrs_Event_Behavior := Lrs_Event_Behavior w |}.

Definition emit (c : Call) : M unit := λ w, (logged w [c], inr tt).

Definition get_world : M World := λ w, (w, inr w).

Definition put_Lrs_Metadata (rows : list Element) : M unit := λ w,
  ({| trace := trace w; Lrs_Metadata := rows;
      Lrs_Event_Behavior := Lrs_Event_Behavior w |}, inr tt).

Definition put_Lrs_Event_Behavior (rows : list Z) : M unit := λ w,
  ({| trace := trace w; Lrs_Metadata := Lrs_Metadata w;
      Lrs_Event_Behavior := rows |}, inr tt).

(** Code without effects that may raise. *)
Definition rbind {A B} (r : Exn + A) (k : A → Exn + B) : Exn + B :=
  match r with inr a => k a | inl e => inl e end.

Definition need {A} (o : option A) (e : Exn) : Exn + A :=
  match o with Some a => inr a | None => inl e end.

Definition lift {A} (r : Exn + A) : M A := λ w, (w, r).

(** A value that may be Python's [None]: using it raises. *)
Definition some {A} (o : option A) (e : Exn) : M A :=
  match o with Some a => ret a | None => raise e end.

(** [for x in xs: body x] *)
Fixpoint for_each {A} (xs : list A) (body : A → M unit) : M unit :=
  match xs with
  | [] => ret tt
  | x :: xs' => bind (body x) (λ _, for_each xs' body)
  end.

(** A loop that threads a local variable. *)
Fixpoint fold_each {A S} (xs : list A) (body : S → A → M S) (s : S) : M S :=
  match xs with
  | [] => ret s
  | x :: xs' => bind (body s x) (fold_each xs' body)
  end.

Definition initial : World :=
  {| trace := []; Lrs_Metadata := []; Lrs_Event_Behavior := [] |}.

End Py.

Notation "x <- m ;; k" := (Py.bind m (λ x, k))
  (at level 100, m at next level, right associativity, only parsing).
Notation "m ;;; k" := (Py.bind m (λ _, k))
  (at level 100, right associativity, only parsing).
Notation "x <-- r ;; k" := (Py.rbind r (λ x, k))
  (at level 100, r at next level, right associativity, only parsing).
Notation "'let2' ( i , x ) <-- r ;; k" := (Py.rbind r (λ p, match p with (i, x) => k end))
  (at level 100, i name, x name, r at next level, right associativity, only parsing).

(** ** The script *)

Module CreateUPDM.

Import ET Py.

(** The tool's parameters as the platform delivers them, by their declared
    types.  [GetParameterAsText] gives the empty string for a parameter
    that was left out, [GetParameter] gives [None]. *)
Record Params : Type := {
  outputGDBParam : string;
  spatialReferenceParam : option SpatialReference;
  mUnitsParam : option string;
  xyToleranceParam : option Qc;
  zToleranceParam : option Qc;
  eventRegistrationNetworkParam : string;
  registerPipeSystemParam : option bool
}.

(** What the platform and the standard library answer. *)
Record Platform : Type := {
  Exists : string → bool;
  ListDomains : string → list string;
  overwriteOutput : bool;
  fails : Call → bool;
  CreateScratchName : string → string → string;
  scratchFolder : string;
  scratchGDB : string;
  GetMessages : string;
  workspaceType : string → string;
  (* the document exported for a scratch feature class with this spatial reference *)
  exported_document : option SpatialReference → Element;
  (* [ET.fromstring]; [None] when the text does not parse *)
  fromstring : string → option Element;
  (* the rows an import of this document leaves in the two tables *)
  imported_Lrs_Metadata : Element → list Element;
  imported_Lrs_Event_Behavior : Element → list Z;
  os_path_join : string → string → string;
  os_path_split : string → string * string;
  str_float : Qc → string
}.

Definition eventRegistrationNetworkValues : list (string * string) :=
  [("ENGINEERING", "ENGINEERING"); ("CONTINUOUS", "CONTINUOUS")].

(** [eventRegistrationNetworkValues.get(key, None)] *)
Definition eventRegistrationNetworkValues_get (key : string) : option string :=
  (list_to_map eventRegistrationNetworkValues : gmap string string) !! key.

(** The mutable dictionary [{"count": _, "total": _}] of the progress
    messages; it is passed by reference, so the functions that change it
    return it. *)
Record Counter : Type := { count : Z; total : Z }.

Section Script.

Context (P : Params) (A : Platform).

(** A platform call that may raise. *)
Definition arcpy (c : Call) : M unit :=
  emit c ;;; if fails A c then raise (CallFailed c) else ret tt.

(** *** Utility functions *)

Definition logWarning (message : string) : M unit := emit (AddWarning message).

Definition logError (message : string) (errorMessage : option string)
    (raiseError : bool) : M unit :=
  emit (AddError message) ;;;
  if raiseError then
    raise (ExecuteError (match errorMessage with Some m => m | None => message end))
  else ret tt.

Definition setProgressor (message : option string) (counter : option Counter)
    (increment : Z) : M (option Counter) :=
  r <- match counter with
       | Some c =>
           let c' := {| count := count c + increment; total := total c |} in
           m <- some message TypeError ;;
           ret (Some (m +:+ PyStr.str_int (count c') +:+ "/" +:+ PyStr.str_int (total c')),
                Some c')
       | None => ret (message, None)
       end ;;
  match r.1 with
  | None => emit (SetProgressorLabel "Executing Create UPDM Geodatabase...")
  | Some m => emit (SetProgressorLabel m)
  end ;;;
  ret r.2.

(** The call with a counter; the dictionary is changed in place, so its
    new state is what comes back. *)
Definition setProgressor_counting (message : string) (counter : Counter)
    (increment : Z) : M Counter :=
  c <- setProgressor (Some message) (Some counter) increment ;;
  ret (default counter c).

Definition log (message : string) (updateProgressor : bool) : M unit :=
  emit (AddMessage message) ;;;
  if updateProgressor then (setProgressor (Some message) None 1 ;;; ret tt) else ret tt.

(** [getXmlProperty]: the text of the first child with that tag. *)
Definition getXmlProperty (element : option Element) (propertyName : string)
    : option string :=
  match element with
  | Some e => match find propertyName e with
              | Some propertyValue => text propertyValue
              | None => None
              end
  | None => None
  end.

(** *** Parameter accessors *)

Definition getOutputGDBParamAsText : string := outputGDBParam P.

Definition getSpatialReferenceParam : option SpatialReference := spatialReferenceParam P.

Definition getMUnitsParam : string :=
  match mUnitsParam P with
  | None => "FEET"
  | Some value => if decide (value = "") then "FEET" else value
  end.

Definition getMUnitsParamAsText : string :=
  let value := default "" (mUnitsParam P) in
  if decide (value = "") then "FEET" else value.

Definition getXYToleranceParam : M Qc :=
  match xyToleranceParam P with
  | Some value =>
      if decide (value = 0%Qc)
      then sr <- some getSpatialReferenceParam AttributeError ;; ret (XYTolerance sr)
      else ret value
  | None => sr <- some getSpatialReferenceParam AttributeError ;; ret (XYTolerance sr)
  end.

Definition getZToleranceParam : M Qc :=
  match zToleranceParam P with
  | Some value =>
      if decide (value = 0%Qc)
      then sr <- some getSpatialReferenceParam AttributeError ;; ret (ZTolerance sr)
      else ret value
  | None => sr <- some getSpatialReferenceParam AttributeError ;; ret (ZTolerance sr)
  end.

Definition getEventRegistrationNetworkParamAsText : string :=
  let value := eventRegistrationNetworkParam P in
  if decide (value = "") then "ENGINEERING" else value.

Definition getRegisterPipeSystemParam : bool :=
  match registerPipeSystemParam P with
  | None => false
  | Some value => value
  end.

Definition getFullTableName (table : string) : string :=
  os_path_join A getOutputGDBParamAsText table.

(** *** Validation *)

Definition validateInput : M unit :=
  let outputGDB := getOutputGDBParamAsText in
  (if decide (outputGDB = "")
   then logError "Please provide an Output GDB." None true else ret tt) ;;;
  let sr := getSpatialReferenceParam in
  (if decide (sr = None)
   then logError "Please provide a Spatial Reference." None true else ret tt) ;;;
  let units := getMUnitsParamAsText in
  (if decide (units = "")
   then logError "Please provide a Measure Unit." None true else ret tt) ;;;
  xyTolerance <- getXYToleranceParam ;;
  (if decide (xyTolerance <= 0)%Qc
   then logError "Please provide an XY Tolerance that is greater than 0." None true
   else ret tt) ;;;
  zTolerance <- getZToleranceParam ;;
  (if decide (zTolerance <= 0)%Qc
   then logError "Please provide a Z Tolerance that is greater than 0." None true
   else ret tt) ;;;
  let eventRegistrationNetwork := getEventRegistrationNetworkParamAsText in
  if decide (eventRegistrationNetwork = "")
  then logError "Please provide an Event Measure Storage." None true
  else if decide (eventRegistrationNetworkValues_get eventRegistrationNetwork = None)
  then
    let validValues := snd <$> eventRegistrationNetworkValues in
    logError ("Event Measure Storage must be one of the following: "
              +:+ PyStr.join ", " validValues) None true
  else ret tt.

(** *** Unit conversion *)

(** units per meter *)
Definition unitsConversions : list (string * Qc) :=
  [ ("centimeters",    Q2Qc 100);
    ("decimeters",     Q2Qc 10);
    ("feet",           Q2Qc (32808398950131 # 10000000000000));
    ("inches",         Q2Qc (39370078740157 # 1000000000000));
    ("kilometers",     Q2Qc (1 # 1000));
    ("meters",         Q2Qc 1);
    ("miles",          Q2Qc (62137119223733 # 100000000000000000));
    ("millimeters",    Q2Qc 1000);
    ("nautical miles", Q2Qc (53995680345572 # 100000000000000000));
    ("nautical_miles", Q2Qc (53995680345572 # 100000000000000000));
    ("yards",          Q2Qc (10936132983377 # 10000000000000)) ].

Definition unitsConversions_dict : gmap string Qc := list_to_map unitsConversions.

(** [convertUnits(distance, toUnits, fromUnits="Meters")].  The distance
    is a number, so that [float(distance)] returns, and the numbers are
    exact rationals with [/] as true division: the rounding of the
    floating point operations is not modelled, and what is proved of
    the numbers is proved of the exact values.  The result is [None]
    where the Python function would fall off its end. *)
Definition convertUnits (distance : Qc) (toUnits fromUnits : option string)
    : M (option Qc) :=
  try_except
    (let toUnits := PyStr.lower <$> toUnits in
     let fromUnits := PyStr.lower <$> fromUnits in
     match fromUnits, toUnits with
     | Some f, Some t =>
         if decide (f = t) then ret (Some distance)
         else
           match unitsConversions_dict !! f, unitsConversions_dict !! t with
           | Some perMeterFrom, Some perMeterTo =>
               ret (Some (perMeterTo / perMeterFrom * distance)%Qc)
           | _, _ =>
               logError ("Cannot convert from " +:+ f +:+ " to " +:+ t)
                        (Some "Cannot calculate m tolerance and resolution.") true ;;;
               ret None
           end
     | _, _ => ret (Some distance)
     end)
    (λ e, logError "Cannot calculate m tolerance and resolution." None false ;;;
          raise e).

Definition unitsNumbers : list (string * Z) :=
  [ ("esriunknownunits", 0); ("centimeters", 8); ("decimeters", 12);
    ("feet", 3); ("inches", 1); ("kilometers", 10); ("meters", 9);
    ("miles", 5); ("millimeters", 7); ("nautical miles", 6);
    ("nautical_miles", 6); ("yards", 4) ]%Z.

Definition unitsNumbers_dict : gmap string Z := list_to_map unitsNumbers.

Definition getUnitsNumber (units : option string) : M Z :=
  let units := PyStr.lower <$> units in
  units <- match units ≫= (unitsNumbers_dict !!.) with
           | Some _ => ret units
           | None => logWarning "Cannot get constant value for units." ;;;
                     ret (Some "esriunknownunits")
           end ;;
  ret (default 0%Z (units ≫= (unitsNumbers_dict !!.))).

Definition getMetersPerUnit (spatialReference : option SpatialReference) : M Qc :=
  sr <- some spatialReference AttributeError ;;
  match metersPerUnit sr with
  | Some v => ret v
  | None =>
      if decide (PyStr.lower (type sr) = "geographic")
      then ret (Q2Qc (1113199 # 10))
      else raise NameError
  end.

Definition deleteGdbItem (item : string) : M unit :=
  if decide (item = "") then ret tt
  else try_except (arcpy (Delete_management item))
                  (λ _, logWarning ("Could not delete " +:+ item)).

Definition deleteFile (item : string) : M unit :=
  if decide (item = "") then ret tt
  else try_except (arcpy (os_remove item))
                  (λ _, logWarning ("Could not delete " +:+ item)).

(** [getXmlTree]: parses the text and sets one attribute on the root. *)
Definition getXmlTree (xmlString : string) : M Element :=
  root <- some (fromstring A xmlString) ParseError ;;
  ret (set "xmlns:xs" "http://www.w3.org/2001/XMLSchema" root).

(** *** Create UPDM info *)

(** The local function [_setTandR] of [setToleranceAndResolution]; the
    element is changed in place, so it is returned. *)
Definition _setTandR (spatialReferenceXml : Element) (newTolerance : option Qc)
    (toleranceXml scaleXml : string) : M Element :=
  newTolerance <- some newTolerance TypeError ;;
  let newResolution := (newTolerance * Q2Qc (1 # 10))%Qc in
  let sr := update_all toleranceXml
              (λ tolerance, with_text tolerance (Some (str_float A newTolerance)))
              spatialReferenceXml in
  match iter_tag scaleXml sr with
  | [] => ret sr
  | _ :: _ =>
      if decide (newResolution = 0%Qc) then raise ZeroDivisionError
      else ret (update_all scaleXml
                  (λ scale, with_text scale (Some (str_float A (1 / newResolution)%Qc)))
                  sr)
  end.

Definition setToleranceAndResolution (spatialReferenceXml : option Element)
    (metersPerUnit : Qc) : M Element :=
  let mUnits := getMUnitsParam in
  newXyTolerance <- getXYToleranceParam ;;
  newZTolerance <- getZToleranceParam ;;
  newMTolerance <- convertUnits (newXyTolerance * metersPerUnit)%Qc
                                (Some mUnits) (Some "Meters") ;;
  sr <- some spatialReferenceXml AttributeError ;;
  sr <- _setTandR sr (Some newXyTolerance) "XYTolerance" "XYScale" ;;
  sr <- _setTandR sr (Some newZTolerance) "ZTolerance" "ZScale" ;;
  _setTandR sr newMTolerance "MTolerance" "MScale".

(** [getSpatialReferenceXML]: the first [SpatialReference] element of the
    document exported for a scratch feature class. *)
Definition getSpatialReferenceXML (spatialReference : option SpatialReference)
    : M (option Element) :=
  let fcPath := CreateScratchName A "srFC" (scratchGDB A) in
  let xmlPath := CreateScratchName A "srFC.xml" (scratchFolder A) in
  try_finally
    (let splitFCPath := os_path_split A fcPath in
     arcpy (CreateFeatureclass_management splitFCPath.1 splitFCPath.2 spatialReference) ;;;
     arcpy (ExportXMLWorkspaceDocument_management fcPath xmlPath "SCHEMA_ONLY") ;;;
     let xmlTree := exported_document A spatialReference in
     ret (head (iter_tag "SpatialReference" xmlTree)))
    (deleteGdbItem fcPath ;;; deleteFile xmlPath).

(** [{c:p for p in updmXml.iter() for c in p}], objects by their [oid]. *)
Definition xmlParentMap (updmXml : Element) : gmap nat nat :=
  foldl (λ m p, foldl (λ m c, <[oid c := oid p]> m) m (children p)) ∅ (iter updmXml).

(** One turn of the loop of [replaceSpatialReference].  The parent is
    the object found in the dictionary; when that object is no longer
    in the document, because it went out with a subtree replaced before,
    changing it leaves the document as it is. *)
Definition replaceSpatialReference_step (parentMap : gmap nat nat)
    (newSpatialReferenceXml : Element) (updmXml : Element)
    (spatialReferenceXml : Element) : M Element :=
  parent <- some (parentMap !! oid spatialReferenceXml) KeyError ;;
  match lookup_obj parent updmXml with
  | None => ret updmXml
  | Some parentNow =>
      index <- some (ET.index spatialReferenceXml parentNow) ValueError ;;
      ret (modify parent
             (λ p, match remove spatialReferenceXml p with
                   | Some p' => insert index newSpatialReferenceXml p'
                   | None => p
                   end)
             updmXml)
  end.

Definition replaceSpatialReference (updmXml : Element) : M Element :=
  log "Updating spatial references" false ;;;
  let newSpatialReference := getSpatialReferenceParam in
  newSpatialReferenceXml <- getSpatialReferenceXML newSpatialReference ;;
  metersPerUnit <- getMetersPerUnit newSpatialReference ;;
  newSpatialReferenceXml <- setToleranceAndResolution newSpatialReferenceXml metersPerUnit ;;
  let parentMap := xmlParentMap updmXml in
  fold_each (iter_tag "SpatialReference" updmXml)
    (replaceSpatialReference_step parentMap newSpatialReferenceXml)
    updmXml.

Definition populateUpdmWorkspace (workspace : string) (updmXml : Element) : M unit :=
  let xmlPath := CreateScratchName A "updm.xml" (scratchFolder A) in
  try_finally
    (log "Populating UPDM" false ;;;
     arcpy (ElementTree_write xmlPath updmXml) ;;;
     arcpy (ImportXMLWorkspaceDocument_management workspace xmlPath "SCHEMA_ONLY") ;;;
     log (GetMessages A) false)
    (deleteFile xmlPath).

Definition createUpdm (updmXml : Element) (workspace : string) : M unit :=
  updmXml <- replaceSpatialReference updmXml ;;
  populateUpdmWorkspace workspace updmXml.

(** *** Register LRS *)

Definition populateLrsWorkspace (workspace : string) (lrsXml : Element) : M unit :=
  let xmlPath := CreateScratchName A "lrs.xml" (scratchFolder A) in
  try_finally
    (log "Populating LRS" false ;;;
     arcpy (ElementTree_write xmlPath lrsXml) ;;;
     arcpy (ImportXMLWorkspaceDocument_management workspace xmlPath "DATA") ;;;
     put_Lrs_Metadata (imported_Lrs_Metadata A lrsXml) ;;;
     put_Lrs_Event_Behavior (imported_Lrs_Event_Behavior A lrsXml) ;;;
     log (GetMessages A) false)
    (deleteFile xmlPath).

(** [with arcpy.da.UpdateCursor(Lrs_Metadata, ["Metadata"]) as cursor:
    for row in cursor: ...; cursor.updateRow(row)].  The row holds the
    serialized document; [body] works on the parsed one and gives the
    document that is written back. *)
Definition UpdateCursor_Lrs_Metadata {S} (body : S → Element → M (S * Element))
    (s : S) : M S :=
  w <- get_world ;;
  fold_each (seq 0 (length (Lrs_Metadata w)))
    (λ s n,
       w <- get_world ;;
       metadataXml <- some (Lrs_Metadata w !! n) ValueError ;;
       r <- body s metadataXml ;;
       arcpy (updateRow (getFullTableName "Lrs_Metadata") n) ;;;
       w <- get_world ;;
       put_Lrs_Metadata (<[n := r.2]> (Lrs_Metadata w)) ;;;
       ret r.1)
    s.

(** The attributes [setDerivedNetwork] sets on one event table. *)
Definition setDerived_eventTable (eventTable : Element) : Element :=
  let eventTable := set "DerivedRouteIdFieldName" "CONTINROUTEID" eventTable in
  let eventTable := set "DerivedRouteNameFieldName" "CONTINROUTENAME" eventTable in
  let eventTable := set "StoreFieldsFromDerivedNetworkWithEventRecords" "true" eventTable in
  let isPointEvent := get "IsPointEvent" eventTable in
  if decide (isPointEvent = Some "true")
  then set "DerivedFromMeasureFieldName" "CONTINM" eventTable
  else set "DerivedToMeasureFieldName" "CONTINTOM"
         (set "DerivedFromMeasureFieldName" "CONTINFROMM" eventTable).

(** The body of the cursor loop of [setDerivedNetwork], on the parsed
    document of one row. *)
Definition setDerivedNetwork_row (metadataXml : Element) : Exn + Element :=
  let2 (iN, networks) <-- need (find_i "Networks" metadataXml) AttributeError ;;
  let continuousNetwork := find_attr_i "Network" "Name" "P_ContinuousNetwork" networks in
  let engineeringNetwork := find_attr_i "Network" "Name" "P_EngineeringNetwork" networks in
  let networks :=
    match continuousNetwork with
    | Some (iC, c) =>
        if truthy (Some c)
        then set_child iC (set "IsDerived" "true" (set "DerivedFromNetwork" "2" c)) networks
        else networks
    | None => networks
    end in
  networks <--
    match engineeringNetwork with
    | Some (iE, e) =>
        if truthy (Some e) then
          let2 (iT, events) <-- need (find_i "EventTables" e) AttributeError ;;
          let events := update_children "EventTable" setDerived_eventTable events in
          inr (set_child iE (set_child iT events e) networks)
        else inr networks
    | None => inr networks
    end ;;
  inr (set_child iN networks metadataXml).

Definition setDerivedNetwork : M unit :=
  UpdateCursor_Lrs_Metadata
    (λ _ metadataXml, r <- lift (setDerivedNetwork_row metadataXml) ;; ret (tt, r)) tt.

Definition updateEventBehaviorTable : M unit :=
  w <- get_world ;;
  for_each (seq 0 (length (Lrs_Event_Behavior w)))
    (λ n,
       arcpy (updateRow (getFullTableName "Lrs_Event_Behavior") n) ;;;
       w <- get_world ;;
       put_Lrs_Event_Behavior (<[n := 1%Z]> (Lrs_Event_Behavior w))).

(** The attributes [updateContinuousMetadata] sets on one event table. *)
Definition setContinuous_eventTable (eventTable : Element) : Element :=
  let eventTable := set "ToRouteIdFieldName" "" eventTable in
  let eventTable := set "ToRouteNameFieldName" "" eventTable in
  let eventTable := set "RouteIdFieldName" "CONTINROUTEID" eventTable in
  let eventTable := set "RouteNameFieldName" "CONTINROUTENAME" eventTable in
  let isPointEvent := get "IsPointEvent" eventTable in
  if decide (isPointEvent = Some "true")
  then set "FromMeasureFieldName" "CONTINM" eventTable
  else set "ToMeasureFieldName" "CONTINTOM"
         (set "FromMeasureFieldName" "CONTINFROMM" eventTable).

(** The body of the cursor loop of [updateContinuousMetadata]. *)
Definition updateContinuousMetadata_row (metadataXml : Element) : Exn + Element :=
  let2 (iN, networks) <-- need (find_i "Networks" metadataXml) AttributeError ;;
  let continuousNetwork := find_attr_i "Network" "Name" "P_ContinuousNetwork" networks in
  let stationNetwork := find_attr_i "Network" "Name" "P_EngineeringNetwork" networks in
  let2 (iC, continuousNetwork) <-- need continuousNetwork AttributeError ;;
  let emptyEvents := find_i "EventTables" continuousNetwork in
  let2 (iS, stationNetwork) <-- need stationNetwork AttributeError ;;
  let2 (iT, events) <-- need (find_i "EventTables" stationNetwork) AttributeError ;;
  let events := update_children "EventTable" setContinuous_eventTable events in
  let2 (iM, emptyEvents) <-- need emptyEvents TypeError ;;
  let continuousNetwork := remove_at iM continuousNetwork in
  let stationNetwork := remove_at iT stationNetwork in
  let continuousNetwork := insert 1 events continuousNetwork in
  let stationNetwork := insert 1 emptyEvents stationNetwork in
  let networks := set_child iS stationNetwork (set_child iC continuousNetwork networks) in
  inr (set_child iN networks metadataXml).

Definition updateContinuousMetadata : M unit :=
  UpdateCursor_Lrs_Metadata
    (λ _ metadataXml, r <- lift (updateContinuousMetadata_row metadataXml) ;; ret (tt, r)) tt.

(** [removeEngineeringFields]: the event tables by kind, then the
    field deletions. *)
Definition removeEngineeringFields (lrsMetadata : option Element) : M unit :=
  lrsMetadata <- some lrsMetadata AttributeError ;;
  let named :=
    omap (λ eventTable, name ← get "Name" eventTable;
                        Some (getFullTableName name, get "IsPointEvent" eventTable))
         (iter_tag "EventTable" lrsMetadata) in
  let lineEvents := fst <$> filter (λ e, e.2 ≠ Some "true") named in
  let pointEvents := fst <$> filter (λ e, e.2 = Some "true") named in
  for_each lineEvents (λ event,
    arcpy (DeleteField_management event "ENGROUTEID") ;;;
    arcpy (DeleteField_management event "ENGROUTENAME") ;;;
    arcpy (DeleteField_management event "ENGTOROUTEID") ;;;
    arcpy (DeleteField_management event "ENGTOROUTENAME") ;;;
    arcpy (DeleteField_management event "ENGFROMM") ;;;
    arcpy (DeleteField_management event "ENGTOM")) ;;;
  for_each pointEvents (λ event,
    arcpy (DeleteField_management event "ENGROUTEID") ;;;
    arcpy (DeleteField_management event "ENGROUTENAME") ;;;
    arcpy (DeleteField_management event "ENGM")).

Definition updateEventNetwork (lrsMetadata : option Element) : M unit :=
  let eventNetwork := getEventRegistrationNetworkParamAsText in
  if decide (eventNetwork = "CONTINUOUS") then
    log "Updating event network" false ;;;
    updateEventBehaviorTable ;;;
    removeEngineeringFields lrsMetadata ;;;
    updateContinuousMetadata
  else if decide (eventNetwork = "ENGINEERING") then
    log "Setting derived network" false ;;;
    setDerivedNetwork
  else ret tt.

(** [addReferentMethodDomain]; the counter is changed in place. *)
Definition addReferentMethodDomain (lrsMetadata : option Element) (counter : Counter)
    : M Counter :=
  let domain := "dReferentMethod" in
  lrsMetadata <- some lrsMetadata AttributeError ;;
  let eventTables := iter_tag "EventTable" lrsMetadata in
  let counter := {| count := count counter;
                    total := total counter + 2 * Z.of_nat (length eventTables) |} in
  counter <- setProgressor_counting "Adding domains: " counter 1 ;;
  fold_each eventTables
    (λ counter eventTable,
       let name := get "Name" eventTable in
       let fromRefMethodFieldName := get "FromReferentMethodFieldName" eventTable in
       let toRefMethodFieldName := get "ToReferentMethodFieldName" eventTable in
       match fromRefMethodFieldName with
       | Some field =>
           if decide (field = "") then ret tt
           else name <- some name TypeError ;;
                arcpy (AssignDomainToField_management (getFullTableName name) field domain)
       | None => ret tt
       end ;;;
       match toRefMethodFieldName with
       | Some field =>
           if decide (field = "") then ret tt
           else name <- some name TypeError ;;
                arcpy (AssignDomainToField_management (getFullTableName name) field domain)
       | None => ret tt
       end ;;;
       setProgressor_counting "Adding domains: " counter 2)
    counter.

(** [updateMetadata]: units of measure and time zone in every row; the
    parsed document of the last row is returned, [None] without rows. *)
Definition updateMetadata : M (option Element) :=
  log "Updating LRS metadata" false ;;;
  UpdateCursor_Lrs_Metadata
    (λ _ metadataXml,
       number <- fold_each (iter_tag "UnitsOfMeasure" metadataXml)
                   (λ _ _, getUnitsNumber (Some getMUnitsParamAsText)) 0%Z ;;
       let metadataXml :=
         update_all "UnitsOfMeasure"
           (λ units, with_text units (Some (PyStr.str_int number))) metadataXml in
       let metadataXml :=
         update_all "TimeZoneOffset"
           (λ timeZoneOffset, with_text timeZoneOffset (Some "0")) metadataXml in
       let metadataXml :=
         update_all "TimeZoneId"
           (λ timeZoneId, with_text timeZoneId (Some "UTC")) metadataXml in
       let metadataXml :=
         update_all "EventTable"
           (λ eventTable, set "TimeZoneId" "UTC" (set "TimeZoneOffset" "0" eventTable))
           metadataXml in
       ret (Some metadataXml, metadataXml))
    None.

Definition addDomains (lrsMetadata : option Element) : M unit :=
  log "Adding LRS domains to fields" false ;;;
  let networkDomain := "dLRSNetworks" in
  let activityDomain := "dActivityType" in
  let counter := {| count := -1; total := 4 |} in
  counter <- addReferentMethodDomain lrsMetadata counter ;;
  arcpy (AssignDomainToField_management
           (getFullTableName "P_CalibrationPoint") "NETWORKID" networkDomain) ;;;
  counter <- setProgressor_counting "Adding domains: " counter 1 ;;
  arcpy (AssignDomainToField_management
           (getFullTableName "P_Centerline_Sequence") "NETWORKID" networkDomain) ;;;
  counter <- setProgressor_counting "Adding domains: " counter 1 ;;
  arcpy (AssignDomainToField_management
           (getFullTableName "P_Redline") "NETWORKID" networkDomain) ;;;
  counter <- setProgressor_counting "Adding domains: " counter 1 ;;
  arcpy (AssignDomainToField_management
           (getFullTableName "P_Redline") "ACTIVITYTYPE" activityDomain) ;;;
  counter <- setProgressor_counting "Adding domains: " counter 1 ;;
  setProgressor None None 1 ;;;
  ret tt.

Definition registerAsVersioned (workspace : string) : M unit :=
  if decide (workspaceType A workspace = "RemoteDatabase") then
    log "Registering as versioned" false ;;;
    arcpy (RegisterAsVersioned_management
             (getFullTableName "Lrs_Edit_Log") "NO_EDITS_TO_BASE") ;;;
    arcpy (RegisterAsVersioned_management
             (getFullTableName "P_Centerline_Sequence") "NO_EDITS_TO_BASE") ;;;
    arcpy (RegisterAsVersioned_management
             (getFullTableName "P_Integrity") "NO_EDITS_TO_BASE") ;;;
    if getRegisterPipeSystemParam
    then arcpy (RegisterAsVersioned_management
                  (getFullTableName "P_PipeSystem") "NO_EDITS_TO_BASE")
    else ret tt
  else ret tt.

(** *** Indexes *)

(** One turn of the loop of [addIndex], which threads [i],
    [newIndexName] and the counter (changed in place). *)
Definition addIndex_turn (indexName : string) (fields : list string)
    (s : Z * string * Counter) (table : string) : M (Z * string * Counter) :=
  let '(i, newIndexName, counter) := s in
  try_except
    (counter <- setProgressor_counting "Adding indexes: " counter 1 ;;
     let tableName := getFullTableName table in
     arcpy (AddIndex_management tableName fields newIndexName
              "NON_UNIQUE" "ASCENDING") ;;;
     let i := (i + 1)%Z in
     let newIndexName := indexName +:+ "_" +:+ PyStr.str_int i in
     ret (i, newIndexName, counter))
    (λ e,
       logError ("Couldn't add index " +:+ newIndexName +:+ " to " +:+ table)
                None false ;;;
       raise e).

Definition addIndex (indexName : string) (fields : list string) (tables : list string)
    (counter : Counter) : M Counter :=
  s <- fold_each tables (addIndex_turn indexName fields) (1%Z, indexName, counter) ;;
  ret s.2.

(** [addIndexes]: the index specifications as (name, fields, tables). *)
Definition addIndexes (lrsMetadata : option Element) : M unit :=
  log "Adding indexes" false ;;;
  lrsMetadata <- some lrsMetadata AttributeError ;;
  let named :=
    omap (λ eventTable, name ← get "Name" eventTable;
                        Some (name, get "IsPointEvent" eventTable))
         (iter_tag "EventTable" lrsMetadata) in
  let pointEvents := fst <$> filter (λ e, e.2 = Some "true") named in
  let lineEvents := fst <$> filter (λ e, e.2 ≠ Some "true") named in
  let allEvents := lineEvents ++ pointEvents in
  let indexes :=
    [ ("ix_CTRLINEID", ["CENTERLINEID"], ["P_Centerline"; "P_Centerline_Sequence"]);
      ("ix_NETWORKID", ["NETWORKID"], ["P_CalibrationPoint"; "P_Centerline_Sequence"]);
      ("ix_ROUTEID", ["ROUTEID"],
         ["P_CalibrationPoint"; "P_Centerline_Sequence"; "P_ContinuousNetwork";
          "P_EngineeringNetwork"; "P_Redline"]);
      ("ix_ROUTENAME", ["ROUTENAME"], ["P_ContinuousNetwork"; "P_EngineeringNetwork"]);
      ("ix_LINEID", ["LINEID"], ["P_EngineeringNetwork"]);
      ("ix_LINENAME", ["LINENAME"], ["P_EngineeringNetwork"]);
      ("ix_EVENTID", ["EVENTID"], allEvents);
      ("ix_FROMDATE", ["FROMDATE"],
         ["P_CalibrationPoint"; "P_Centerline_Sequence"; "P_ContinuousNetwork";
          "P_EngineeringNetwork"]);
      ("ix_TODATE", ["TODATE"],
         ["P_CalibrationPoint"; "P_Centerline_Sequence"; "P_ContinuousNetwork";
          "P_EngineeringNetwork"]);
      ("ix_DATERANGE", ["FROMDATE"; "TODATE"], allEvents) ] in
  let eventNetwork := getEventRegistrationNetworkParamAsText in
  let indexes :=
    if decide (eventNetwork = "ENGINEERING")
    then indexes ++ [ ("ix_EROUTEID", ["ENGROUTEID"], allEvents);
                      ("ix_ETOROUTEID", ["ENGTOROUTEID"], lineEvents) ]
    else indexes ++ [ ("ix_CROUTEID", ["CONTINROUTEID"], allEvents) ] in
  let counter :=
    {| count := 0;
       total := foldl (λ total index, total + Z.of_nat (length index.2))%Z 0%Z indexes |} in
  fold_each indexes (λ counter index, addIndex index.1.1 index.1.2 index.2 counter)
            counter ;;;
  setProgressor None None 1 ;;;
  ret tt.

Definition createLrs (lrsXml : Element) (workspace : string) : M unit :=
  populateLrsWorkspace workspace lrsXml ;;;
  lrsMetadata <- updateMetadata ;;
  addIndexes lrsMetadata ;;;
  addDomains lrsMetadata ;;;
  updateEventNetwork lrsMetadata ;;;
  registerAsVersioned workspace.

(** *** Data checks *)

Definition newline : string := String (Ascii.ascii_of_nat 10) "".

(** The body of the loop of [checkDomainNames] for one document. *)
Definition checkDomainNames_in (gdb : string) (workspaceXml : Element)
    : Exn + list string :=
  workspaceDefinition <-- need (find "WorkspaceDefinition" workspaceXml) AttributeError ;;
  let xmlDomains := find "Domains" workspaceDefinition in
  let existingDomainsArray := ListDomains A gdb in
  xmlDomains <-- need xmlDomains AttributeError ;;
  inr (omap (λ domain,
               name ← getXmlProperty (Some domain) "DomainName";
               if decide (name ∈ existingDomainsArray) then Some name else None)
            (findall "Domain" xmlDomains)).

Fixpoint checkDomainNames (workspaceXmls : list Element) (gdb : string)
    : Exn + list string :=
  match workspaceXmls with
  | [] => inr []
  | workspaceXml :: rest =>
      names <-- checkDomainNames_in gdb workspaceXml ;;
      more <-- checkDomainNames rest gdb ;;
      inr (names ++ more)
  end.

(** The inner loop of [checkDatasetNames]. *)
Fixpoint checkDataElements (dataElements : list Element) : Exn + list string :=
  match dataElements with
  | [] => inr []
  | dataElement :: rest =>
      name <-- need (getXmlProperty (Some dataElement) "Name") TypeError ;;
      more <-- checkDataElements rest ;;
      inr (if Exists A (getFullTableName name) then name :: more else more)
  end.

Fixpoint checkDatasetNames (workspaceXmls : list Element) (gdb : string)
    : Exn + list string :=
  match workspaceXmls with
  | [] => inr []
  | workspaceXml :: rest =>
      workspaceDefinition <--
        need (find "WorkspaceDefinition" workspaceXml) AttributeError ;;
      xmlDatasetDefinitions <--
        need (find "DatasetDefinitions" workspaceDefinition) AttributeError ;;
      names <-- checkDataElements (findall "DataElement" xmlDatasetDefinitions) ;;
      more <-- checkDatasetNames rest gdb ;;
      inr (names ++ more)
  end.

Definition removeDomains (domains : list string) (gdb : string) : M unit :=
  match domains with
  | [] => ret tt
  | _ :: _ =>
      let counter := {| count := 0; total := Z.of_nat (length domains) |} in
      log ("Removing conflicting domains ("
           +:+ PyStr.str_int (Z.of_nat (length domains)) +:+ ")") false ;;;
      fold_each domains
        (λ counter invalidDomain,
           try_except
             (counter <- setProgressor_counting "Removing conflicting domains: " counter 1 ;;
              arcpy (DeleteDomain_management gdb invalidDomain) ;;;
              ret counter)
             (λ e, logError ("Unable to remove domain: " +:+ invalidDomain) None false ;;;
                   raise e))
        counter ;;;
      setProgressor None None 1 ;;;
      ret tt
  end.

Definition removeDatasets (datasets : list string) : M unit :=
  match datasets with
  | [] => ret tt
  | _ :: _ =>
      let counter := {| count := 0; total := Z.of_nat (length datasets) |} in
      log ("Removing conflicting items ("
           +:+ PyStr.str_int (Z.of_nat (length datasets)) +:+ ")") false ;;;
      fold_each datasets
        (λ counter invalidDataset,
           try_except
             (counter <- setProgressor_counting "Removing conflicting items: " counter 1 ;;
              arcpy (Delete_management (getFullTableName invalidDataset)) ;;;
              ret counter)
             (λ e, logError ("Unable to remove item: " +:+ invalidDataset) None false ;;;
                   raise e))
        counter ;;;
      setProgressor None None 1 ;;;
      ret tt
  end.

Definition checkNames (updmXml lrsXml : Element) (workspace : string) : M unit :=
  log "Checking for existing items" false ;;;
  datasets <- lift (checkDatasetNames [updmXml; lrsXml] workspace) ;;
  domains <- lift (checkDomainNames [updmXml; lrsXml] workspace) ;;
  if decide (0 < length datasets ∨ 0 < length domains) then
    if overwriteOutput A then
      removeDatasets datasets ;;;
      removeDomains domains workspace
    else
      let message := "" in
      let message :=
        if decide (0 < length datasets) then
          message
          +:+ "The following items already exist in the workspace. Please remove them to run this tool."
          +:+ newline +:+ PyStr.join newline datasets
        else message in
      let message :=
        if decide (0 < length domains) then
          (if decide (message ≠ "") then message +:+ newline +:+ newline else message)
          +:+ "The following domains already exist in the workspace. Please remove them to run this tool."
          +:+ newline +:+ PyStr.join newline domains
        else message in
      let allItems := datasets ++ domains in
      logError message
        (Some ("Some items already exist in the workspace." +:+ newline +:+ "["
               +:+ PyStr.join ", " allItems +:+ "]"))
        true
  else ret tt.

(** *** Main *)

Definition start (updmXmlString lrsXmlString : string) : M unit :=
  try_finally
    (log newline false ;;;
     setProgressor None None 1 ;;;
     validateInput ;;;
     let workspace := getOutputGDBParamAsText in
     updmXml <- getXmlTree updmXmlString ;;
     lrsXml <- getXmlTree lrsXmlString ;;
     checkNames updmXml lrsXml workspace ;;;
     createUpdm updmXml workspace ;;;
     createLrs lrsXml workspace)
    (log newline false).

End Script.

(** The import calls. *)
Definition is_import (c : Call) : bool :=
  match c with
  | ImportXMLWorkspaceDocument_management _ _ _ => true
  | _ => false
  end.

End CreateUPDM.

(** ** What the properties are stated with *)

Module Spec.

Import ET Py CreateUPDM.

(** The fixed message of [convertUnits]. *)
Definition cannot_calculate : string := "Cannot calculate m tolerance and resolution.".

(** The tolerance the accessors hand on: the parameter, or the spatial
    reference's own value when the parameter is absent or zero. *)
Definition effective_tolerance (param : option Qc) (own : Qc) : Qc :=
  match param with
  | Some value => if decide (value = 0%Qc) then own else value
  | None => own
  end.

Definition xy_message : string := "Please provide an XY Tolerance that is greater than 0.".

(** The first message [validateInput] raises, if any. *)
Definition first_complaint (P : Params) : option string :=
  if decide (outputGDBParam P = "") then Some "Please provide an Output GDB."
  else match spatialReferenceParam P with
       | None => Some "Please provide a Spatial Reference."
       | Some sr =>
           if decide (effective_tolerance (xyToleranceParam P) (XYTolerance sr) <= 0)%Qc
           then Some xy_message
           else if decide (effective_tolerance (zToleranceParam P) (ZTolerance sr) <= 0)%Qc
           then Some "Please provide a Z Tolerance that is greater than 0."
           else if decide (eventRegistrationNetworkValues_get
                             (getEventRegistrationNetworkParamAsText P) = None)
           then Some "Event Measure Storage must be one of the following: ENGINEERING, CONTINUOUS"
           else None
       end.

(** The name [addIndex] gives to the index on its table number [k],
    counting from 0. *)
Definition index_name (base : string) (k : nat) : string :=
  match k with
  | 0 => base
  | S _ => base +:+ "_" +:+ PyStr.str_int (Z.of_nat k + 1)
  end.

(** The index creation calls of a trace: table, fields and index name. *)
Definition index_call (c : Call) : option (string * list string * string) :=
  match c with
  | AddIndex_management table fields indexName _ _ => Some (table, fields, indexName)
  | _ => None
  end.

(** The dataset definitions of a workspace document: the [DataElement]
    children of [WorkspaceDefinition/DatasetDefinitions]. *)
Definition dataset_elements (doc : Element) : list Element :=
  match find "WorkspaceDefinition" doc with
  | Some definition =>
      match find "DatasetDefinitions" definition with
      | Some definitions => findall "DataElement" definitions
      | None => []
      end
  | None => []
  end.

(** The dataset names the scan of [checkDatasetNames] reaches, in
    document order: those of the top-level dataset definitions. *)
Definition scanned_datasets (doc : Element) : list string :=
  omap (λ dataElement, getXmlProperty (Some dataElement) "Name") (dataset_elements doc).

(** The dataset names a workspace document declares, in document order:
    the [Name] of every [DataElement] element of the document, at any
    depth.  A feature dataset is a [DataElement] that holds the
    definitions of its feature classes, [DataElement] elements again,
    below its own. *)
Definition declared_datasets (doc : Element) : list string :=
  omap (λ dataElement, getXmlProperty (Some dataElement) "Name")
       (iter_tag "DataElement" doc).

(** A workspace document has the dataset definitions and a name in each
    of them. *)
Definition workspace_document (doc : Element) : Prop :=
  (∃ definition, find "WorkspaceDefinition" doc = Some definition
                 ∧ is_Some (find "DatasetDefinitions" definition))
  ∧ Forall (λ dataElement, is_Some (getXmlProperty (Some dataElement) "Name"))
           (dataset_elements doc).

(** The text [s] contains the text [x]. *)
Definition mentions (s x : string) : Prop := ∃ before after, s = before +:+ x +:+ after.

(** The network with a given name in a metadata document, as the
    patchers look it up: [find("Networks").find("Network[@Name=...]")]. *)
Definition network (name : string) (metadataXml : Element) : option Element :=
  networks ← find "Networks" metadataXml;
  find_attr "Network" "Name" name networks.

(** The event tables of a network: the [EventTable] children of its
    [EventTables] element. *)
Definition event_tables (net : Element) : list Element :=
  match find "EventTables" net with
  | Some events => findall "EventTable" events
  | None => []
  end.

(** The shape of the LRS metadata: both networks are there, each with an
    [EventTables] element, and every [EventTable] element of the document
    is registered with the engineering network, that is, it is one of the
    [EventTable] children of that network's [EventTables] element. *)
Definition events_registered_with_engineering (metadataXml : Element) : Prop :=
  (∃ continuous, network "P_ContinuousNetwork" metadataXml = Some continuous
                 ∧ is_Some (find "EventTables" continuous))
  ∧ ∃ engineering, network "P_EngineeringNetwork" metadataXml = Some engineering
                   ∧ is_Some (find "EventTables" engineering)
                   ∧ iter_tag "EventTable" metadataXml = event_tables engineering.

(** What [setDerivedNetwork] leaves on an event table. *)
Definition stores_derived_fields (eventTable : Element) : Prop :=
  get "StoreFieldsFromDerivedNetworkWithEventRecords" eventTable = Some "true"
  ∧ get "DerivedRouteIdFieldName" eventTable = Some "CONTINROUTEID"
  ∧ get "DerivedRouteNameFieldName" eventTable = Some "CONTINROUTENAME"
  ∧ if decide (get "IsPointEvent" eventTable = Some "true")
    then get "DerivedFromMeasureFieldName" eventTable = Some "CONTINM"
    else get "DerivedFromMeasureFieldName" eventTable = Some "CONTINFROMM"
         ∧ get "DerivedToMeasureFieldName" eventTable = Some "CONTINTOM".

(** No [SpatialReference] element of the document has another one below
    it. *)
Definition unnested (e : Element) : Prop :=
  ∀ x, x ∈ iter_tag "SpatialReference" e → iter_tag "SpatialReference" x = [x].

Definition z_message : string := "Please provide a Z Tolerance that is greater than 0.".

Definition network_message : string :=
  "Event Measure Storage must be one of the following: ENGINEERING, CONTINUOUS".

(** The inputs that validation is there to turn down: no output path,
    no spatial reference, a tolerance that is not positive (the tolerance
    as the accessor hands it on), or an event registration network that
    is given and is none of the two known ones. *)
Definition invalid_input (P : Params) : Prop :=
  outputGDBParam P = ""
  ∨ spatialReferenceParam P = None
  ∨ (∃ sr, spatialReferenceParam P = Some sr
           ∧ ((effective_tolerance (xyToleranceParam P) (XYTolerance sr) <= 0)%Qc
              ∨ (effective_tolerance (zToleranceParam P) (ZTolerance sr) <= 0)%Qc))
  ∨ eventRegistrationNetworkParam P ∉ [""; "ENGINEERING"; "CONTINUOUS"].

(** A measure unit, in ASCII, that the table of [convertUnits] does not
    have. *)
Definition unknown_unit (units : string) : Prop :=
  PyStr.is_ascii units = true ∧ unitsConversions_dict !! PyStr.lower units = None.

(** What a run logs when validation raises the message [m]. *)
Definition rejected_run (m : string) : list Call :=
  [ AddMessage newline;
    SetProgressorLabel "Executing Create UPDM Geodatabase...";
    AddError m;
    AddMessage newline ].

(** Induction on the tree of an element. *)
Fixpoint Element_tree_ind (P : Element → Prop)
    (step : ∀ e, Forall P (children e) → P e) (e : Element) {struct e} : P e :=
  match e with
  | Elem o t a tx tl cs =>
      step (Elem o t a tx tl cs)
        ((fix siblings (l : list Element) : Forall P l :=
            match l with
            | [] => @List.Forall_nil _ P
            | c :: l' => @List.Forall_cons _ P c l' (Element_tree_ind P step c) (siblings l')
            end) cs)
  end.

(** The identities of the objects of a tree, in document order. *)
Definition oids (e : Element) : list nat := oid <$> iter e.

(** The tree in which the children that answer [test] have given way to
    [new]; what was below such a child is gone with it, the other
    children are treated in turn. *)
Fixpoint replace_where (test : Element → bool) (new : Element) (e : Element) : Element :=
  with_children e
    (map (λ c, if test c then new else replace_where test new c) (children e)).

(** The document with [new] in the place of every outermost
    [SpatialReference] element below the root. *)
Definition replace_outer (new : Element) (e : Element) : Element :=
  replace_where (λ c, bool_decide (tag c = "SpatialReference")) new e.

(** The objects with an identity in [ids]. *)
Definition among (ids : list nat) (c : Element) : bool := bool_decide (oid c ∈ ids).

(** Where the child [c] stood after the objects [ids] have given way to
    [new]. *)
Definition placed (ids : list nat) (new : Element) (c : Element) : Element :=
  if among ids c then new else replace_where (among ids) new c.

(** What one turn of the loop of [replaceSpatialReference] does to the
    parent of [x]: [parent.remove(x); parent.insert(index, new)]. *)
Definition put_in_place (index : nat) (new x : Element) (parent : Element) : Element :=
  match remove x parent with
  | Some parent' => insert index new parent'
  | None => parent
  end.

(** One turn of the loop on the tree [t] in which the objects [ids] have
    given way to [new] already, for the child [x] at index [i] of the
    element [p] of [t]: either [p] is no longer in the tree, and then [x]
    went with it, or [p] still has [x] at index [i] and the turn puts
    [new] there. *)
Definition turn_on (ids : list nat) (new : Element) (t : Element) : Prop :=
  ∀ p i x,
    NoDup (oids t) → p ∈ iter t → children p !! i = Some x →
    oid x ∉ ids → oid t ∉ ids → oid p ∉ oids new → oid x ∉ oids new →
    match lookup_obj (oid p) (replace_where (among ids) new t) with
    | None => replace_where (among (oid x :: ids)) new t = replace_where (among ids) new t
    | Some parent =>
        index x parent = Some i
        ∧ modify (oid p) (put_in_place i new x) (replace_where (among ids) new t)
          = replace_where (among (oid x :: ids)) new t
    end.

(** The computation [m] adds only calls that satisfy [Q] to the trace. *)
Definition only_calls {X} (Q : Call → Prop) (m : M X) : Prop :=
  ∀ w, ∃ cs, trace (m w).1 = trace w ++ cs ∧ Forall Q cs.

(** The computation [m] raises, having added only calls that satisfy [Q]. *)
Definition stops {X} (Q : Call → Prop) (m : M X) : Prop :=
  ∀ w, (∃ e, (m w).2 = inl e)
       ∧ ∃ cs, trace (m w).1 = trace w ++ cs ∧ Forall Q cs.

(** The calls that only tell the user something. *)
Definition is_message (c : Call) : bool :=
  match c with
  | AddMessage _ | AddWarning _ | AddError _ | SetProgressorLabel _ => true
  | _ => false
  end.

(** The calls that take nothing from the workspace: no domain is deleted,
    and no item but the scratch feature class of [getSpatialReferenceXML]. *)
Definition spares_workspace (A : Platform) (c : Call) : Prop :=
  match c with
  | DeleteDomain_management _ _ => False
  | Delete_management item => item = CreateScratchName A "srFC" (scratchGDB A)
  | _ => True
  end.

Definition is_field_deletion (c : Call) : bool :=
  match c with
  | DeleteField_management _ _ => true
  | _ => false
  end.

Definition is_versioning (c : Call) : bool :=
  match c with
  | RegisterAsVersioned_management _ _ => true
  | _ => false
  end.

(** The import calls of a trace: workspace, file and import type. *)
Definition import_call (c : Call) : option (string * string * string) :=
  match c with
  | ImportXMLWorkspaceDocument_management workspace path importType =>
      Some (workspace, path, importType)
  | _ => None
  end.

(** The computation [m] makes the import calls [expected], in this order,
    and no other: all of them when it returns, the first ones when it
    raises. *)
Definition imports_as {X} (expected : list (string * string * string)) (m : M X) : Prop :=
  ∀ w, ∃ cs,
    trace (m w).1 = trace w ++ cs
    ∧ omap import_call cs `prefix_of` expected
    ∧ ∀ a, (m w).2 = inr a → omap import_call cs = expected.

(** The deletions of items of a trace. *)
Definition deleted_item (c : Call) : option string :=
  match c with
  | Delete_management item => Some item
  | _ => None
  end.

(** The progress labels of a trace. *)
Definition progress_label (c : Call) : option string :=
  match c with
  | SetProgressorLabel label => Some label
  | _ => None
  end.

(** The domain names a workspace document declares, in document order:
    the [DomainName] of the [Domain] children of
    [WorkspaceDefinition/Domains]; a domain without a name declares none. *)
Definition declared_domains (doc : Element) : list string :=
  match find "WorkspaceDefinition" doc with
  | Some definition =>
      match find "Domains" definition with
      | Some domains =>
          omap (λ domain, getXmlProperty (Some domain) "DomainName")
               (findall "Domain" domains)
      | None => []
      end
  | None => []
  end.

(** The element [y] is [x] but for its children: the same object with
    the same tag, attributes, text and tail. *)
Definition same_node (x y : Element) : Prop := with_children y [] = with_children x [].


(** The fields of the engineering network on the event tables. *)
Definition engineering_fields : list string :=
  ["ENGROUTEID"; "ENGROUTENAME"; "ENGTOROUTEID"; "ENGTOROUTENAME";
   "ENGFROMM"; "ENGTOM"; "ENGM"].

(** A call that deletes only an engineering field, and puts an index on
    none. *)
Definition engineering_fields_go (c : Call) : Prop :=
  match c with
  | DeleteField_management _ field => field ∈ engineering_fields
  | AddIndex_management _ fields _ _ _ =>
      Forall (λ field, field ∉ engineering_fields) fields
  | _ => True
  end.

(** What [updateMetadata] makes of an element [x] of a metadata
    document, [y]: the units number, the time zone offset and the time
    zone in the text of the elements with these tags, the time zone as
    attributes of the event tables, and all else as it was. *)
Definition metadata_updated (number : Z) (x y : Element) : Prop :=
  oid y = oid x ∧ tag y = tag x ∧ tail y = tail x
  ∧ text y = (if decide (tag x = "TimeZoneId") then Some "UTC"
              else if decide (tag x = "TimeZoneOffset") then Some "0"
              else if decide (tag x = "UnitsOfMeasure") then Some (PyStr.str_int number)
              else text x)
  ∧ attrib y = (if decide (tag x = "EventTable")
                then <["TimeZoneId" := "UTC"]> (<["TimeZoneOffset" := "0"]> (attrib x))
                else attrib x).

End Spec.

(** ** A small installation, for the examples *)

Module Example.

Import ET Py CreateUPDM.

Definition node (o : nat) (t : string) (a : list (string * string)) (cs : list Element)
    : Element :=
  Elem o t (list_to_map a) None None cs.

Definition leaf (o : nat) (t : string) (s : string) : Element :=
  Elem o t ∅ (Some s) None [].

Definition spatialReference : SpatialReference :=
  {| XYTolerance := Q2Qc (1 # 1000); ZTolerance := Q2Qc (1 # 1000);
     metersPerUnit := Some (Q2Qc 1); type := "Projected" |}.

(** Everything but the path and the spatial reference left to the
    defaults. *)
Definition params : Params :=
  {| outputGDBParam := "C:/data/updm.gdb";
     spatialReferenceParam := Some spatialReference;
     mUnitsParam := None;
     xyToleranceParam := None;
     zToleranceParam := None;
     eventRegistrationNetworkParam := "";
     registerPipeSystemParam := None |}.

Definition with_xyTolerance (v : option Qc) (P : Params) : Params :=
  {| outputGDBParam := outputGDBParam P;
     spatialReferenceParam := spatialReferenceParam P;
     mUnitsParam := mUnitsParam P;
     xyToleranceParam := v;
     zToleranceParam := zToleranceParam P;
     eventRegistrationNetworkParam := eventRegistrationNetworkParam P;
     registerPipeSystemParam := registerPipeSystemParam P |}.

Definition with_mUnits (v : option string) (P : Params) : Params :=
  {| outputGDBParam := outputGDBParam P;
     spatialReferenceParam := spatialReferenceParam P;
     mUnitsParam := v;
     xyToleranceParam := xyToleranceParam P;
     zToleranceParam := zToleranceParam P;
     eventRegistrationNetworkParam := eventRegistrationNetworkParam P;
     registerPipeSystemParam := registerPipeSystemParam P |}.

(** A pipeline schema with two tables and two spatial references. *)
Definition updm : Element :=
  node 0 "Workspace" []
    [ node 1 "WorkspaceDefinition" []
        [ node 2 "Domains" [] [ node 3 "Domain" [] [ leaf 4 "DomainName" "dMaterial" ] ];
          node 5 "DatasetDefinitions" []
            [ node 6 "DataElement" []
                [ leaf 7 "Name" "P_Pipes";
                  node 8 "SpatialReference" [] [ leaf 9 "WKT" "old" ];
                  leaf 10 "ShapeType" "esriGeometryPolyline" ];
              node 11 "DataElement" []
                [ leaf 12 "Name" "P_Valve";
                  node 13 "Extent" [] [ node 14 "SpatialReference" [] [] ] ] ] ] ].

(** An LRS schema with its metadata table. *)
Definition lrs : Element :=
  node 20 "Workspace" []
    [ node 21 "WorkspaceDefinition" []
        [ node 22 "Domains" [] [ node 23 "Domain" [] [ leaf 24 "DomainName" "dLRSNetworks" ] ];
          node 25 "DatasetDefinitions" []
            [ node 26 "DataElement" [] [ leaf 27 "Name" "Lrs_Metadata" ] ] ] ].

(** A metadata document of the shape of the shipped one: the continuous
    network with an empty event table list, the engineering network with
    a point event and a line event. *)
Definition metadata : Element :=
  node 30 "Lrs" []
    [ node 31 "Networks" []
        [ node 32 "Network" [("NetworkId", "1"); ("Name", "P_ContinuousNetwork");
                             ("IsDerived", "false"); ("DerivedFromNetwork", "-1")]
            [ node 33 "RouteFieldNames" [] [];
              node 34 "EventTables" [] [];
              leaf 35 "UnitsOfMeasure" "3" ];
          node 36 "Network" [("NetworkId", "2"); ("Name", "P_EngineeringNetwork")]
            [ node 37 "RouteFieldNames" [] [];
              node 38 "EventTables" []
                [ node 39 "EventTable"
                    [("Name", "P_Anomaly"); ("IsPointEvent", "true");
                     ("RouteIdFieldName", "ENGROUTEID"); ("ToRouteIdFieldName", "");
                     ("FromMeasureFieldName", "ENGM"); ("DerivedToMeasureFieldName", "")] [];
                  node 40 "EventTable"
                    [("Name", "P_CenterlineAccuracy"); ("IsPointEvent", "false");
                     ("RouteIdFieldName", "ENGROUTEID"); ("ToRouteIdFieldName", "ENGTOROUTEID");
                     ("FromMeasureFieldName", "ENGFROMM"); ("ToMeasureFieldName", "ENGTOM")] [] ];
              leaf 41 "UnitsOfMeasure" "3" ] ];
      node 42 "FieldNames" [] [] ].

(** A metadata document in which the continuous network has an event
    table of its own, and the engineering network a second list of event
    tables. *)
Definition metadata_with_more_events : Element :=
  node 80 "Lrs" []
    [ node 81 "Networks" []
        [ node 82 "Network" [("NetworkId", "1"); ("Name", "P_ContinuousNetwork")]
            [ node 83 "RouteFieldNames" [] [];
              node 84 "EventTables" []
                [ node 85 "EventTable"
                    [("Name", "P_Crossing"); ("IsPointEvent", "false");
                     ("ToRouteIdFieldName", "CONTINTOROUTEID")] [] ] ];
          node 86 "Network" [("NetworkId", "2"); ("Name", "P_EngineeringNetwork")]
            [ node 87 "RouteFieldNames" [] [];
              node 88 "EventTables" []
                [ node 89 "EventTable"
                    [("Name", "P_Anomaly"); ("IsPointEvent", "true");
                     ("ToRouteIdFieldName", "")] [] ];
              node 90 "EventTables" []
                [ node 91 "EventTable"
                    [("Name", "P_Casing"); ("IsPointEvent", "false")] [] ] ] ] ].

(** A pipeline schema with a feature dataset that holds a feature class. *)
Definition updm_with_feature_dataset : Element :=
  node 70 "Workspace" []
    [ node 71 "WorkspaceDefinition" []
        [ node 72 "Domains" [] [];
          node 73 "DatasetDefinitions" []
            [ node 74 "DataElement" []
                [ leaf 75 "Name" "P_Transmission";
                  node 76 "Children" []
                    [ node 77 "DataElement" [] [ leaf 78 "Name" "P_Pipes" ] ] ] ] ] ].

(** A document with a spatial reference below another one. *)
Definition nested : Element :=
  node 60 "Workspace" []
    [ node 61 "SpatialReference" []
        [ node 62 "Extent" [] [ node 63 "SpatialReference" [] [] ] ];
      node 64 "DataElement" []
        [ leaf 65 "Name" "P_Pipes"; node 66 "SpatialReference" [] [] ] ].

(** The fragment that takes the place of the spatial references. *)
Definition fragment : Element :=
  node 51 "SpatialReference" []
    [ leaf 52 "WKT" "new"; leaf 53 "XYTolerance" "0.001"; leaf 54 "XYScale" "10000" ].

(** The document the platform exports for the scratch feature class. *)
Definition exported : Element :=
  node 50 "Workspace" []
    [ node 51 "SpatialReference" []
        [ leaf 52 "WKT" "new"; leaf 53 "XYTolerance" "0"; leaf 54 "XYScale" "0" ] ].

(** A file geodatabase in which [existing] names are taken and overwriting
    is set as given; no platform call fails. *)
Definition platform (existing : list string) (overwrite : bool) : Platform :=
  {| Exists := λ path, bool_decide (path ∈ existing);
     ListDomains := λ _, [];
     overwriteOutput := overwrite;
     fails := λ _, false;
     CreateScratchName := λ name workspace, workspace +:+ "/" +:+ name;
     scratchFolder := "C:/scratch";
     scratchGDB := "C:/scratch/scratch.gdb";
     GetMessages := "Succeeded";
     workspaceType := λ _, "LocalDatabase";
     exported_document := λ _, exported;
     fromstring := λ s, if decide (s = "updm") then Some updm
                        else if decide (s = "lrs") then Some lrs else None;
     imported_Lrs_Metadata := λ _, [metadata];
     imported_Lrs_Event_Behavior := λ _, [2%Z; 2%Z];
     os_path_join := λ a b, a +:+ "/" +:+ b;
     os_path_split := λ p, (p, "");
     str_float := λ q, pretty (Qnum (this q)) +:+ "/" +:+ pretty (Zpos (Qden (this q))) |}.

(** The same geodatabase with the domains [domains] in it. *)
Definition platform_with_domains (domains : list string) : Platform :=
  {| Exists := λ _, false;
     ListDomains := λ _, domains;
     overwriteOutput := false;
     fails := λ _, false;
     CreateScratchName := λ name workspace, workspace +:+ "/" +:+ name;
     scratchFolder := "C:/scratch";
     scratchGDB := "C:/scratch/scratch.gdb";
     GetMessages := "Succeeded";
     workspaceType := λ _, "LocalDatabase";
     exported_document := λ _, exported;
     fromstring := λ _, None;
     imported_Lrs_Metadata := λ _, [];
     imported_Lrs_Event_Behavior := λ _, [];
     os_path_join := λ a b, a +:+ "/" +:+ b;
     os_path_split := λ p, (p, "");
     str_float := λ q, pretty (Qnum (this q)) +:+ "/" +:+ pretty (Zpos (Qden (this q))) |}.

(** A geodatabase in which the deletion of the items [locked] fails. *)
Definition platform_with_locks (locked : list string) : Platform :=
  {| Exists := λ _, true;
     ListDomains := λ _, [];
     overwriteOutput := true;
     fails := λ c, match c with
                   | Delete_management item => bool_decide (item ∈ locked)
                   | _ => false
                   end;
     CreateScratchName := λ name workspace, workspace +:+ "/" +:+ name;
     scratchFolder := "C:/scratch";
     scratchGDB := "C:/scratch/scratch.gdb";
     GetMessages := "Succeeded";
     workspaceType := λ _, "LocalDatabase";
     exported_document := λ _, exported;
     fromstring := λ _, None;
     imported_Lrs_Metadata := λ _, [];
     imported_Lrs_Event_Behavior := λ _, [];
     os_path_join := λ a b, a +:+ "/" +:+ b;
     os_path_split := λ p, (p, "");
     str_float := λ q, pretty (Qnum (this q)) +:+ "/" +:+ pretty (Zpos (Qden (this q))) |}.

End Example.

(** * Properties *)

Module Facts.

Import ET Py CreateUPDM Spec.

(** ** The trace *)

Lemma logged_nil w : logged w [] = w.
Proof. destruct w. unfold logged. simpl. by rewrite app_nil_r. Qed.

Lemma logged_logged w cs ds : logged (logged w cs) ds = logged w (cs ++ ds).
Proof. unfold logged. simpl. by rewrite app_assoc. Qed.

(** ** Unit conversion *)

Lemma unitsConversions_lookup k v :
  unitsConversions_dict !! k = Some v → (k, v) ∈ unitsConversions.
Proof. apply elem_of_list_to_map_2. Qed.

Lemma Qc_nonzero (q : Q) : Qnum (Qred q) ≠ 0%Z → Q2Qc q ≠ 0%Qc.
Proof.
  intros Hn H. apply (f_equal this) in H. simpl in H.
  rewrite H in Hn. by apply Hn.
Qed.

(** The keys of the table are lower case and no factor is zero. *)
Lemma unitsConversions_sound k v :
  unitsConversions_dict !! k = Some v → PyStr.lower k = k ∧ v ≠ 0%Qc.
Proof.
  intros H%unitsConversions_lookup. unfold unitsConversions in H.
  repeat (apply elem_of_cons in H as [H|H];
          [ injection H as -> ->; split; [reflexivity | by apply Qc_nonzero] | ]).
  by apply elem_of_nil in H.
Qed.

(** The table has eleven entries, with eleven different keys. *)
Lemma unitsConversions_size : size unitsConversions_dict = 11.
Proof. by vm_compute. Qed.

Lemma there_and_back (x y d : Qc) : x ≠ 0%Qc → y ≠ 0%Qc → (x / y * (y / x * d))%Qc = d.
Proof. intros. field. auto. Qed.

Lemma convertUnits_known d t f uf ut w :
  unitsConversions_dict !! f = Some uf → unitsConversions_dict !! t = Some ut →
  convertUnits d (Some t) (Some f) w =
    (w, inr (Some (if decide (f = t) then d else (ut / uf * d)%Qc))).
Proof.
  intros Hf Ht.
  destruct (unitsConversions_sound _ _ Hf) as [Lf _].
  destruct (unitsConversions_sound _ _ Ht) as [Lt _].
  unfold convertUnits, try_except. simpl. rewrite Lf, Lt.
  destruct (decide (f = t)); [done|]. by rewrite Hf, Ht.
Qed.

(** C4.  For any two keys [a] and [b] of the units-per-meter table of
    [convertUnits] and any distance [d] (zero or not), converting [d] from
    [a] to [b] and the result back from [b] to [a] returns, without an
    error or a message, exactly [d]; the factors are exact rationals. *)
Theorem convertUnits_round_trip (a b : string) (d : Qc) (w : World) :
  a ∈ dom unitsConversions_dict → b ∈ dom unitsConversions_dict →
  ∃ d', convertUnits d (Some b) (Some a) w = (w, inr (Some d')) ∧
        convertUnits d' (Some a) (Some b) w = (w, inr (Some d)).
Proof.
  intros [ua Ha]%elem_of_dom [ub Hb]%elem_of_dom.
  destruct (unitsConversions_sound _ _ Ha) as [_ Na].
  destruct (unitsConversions_sound _ _ Hb) as [_ Nb].
  eexists. split; [by apply convertUnits_known|].
  rewrite (convertUnits_known _ _ _ _ _ _ Hb Ha). do 3 f_equal.
  destruct (decide (a = b)) as [->|Hne].
  - by rewrite decide_True.
  - rewrite decide_False by congruence. by apply there_and_back.
Qed.

Lemma convertUnits_round_trip_witness :
  ∃ d', convertUnits (Q2Qc (5 # 2)) (Some "feet") (Some "nautical miles") initial
          = (initial, inr (Some d')) ∧
        convertUnits d' (Some "nautical miles") (Some "feet") initial
          = (initial, inr (Some (Q2Qc (5 # 2)))).
Proof.
  apply (convertUnits_round_trip "nautical miles" "feet" (Q2Qc (5 # 2)) initial);
    apply elem_of_dom; eexists; by vm_compute.
Defined.

(** C9, as stated, fails: a name that is no key of the table is accepted
    when source and target are the same name, and the distance comes back
    with no error and nothing logged. *)
Lemma convertUnits_same_unknown_units_returns :
  ¬ (∀ (d : Qc) (toUnits fromUnits : string) (w : World),
       unitsConversions_dict !! fromUnits = None ∨ unitsConversions_dict !! toUnits = None →
       ∃ w', convertUnits d (Some toUnits) (Some fromUnits) w
               = (w', inl (ExecuteError cannot_calculate))).
Proof.
  intros H.
  destruct (H (Q2Qc 1) "furlongs" "furlongs" initial) as [w' Hw'].
  { left. by vm_compute. }
  vm_compute in Hw'. discriminate Hw'.
Qed.

(** C9, amended.  For unit names in ASCII: when the two names differ
    after lower-casing and at least one of the lower-cased names is no key
    of the table, [convertUnits] returns no value: it logs the names, logs
    the fixed message and raises the execution error with the fixed
    message. *)
Theorem convertUnits_missing_entry (d : Qc) (toUnits fromUnits : string) (w : World) :
  PyStr.is_ascii fromUnits = true →
  PyStr.is_ascii toUnits = true →
  PyStr.lower fromUnits ≠ PyStr.lower toUnits →
  unitsConversions_dict !! PyStr.lower fromUnits = None
    ∨ unitsConversions_dict !! PyStr.lower toUnits = None →
  convertUnits d (Some toUnits) (Some fromUnits) w =
    (logged w [ AddError ("Cannot convert from " +:+ PyStr.lower fromUnits
                          +:+ " to " +:+ PyStr.lower toUnits);
                AddError cannot_calculate ],
     inl (ExecuteError cannot_calculate)).
Proof.
  intros _ _ Hne Hmiss. unfold convertUnits, try_except. simpl.
  rewrite decide_False by done.
  destruct (unitsConversions_dict !! PyStr.lower fromUnits) as [uf|];
    destruct (unitsConversions_dict !! PyStr.lower toUnits) as [ut|];
    try (destruct Hmiss; discriminate);
    unfold bind, logError, emit, raise, bind; simpl; by rewrite logged_logged.
Qed.

Lemma convertUnits_missing_entry_witness :
  convertUnits (Q2Qc 3) (Some "Furlongs") (Some "Meters") initial =
    (logged initial [ AddError "Cannot convert from meters to furlongs";
                      AddError cannot_calculate ],
     inl (ExecuteError cannot_calculate)).
Proof.
  apply (convertUnits_missing_entry (Q2Qc 3) "Furlongs" "Meters" initial).
  - reflexivity.
  - reflexivity.
  - by vm_compute.
  - right. by vm_compute.
Defined.

(** ** Parameter accessors and validation *)

Lemma getXYToleranceParam_value P sr w :
  spatialReferenceParam P = Some sr →
  getXYToleranceParam P w
    = (w, inr (effective_tolerance (xyToleranceParam P) (XYTolerance sr))).
Proof.
  intros H. unfold getXYToleranceParam, effective_tolerance, getSpatialReferenceParam.
  rewrite H. destruct (xyToleranceParam P) as [v|]; [destruct (decide (v = 0%Qc))|]; done.
Qed.

Lemma getZToleranceParam_value P sr w :
  spatialReferenceParam P = Some sr →
  getZToleranceParam P w
    = (w, inr (effective_tolerance (zToleranceParam P) (ZTolerance sr))).
Proof.
  intros H. unfold getZToleranceParam, effective_tolerance, getSpatialReferenceParam.
  rewrite H. destruct (zToleranceParam P) as [v|]; [destruct (decide (v = 0%Qc))|]; done.
Qed.

Lemma getMUnitsParamAsText_nonempty P : getMUnitsParamAsText P ≠ "".
Proof. unfold getMUnitsParamAsText. by case_decide. Qed.

Lemma getEventRegistrationNetworkParamAsText_nonempty P :
  getEventRegistrationNetworkParamAsText P ≠ "".
Proof. unfold getEventRegistrationNetworkParamAsText. by case_decide. Qed.

(** [validateInput] raises its first complaint, logged once, or passes
    without a trace. *)
Lemma validateInput_outcome P w :
  validateInput P w =
    match first_complaint P with
    | Some m => (logged w [AddError m], inl (ExecuteError m))
    | None => (w, inr tt)
    end.
Proof.
  unfold validateInput, first_complaint, getOutputGDBParamAsText, getSpatialReferenceParam.
  destruct (decide (outputGDBParam P = "")) as [?|?]; [done|].
  destruct (spatialReferenceParam P) as [sr|] eqn:Hsr; [|done].
  rewrite (decide_False (P := Some sr = None)) by done.
  rewrite (decide_False (P := getMUnitsParamAsText P = ""))
    by apply getMUnitsParamAsText_nonempty.
  unfold bind at 1 2 3. simpl. unfold bind at 1.
  rewrite (getXYToleranceParam_value _ _ _ Hsr).
  case_decide; [done|]. unfold bind at 1. simpl. unfold bind at 1.
  rewrite (getZToleranceParam_value _ _ _ Hsr).
  case_decide; [done|]. unfold bind at 1. simpl.
  rewrite (decide_False (P := getEventRegistrationNetworkParamAsText P = ""))
    by apply getEventRegistrationNetworkParamAsText_nonempty.
  case_decide; done.
Qed.

(** A run whose validation raises does nothing else: two blank messages,
    the progress label and the error. *)
Lemma start_rejected P A updmXmlString lrsXmlString w m :
  first_complaint P = Some m →
  start P A updmXmlString lrsXmlString w = (logged w (rejected_run m), inl (ExecuteError m)).
Proof.
  intros Hm. unfold start, try_finally, log, setProgressor, bind, emit, ret. simpl.
  rewrite validateInput_outcome, Hm. simpl. by rewrite !logged_logged.
Qed.

Lemma rejected_run_no_import m : Forall (λ c, is_import c = false) (rejected_run m).
Proof. by repeat constructor. Qed.

(** C10.  The accessors put defaults in the place of absent or zero
    parameters before validation sees them: "FEET" for the measure unit,
    "ENGINEERING" for the event registration network, the spatial
    reference's own XY and Z tolerance for an absent or zero tolerance,
    [False] for the pipe system flag.  So, in every run with a spatial
    reference, whatever the other parameters are: [validateInput] never
    raises the message for a missing measure unit or a missing event
    registration network; when the XY tolerance is absent or zero and the
    spatial reference's own is positive, it does not raise the XY
    tolerance message, and likewise for Z; when the event registration
    network is absent it does not raise the message for an unknown one.
    And with an output path, [validateInput] passes without a trace
    whenever the tolerances the accessors yield are positive and the event
    registration network is absent or one of the two known ones. *)
Theorem accessor_defaults (P : Params) (sr : SpatialReference) (w : World) :
  spatialReferenceParam P = Some sr →
  (mUnitsParam P = None ∨ mUnitsParam P = Some "" →
     getMUnitsParam P = "FEET" ∧ getMUnitsParamAsText P = "FEET")
  ∧ (eventRegistrationNetworkParam P = "" →
       getEventRegistrationNetworkParamAsText P = "ENGINEERING")
  ∧ (xyToleranceParam P = None ∨ xyToleranceParam P = Some 0%Qc →
       getXYToleranceParam P w = (w, inr (XYTolerance sr)))
  ∧ (zToleranceParam P = None ∨ zToleranceParam P = Some 0%Qc →
       getZToleranceParam P w = (w, inr (ZTolerance sr)))
  ∧ (registerPipeSystemParam P = None → getRegisterPipeSystemParam P = false)
  ∧ (∀ w' e, validateInput P w = (w', inl e) →
       e ≠ ExecuteError "Please provide a Measure Unit."
       ∧ e ≠ ExecuteError "Please provide an Event Measure Storage."
       ∧ (xyToleranceParam P = None ∨ xyToleranceParam P = Some 0%Qc →
          (0 < XYTolerance sr)%Qc → e ≠ ExecuteError xy_message)
       ∧ (zToleranceParam P = None ∨ zToleranceParam P = Some 0%Qc →
          (0 < ZTolerance sr)%Qc → e ≠ ExecuteError z_message)
       ∧ (eventRegistrationNetworkParam P = "" → e ≠ ExecuteError network_message))
  ∧ (∀ xy z,
       outputGDBParam P ≠ "" →
       getXYToleranceParam P w = (w, inr xy) → (0 < xy)%Qc →
       getZToleranceParam P w = (w, inr z) → (0 < z)%Qc →
       eventRegistrationNetworkParam P ∈ [""; "ENGINEERING"; "CONTINUOUS"] →
       validateInput P w = (w, inr tt)).
Proof.
  intros Hsr.
  assert (∀ p own, p = None ∨ p = Some 0%Qc → effective_tolerance p own = own) as Heff.
  { intros p own [-> | ->]; [done|]. unfold effective_tolerance. by rewrite decide_True. }
  split_and!.
  - unfold getMUnitsParam, getMUnitsParamAsText. by intros [-> | ->].
  - unfold getEventRegistrationNetworkParamAsText. by intros ->.
  - intros H. by rewrite (getXYToleranceParam_value _ _ _ Hsr), Heff.
  - intros H. by rewrite (getZToleranceParam_value _ _ _ Hsr), Heff.
  - unfold getRegisterPipeSystemParam. by intros ->.
  - intros w' e. rewrite validateInput_outcome. unfold first_complaint. rewrite Hsr.
    case_decide as Hgdb; [intros [= <- <-]; split_and!; done|].
    case_decide as Hxy.
    { intros [= <- <-]. split_and!; try done.
      intros Hdef Hpos. rewrite Heff in Hxy by done. by apply Qclt_not_le in Hpos. }
    case_decide as Hz.
    { intros [= <- <-]. split_and!; try done.
      intros Hdef Hpos. rewrite Heff in Hz by done. by apply Qclt_not_le in Hpos. }
    case_decide as Hnet; [|done].
    intros [= <- <-]. split_and!; try done.
    intros Hdef. unfold getEventRegistrationNetworkParamAsText in Hnet.
    rewrite Hdef in Hnet. by vm_compute in Hnet.
  - intros xy z Hgdb Hxy Hpx Hz Hpz Hnet.
    rewrite (getXYToleranceParam_value _ _ _ Hsr) in Hxy. injection Hxy as <-.
    rewrite (getZToleranceParam_value _ _ _ Hsr) in Hz. injection Hz as <-.
    rewrite validateInput_outcome. unfold first_complaint.
    rewrite decide_False, Hsr by done.
    rewrite !decide_False; [done | | |].
    + unfold getEventRegistrationNetworkParamAsText.
      repeat (apply elem_of_cons in Hnet as [-> | Hnet]; [by vm_compute|]).
      by apply elem_of_nil in Hnet.
    + by apply Qclt_not_le.
    + by apply Qclt_not_le.
Qed.

Lemma accessor_defaults_witness :
  let P := Example.with_xyTolerance (Some (Q2Qc (1 # 100))) Example.params in
  getMUnitsParam P = "FEET"
  ∧ getEventRegistrationNetworkParamAsText P = "ENGINEERING"
  ∧ getZToleranceParam P initial = (initial, inr (Q2Qc (1 # 1000)))
  ∧ validateInput P initial = (initial, inr tt).
Proof.
  intros P.
  destruct (accessor_defaults (Example.with_xyTolerance (Some (Q2Qc (1 # 100))) Example.params)
              Example.spatialReference initial)
    as (Hu & He & _ & Hz & _ & _ & Hv); [done|].
  split_and!.
  - apply Hu. by left.
  - by apply He.
  - apply Hz. by left.
  - apply (Hv (Q2Qc (1 # 100)) (Q2Qc (1 # 1000)));
      [done | by vm_compute | by vm_compute | by vm_compute | by vm_compute
      | apply list_elem_of_here].
Defined.

(** C7, as stated, fails for a tolerance of 0: the accessor puts the
    spatial reference's own tolerance in its place, validation passes, and
    the run goes on to import. *)
Lemma zero_xy_tolerance_accepted :
  let P := Example.with_xyTolerance (Some 0%Qc) Example.params in
  let run := start P (Example.platform [] false) "updm" "lrs" initial in
  validateInput P initial = (initial, inr tt)
  ∧ run.2 = inr tt
  ∧ existsb is_import (trace run.1) = true.
Proof. split_and!; by vm_compute. Qed.

(** C7, amended.  When an output path and a spatial reference are given
    and the XY tolerance the accessor yields (the parameter, or the spatial
    reference's own XY tolerance when the parameter is absent or 0) is 0
    or negative, as it is for every negative parameter, [validateInput]
    logs and raises the execution error with the tolerance message, and
    the run ends with that error after logging only two blank messages,
    the progress label and the error: no import call is attempted. *)
Theorem nonpositive_xy_tolerance_rejected (P : Params) (A : Platform)
    (sr : SpatialReference) (v : Qc) (updmXmlString lrsXmlString : string) (w : World) :
  outputGDBParam P ≠ "" →
  spatialReferenceParam P = Some sr →
  getXYToleranceParam P w = (w, inr v) →
  (v <= 0)%Qc →
  validateInput P w = (logged w [AddError xy_message], inl (ExecuteError xy_message))
  ∧ start P A updmXmlString lrsXmlString w
      = (logged w (rejected_run xy_message), inl (ExecuteError xy_message))
  ∧ Forall (λ c, is_import c = false) (rejected_run xy_message).
Proof.
  intros Hgdb Hsr Hxy Hv.
  rewrite (getXYToleranceParam_value _ _ _ Hsr) in Hxy. injection Hxy as <-.
  assert (first_complaint P = Some xy_message) as Hm.
  { unfold first_complaint. by rewrite decide_False, Hsr, decide_True. }
  split_and!.
  - by rewrite validateInput_outcome, Hm.
  - by apply start_rejected.
  - apply rejected_run_no_import.
Qed.

Lemma nonpositive_xy_tolerance_rejected_witness :
  let P := Example.with_xyTolerance (Some (Q2Qc (-1 # 100))) Example.params in
  start P (Example.platform [] false) "updm" "lrs" initial
    = (logged initial (rejected_run xy_message), inl (ExecuteError xy_message)).
Proof.
  apply (nonpositive_xy_tolerance_rejected
           (Example.with_xyTolerance (Some (Q2Qc (-1 # 100))) Example.params)
           (Example.platform [] false) Example.spatialReference (Q2Qc (-1 # 100))
           "updm" "lrs" initial); by vm_compute.
Defined.

(** ** Index names *)

Lemma string_app_nil_inv (s t : string) : s = s +:+ t → t = "".
Proof.
  induction s as [|c s IH]; simpl; [done|]. intros [= H]. by apply IH.
Qed.

Lemma index_name_inj base : Inj (=) (=) (index_name base).
Proof.
  intros [|j] [|k]; simpl; [done | | | ].
  - by intros H%string_app_nil_inv.
  - intros H. symmetry in H. by apply string_app_nil_inv in H.
  - intros H. do 2 apply (inj (String.append _)) in H.
    apply (inj pretty) in H. lia.
Qed.

Lemma index_name_step base k :
  base +:+ "_" +:+ PyStr.str_int (Z.of_nat k + 1 + 1) = index_name base (S k).
Proof.
  unfold index_name. by replace (Z.of_nat (S k) + 1)%Z with (Z.of_nat k + 1 + 1)%Z by lia.
Qed.

(** One turn: the progress label and the index call, then either the
    next state or the logged failure. *)
Lemma addIndex_turn_outcome P A base fields k c table w :
  let call := AddIndex_management (getFullTableName P A table) fields (index_name base k)
                "NON_UNIQUE" "ASCENDING" in
  ∃ label c',
    addIndex_turn P A base fields (Z.of_nat k + 1, index_name base k, c)%Z table w =
      if fails A call
      then (logged w [SetProgressorLabel label; call;
                      AddError ("Couldn't add index " +:+ index_name base k
                                +:+ " to " +:+ table)],
            inl (CallFailed call))
      else (logged w [SetProgressorLabel label; call],
            inr (Z.of_nat (S k) + 1, index_name base (S k), c')%Z).
Proof.
  intros call. do 2 eexists.
  rewrite <- index_name_step.
  replace (Z.of_nat (S k) + 1)%Z with (Z.of_nat k + 1 + 1)%Z by lia.
  unfold addIndex_turn, try_except, setProgressor_counting, setProgressor, arcpy,
    logError, bind, emit, ret, raise, some. simpl. fold call.
  destruct (fails A call); simpl.
  - by rewrite !logged_logged.
  - by rewrite !logged_logged.
Qed.

(** The loop of [addIndex] from table number [k] on: the index calls it
    issues are a prefix of the expected ones; it returns when no call
    fails, and then it has issued all of them. *)
Lemma addIndex_loop P A base fields tables : ∀ k c w,
  let expected :=
    zip_with (λ table name, (getFullTableName P A table, fields, name))
             tables (index_name base <$> seq k (length tables)) in
  let run := fold_each tables (addIndex_turn P A base fields)
               (Z.of_nat k + 1, index_name base k, c)%Z w in
  ∃ cs n,
    run.1 = logged w cs
    ∧ omap index_call cs = take n expected
    ∧ (∀ s, run.2 = inr s → omap index_call cs = expected)
    ∧ ((∀ call, fails A call = false) → ∃ s, run.2 = inr s).
Proof.
  induction tables as [|table tables IH]; intros k c w.
  { exists [], 0. cbn. rewrite logged_nil. eauto. }
  cbn [length seq fmap list_fmap zip_with].
  destruct (addIndex_turn_outcome P A base fields k c table w) as (label & c' & Hturn).
  change (fold_each (table :: tables) ?body ?s0 w)
    with (match body s0 table w with
          | (w', inr a) => fold_each tables body a w'
          | (w', inl e) => (w', inl e)
          end).
  rewrite Hturn.
  destruct (fails A _) eqn:Hfails.
  - eexists _, 1. cbn [fst snd take]. split_and!; [done | done | done |].
    intros Hno. by rewrite Hno in Hfails.
  - destruct (IH (S k) c' (logged w [SetProgressorLabel label;
        AddIndex_management (getFullTableName P A table) fields (index_name base k)
          "NON_UNIQUE" "ASCENDING"])) as (cs & n & H1 & H2 & H3 & H4).
    eexists (_ :: _ :: cs), (S n). split_and!.
    + rewrite H1. by rewrite logged_logged.
    + cbn [omap list_omap index_call take]. by rewrite H2.
    + intros s Hs. cbn [omap list_omap index_call]. by rewrite (H3 s Hs).
    + done.
Qed.

(** C5.  For an index specification with base name [base] over a list of
    K tables, the names are [base] for the first table and [base_2],
    [base_3], ..., [base_K] for the next ones, no two of them equal;
    [addIndex] issues the index creation calls in the order of the table
    list, each with the name of its place.  The calls issued are always a
    prefix of that sequence; when [addIndex] returns they are the whole
    sequence, and it returns whenever no platform call fails. *)
Theorem addIndex_names (P : Params) (A : Platform) (base : string) (fields tables : list string)
    (counter : Counter) (w : World) :
  let names := index_name base <$> seq 0 (length tables) in
  let expected :=
    zip_with (λ table name, (getFullTableName P A table, fields, name)) tables names in
  let run := addIndex P A base fields tables counter w in
  (index_name base 0 = base
   ∧ ∀ k, index_name base (S k) = base +:+ "_" +:+ PyStr.str_int (Z.of_nat k + 2))
  ∧ NoDup names
  ∧ ∃ cs n,
      run.1 = logged w cs
      ∧ omap index_call cs = take n expected
      ∧ (∀ c, run.2 = inr c → omap index_call cs = expected)
      ∧ ((∀ call, fails A call = false) → ∃ c, run.2 = inr c).
Proof.
  intros names expected run. split_and!.
  - done.
  - intros k. unfold index_name. by replace (Z.of_nat (S k) + 1)%Z with (Z.of_nat k + 2)%Z by lia.
  - apply NoDup_fmap_2; [apply index_name_inj | apply NoDup_seq].
  - destruct (addIndex_loop P A base fields tables 0 counter w) as (cs & n & H1 & H2 & H3 & H4).
    exists cs, n. subst run. unfold addIndex, bind.
    change (Z.of_nat 0 + 1)%Z with 1%Z in *. change (index_name base 0) with base in *.
    destruct (fold_each _ _ _ w) as [w' [e|s]]; cbn [fst snd] in *.
    + split_and!; [done | done | done |]. intros Hno. by destruct (H4 Hno).
    + split_and!; [done | done | | by eauto]. intros _ _. by apply (H3 s).
Qed.

(** The names and calls for three tables. *)
Example addIndex_three_tables :
  omap index_call
    (trace (addIndex Example.params (Example.platform [] false) "ix_ROUTEID" ["ROUTEID"]
              ["P_CalibrationPoint"; "P_Centerline_Sequence"; "P_Redline"]
              {| count := 0; total := 3 |} initial).1)
  = [ ("C:/data/updm.gdb/P_CalibrationPoint", ["ROUTEID"], "ix_ROUTEID");
      ("C:/data/updm.gdb/P_Centerline_Sequence", ["ROUTEID"], "ix_ROUTEID_2");
      ("C:/data/updm.gdb/P_Redline", ["ROUTEID"], "ix_ROUTEID_3") ].
Proof. by vm_compute. Qed.

(** ** The pre-flight name check *)

Lemma string_app_assoc (a b c : string) : (a +:+ b) +:+ c = a +:+ b +:+ c.
Proof.
  induction a as [|x a IH]; [reflexivity|].
  change (String x ((a +:+ b) +:+ c) = String x (a +:+ b +:+ c)). by f_equal.
Qed.

Lemma string_app_nil_r (a : string) : a +:+ "" = a.
Proof.
  induction a as [|x a IH]; [reflexivity|].
  change (String x (a +:+ "") = String x a). by f_equal.
Qed.

Lemma mentions_refl x : mentions x x.
Proof. exists "", "". by rewrite string_app_nil_r. Qed.

Lemma mentions_app_l s t x : mentions s x → mentions (s +:+ t) x.
Proof.
  intros (a & b & ->). exists a, (b +:+ t). by rewrite !string_app_assoc.
Qed.

Lemma mentions_app_r s t x : mentions t x → mentions (s +:+ t) x.
Proof.
  intros (a & b & ->). exists (s +:+ a), b. by rewrite !string_app_assoc.
Qed.

(** A joined list contains each of its items. *)
Lemma join_mentions sep items x : x ∈ items → mentions (PyStr.join sep items) x.
Proof.
  induction items as [|y [|z items] IH]; intros Hx.
  - by apply elem_of_nil in Hx.
  - apply list_elem_of_singleton in Hx as ->. apply mentions_refl.
  - apply elem_of_cons in Hx as [->|Hx].
    + apply mentions_app_l, mentions_refl.
    + change (mentions (y +:+ sep +:+ PyStr.join sep (z :: items)) x).
      by apply mentions_app_r, mentions_app_r, IH.
Qed.

Lemma checkDataElements_filter P A dataElements :
  Forall (λ dataElement, is_Some (getXmlProperty (Some dataElement) "Name")) dataElements →
  checkDataElements P A dataElements
    = inr (filter (λ name, Exists A (getFullTableName P A name) = true)
                  (omap (λ dataElement, getXmlProperty (Some dataElement) "Name")
                        dataElements)).
Proof.
  induction 1 as [|dataElement rest [name Hname] _ IH]; [done|].
  cbn [checkDataElements omap list_omap]. rewrite Hname, IH. cbn [need rbind].
  rewrite filter_cons. destruct (Exists A _); by case_decide.
Qed.

Lemma checkDatasetNames_one P A gdb doc rest :
  workspace_document doc →
  checkDatasetNames P A (doc :: rest) gdb =
    (more <-- checkDatasetNames P A rest gdb ;;
     inr (filter (λ name, Exists A (getFullTableName P A name) = true)
                 (scanned_datasets doc) ++ more)).
Proof.
  intros [(definition & Hdef & [definitions Hdefs]) Hnames].
  unfold scanned_datasets, dataset_elements in *.
  rewrite Hdef, Hdefs in Hnames.
  cbn [checkDatasetNames]. rewrite Hdef. cbn [need rbind]. rewrite Hdefs. cbn [need rbind].
  by rewrite checkDataElements_filter.
Qed.

(** C6, as stated, fails: the scan looks at the top-level dataset
    definitions only.  A feature class that is declared inside a feature
    dataset and exists in the geodatabase is not returned. *)
Lemma nested_dataset_missed :
  let A := Example.platform ["C:/data/updm.gdb/P_Pipes"] false in
  "P_Pipes" ∈ declared_datasets Example.updm_with_feature_dataset
  ∧ Exists A (getFullTableName Example.params A "P_Pipes") = true
  ∧ checkDatasetNames Example.params A [Example.updm_with_feature_dataset; Example.lrs]
      "C:/data/updm.gdb" = inr [].
Proof.
  split_and!; [|by vm_compute|by vm_compute].
  apply (list_elem_of_lookup_2 _ 1). by vm_compute.
Qed.

(** C6, amended.  For two workspace documents and any state of the
    geodatabase, [checkDatasetNames] returns the existing names among
    those of the top-level dataset definitions (the [DataElement] children
    of [WorkspaceDefinition/DatasetDefinitions]), in document order and no
    others: a name is returned exactly when it is the name of a top-level
    definition and exists, once for each such definition.  When no
    [DataElement] is anywhere else in the documents, these are the
    existing ones of all declared names.  When the returned list is not
    empty and the overwrite switch is off, [checkNames] logs one error and
    raises one execution error, whose message is the bracketed,
    comma-separated list of all conflicting datasets and domains; both
    texts contain every conflicting item. *)
Theorem conflict_detection (P : Params) (A : Platform) (updmXml lrsXml : Element)
    (workspace : string) (w : World) :
  workspace_document updmXml → workspace_document lrsXml →
  let exists_ name := Exists A (getFullTableName P A name) = true in
  let scanned := scanned_datasets updmXml ++ scanned_datasets lrsXml in
  let datasets := filter exists_ scanned in
  checkDatasetNames P A [updmXml; lrsXml] workspace = inr datasets
  ∧ (∀ name, name ∈ datasets ↔ name ∈ scanned ∧ exists_ name)
  ∧ (iter_tag "DataElement" updmXml = dataset_elements updmXml →
     iter_tag "DataElement" lrsXml = dataset_elements lrsXml →
     datasets = filter exists_ (declared_datasets updmXml ++ declared_datasets lrsXml))
  ∧ (∀ domains,
       checkDomainNames A [updmXml; lrsXml] workspace = inr domains →
       datasets ≠ [] → overwriteOutput A = false →
       ∃ message,
         let raised := "Some items already exist in the workspace." +:+ newline +:+ "["
                       +:+ PyStr.join ", " (datasets ++ domains) +:+ "]" in
         checkNames P A updmXml lrsXml workspace w
           = (logged w [AddMessage "Checking for existing items"; AddError message],
              inl (ExecuteError raised))
         ∧ ∀ item, item ∈ datasets ++ domains → mentions raised item ∧ mentions message item).
Proof.
  intros Hupdm Hlrs exists_ scanned datasets.
  assert (checkDatasetNames P A [updmXml; lrsXml] workspace = inr datasets) as Hsets.
  { rewrite checkDatasetNames_one by done. rewrite checkDatasetNames_one by done.
    cbn [checkDatasetNames rbind]. subst datasets scanned.
    by rewrite filter_app, app_nil_r. }
  split_and!; [done | | |].
  { intros name. subst datasets. rewrite list_elem_of_filter. tauto. }
  { intros Hu Hl. subst datasets scanned. unfold declared_datasets, scanned_datasets.
    by rewrite Hu, Hl. }
  intros domains Hdomains Hne Hoff.
  unfold checkNames, log, lift, logError, bind, emit, raise, ret.
  rewrite Hsets, Hdomains, Hoff. cbn [fst snd].
  assert (0 < length datasets) as Hlen by (destruct datasets; [done | simpl; lia]).
  rewrite (decide_True (P := 0 < length datasets ∨ 0 < length domains)) by auto.
  rewrite (decide_True (P := 0 < length datasets)) by done.
  eexists. split; [by rewrite logged_logged|].
  intros item Hitem. split.
  - do 3 apply mentions_app_r. by apply mentions_app_l, join_mentions.
  - apply elem_of_app in Hitem as [Hitem|Hitem].
    + case_decide.
      * apply mentions_app_l.
        case_decide; [apply mentions_app_l|];
          do 3 apply mentions_app_r; by apply join_mentions.
      * do 3 apply mentions_app_r. by apply join_mentions.
    + rewrite (decide_True (P := 0 < length domains))
        by (destruct domains; [by apply elem_of_nil in Hitem | simpl; lia]).
      do 3 apply mentions_app_r. by apply join_mentions.
Qed.

Lemma conflict_detection_witness :
  checkDatasetNames Example.params
    (Example.platform ["C:/data/updm.gdb/P_Valve"; "C:/data/updm.gdb/Lrs_Metadata"] false)
    [Example.updm; Example.lrs] "C:/data/updm.gdb"
  = inr ["P_Valve"; "Lrs_Metadata"].
Proof.
  destruct (conflict_detection Example.params
    (Example.platform ["C:/data/updm.gdb/P_Valve"; "C:/data/updm.gdb/Lrs_Metadata"] false)
    Example.updm Example.lrs "C:/data/updm.gdb" initial) as (H & _).
  - split; [eexists; split; [by vm_compute | by eexists] | ].
    repeat constructor; by eexists.
  - split; [eexists; split; [by vm_compute | by eexists] | ].
    repeat constructor; by eexists.
  - rewrite H. by vm_compute.
Defined.

(** ** Elements and their trees *)

Lemma filter_flat_map {X Y} (P : Y → Prop) `{!∀ y, Decision (P y)} (f : X → list Y) l :
  filter P (flat_map f l) = flat_map (λ x, filter P (f x)) l.
Proof. induction l as [|x l IH]; [done|]. simpl. by rewrite filter_app, IH. Qed.

Lemma iter_tag_unfold t e :
  iter_tag t e = (if decide (tag e = t) then [e] else []) ++ flat_map (iter_tag t) (children e).
Proof.
  unfold iter_tag. destruct e as [o tg a tx tl cs]. cbn [iter tag children].
  rewrite filter_cons, filter_flat_map. cbn [tag]. by case_decide.
Qed.

Lemma flat_map_delete {X Y} (f : X → list Y) l i x :
  l !! i = Some x →
  length (flat_map f l) = length (f x) + length (flat_map f (delete i l)).
Proof.
  revert i. induction l as [|y l IH]; intros [|i] Hi; try done; simpl in *.
  - injection Hi as ->. by rewrite length_app.
  - rewrite !length_app, (IH i Hi). lia.
Qed.

Lemma flat_map_nil_length {X Y} (f : X → list Y) l :
  length (flat_map f l) = 0 → Forall (λ x, f x = []) l.
Proof.
  induction l as [|y l IH]; simpl; [done|]. rewrite length_app. intros H.
  constructor; [apply nil_length_inv; lia | apply IH; lia].
Qed.

Lemma flat_map_nil {X Y} (f : X → list Y) l : Forall (λ x, f x = []) l → flat_map f l = [].
Proof. induction 1 as [|x l Hx _ IH]; [done|]. simpl. by rewrite Hx, IH. Qed.

(** The elements with tag [t] below a list of siblings are at least the
    siblings with that tag; when they are no more, the siblings with the
    tag have none below them and the other siblings have none at all. *)
Lemma flat_map_iter_tag_children t l :
  length (filter (λ c, tag c = t) l) ≤ length (flat_map (iter_tag t) l)
  ∧ (length (flat_map (iter_tag t) l) = length (filter (λ c, tag c = t) l) →
     Forall (λ c, iter_tag t c = if decide (tag c = t) then [c] else []) l).
Proof.
  induction l as [|c l [IH1 IH2]]; [done|].
  cbn [flat_map]. rewrite filter_cons, length_app.
  pose proof (iter_tag_unfold t c) as Hc.
  assert (length (iter_tag t c)
          = length (if decide (tag c = t) then [c] else [])
            + length (flat_map (iter_tag t) (children c))) as Hlen
    by (by rewrite Hc, length_app).
  destruct (decide (tag c = t)); cbn [length] in *; (split; [lia|]); intros H.
  - constructor; [|apply IH2; lia].
    rewrite Hc, decide_True by done.
    assert (flat_map (iter_tag t) (children c) = []) as ->; [|done].
    apply nil_length_inv. lia.
  - constructor; [|apply IH2; lia].
    rewrite Hc, decide_False by done.
    assert (flat_map (iter_tag t) (children c) = []) as ->; [|done].
    apply nil_length_inv. lia.
Qed.

Lemma iter_tag_nil_children t e c :
  iter_tag t e = [] → c ∈ children e → iter_tag t c = [].
Proof.
  rewrite iter_tag_unfold. intros [_ H]%app_eq_nil Hc.
  apply (f_equal length), flat_map_nil_length in H.
  by eapply (proj1 (Forall_forall _ _) H).
Qed.

Lemma iter_tag_nil_tag t e : iter_tag t e = [] → tag e ≠ t.
Proof. rewrite iter_tag_unfold. by case_decide. Qed.

(** A search for a child goes the same way when the children answer the
    test as before. *)
Lemma list_find_preserved {X} (P : X → Prop) `{!∀ x, Decision (P x)} l l' i x :
  Forall2 (λ a b, P a ↔ P b) l l' →
  list_find P l = Some (i, x) →
  ∃ x', l' !! i = Some x' ∧ list_find P l' = Some (i, x').
Proof.
  intros HF. revert i. induction HF as [|a b l l' Hab _ IH]; intros i; [done|].
  cbn [list_find]. destruct (decide (P a)) as [Ha|Ha].
  - intros [= <- <-]. exists b. by rewrite decide_True by tauto.
  - rewrite decide_False by tauto.
    destruct (list_find P l) as [[j y]|] eqn:Hfind; [|done].
    intros [= <- <-]. destruct (IH j eq_refl) as (x' & Hx' & ->). by exists x'.
Qed.

Lemma list_find_lookup {X} (P : X → Prop) `{!∀ x, Decision (P x)} l i x :
  list_find P l = Some (i, x) → l !! i = Some x ∧ P x.
Proof. intros Hfind%list_find_Some. tauto. Qed.

Lemma Forall2_insert_same {X} (R : X → X → Prop) l i x y :
  (∀ a, R a a) → l !! i = Some x → R x y → Forall2 R l (<[i := y]> l).
Proof.
  intros Hrefl. revert i. induction l as [|a l IH]; intros [|i] Hi Hxy; try done; simpl in *.
  - injection Hi as ->. constructor; [done|]. by apply Forall_Forall2_diag, Forall_true.
  - constructor; [done|]. by apply IH.
Qed.

Lemma flat_map_single {X Y} (f : X → list Y) l i y :
  l !! i = Some y →
  (∀ j x, j ≠ i → l !! j = Some x → f x = []) →
  flat_map f l = f y.
Proof.
  revert i. induction l as [|a l IH]; intros [|i] Hi Hothers; try done; simpl in *.
  - injection Hi as ->. rewrite flat_map_nil; [by rewrite app_nil_r|].
    apply Forall_lookup. intros j x Hj. by apply (Hothers (S j)).
  - rewrite (Hothers 0 a) by done. simpl. apply (IH i Hi).
    intros j x Hne Hj. apply (Hothers (S j)); [lia | done].
Qed.

Lemma delete_nil_others {X Y} (f : X → list Y) l i :
  length (flat_map f (delete i l)) = 0 →
  ∀ j x, j ≠ i → l !! j = Some x → f x = [].
Proof.
  intros H%flat_map_nil_length j x Hne Hj.
  rewrite Forall_lookup in H.
  destruct (decide (j < i)).
  - apply (H j). by rewrite list_lookup_delete_lt.
  - apply (H (pred j)). rewrite list_lookup_delete_ge by lia.
    by replace (S (pred j)) with j by lia.
Qed.

(** Going down to a child: the elements with tag [t] of [e] are [e]
    itself if it has the tag, those of the child, and those of the other
    children. *)
Lemma iter_tag_descend t e i c :
  children e !! i = Some c →
  length (iter_tag t e)
    = length (if decide (tag e = t) then [e] else [])
      + (length (iter_tag t c) + length (flat_map (iter_tag t) (delete i (children e)))).
Proof.
  intros Hc. by rewrite iter_tag_unfold, length_app, (flat_map_delete _ _ _ _ Hc).
Qed.

Lemma get_set key key' value e :
  get key (set key' value e) = if decide (key' = key) then Some value else get key e.
Proof. unfold get, set. cbn [attrib]. apply lookup_insert. Qed.

Lemma tag_set key value e : tag (set key value e) = tag e.
Proof. done. Qed.

Lemma children_set key value e : children (set key value e) = children e.
Proof. done. Qed.

(** A change of attributes leaves the tags in the tree as they are. *)
Lemma iter_tag_attributes t (f : Element → Element) e :
  tag (f e) = tag e → children (f e) = children e →
  iter_tag t e = (if decide (tag e = t) then [e] else []) →
  iter_tag t (f e) = (if decide (tag e = t) then [f e] else []).
Proof.
  intros Ht Hc. rewrite !iter_tag_unfold, Ht, Hc.
  case_decide; [intros [= ->]; done | by intros ->].
Qed.

Lemma flat_map_iter_tag_update t (f : Element → Element) l :
  (∀ c, tag (f c) = tag c ∧ children (f c) = children c) →
  Forall (λ c, iter_tag t c = if decide (tag c = t) then [c] else []) l →
  flat_map (iter_tag t) (map (λ c, if decide (tag c = t) then f c else c) l)
    = f <$> filter (λ c, tag c = t) l.
Proof.
  intros Hf. induction 1 as [|c l Hc _ IH]; [done|].
  cbn [map flat_map]. rewrite filter_cons, IH.
  pose proof (iter_tag_attributes t f c (proj1 (Hf c)) (proj2 (Hf c)) Hc) as Hfc.
  destruct (decide (tag c = t)) as [Ht|Ht].
  - by rewrite Hfc.
  - by rewrite Hc.
Qed.

Lemma setContinuous_eventTable_local c :
  tag (setContinuous_eventTable c) = tag c
  ∧ children (setContinuous_eventTable c) = children c.
Proof. unfold setContinuous_eventTable. by case_decide. Qed.

Lemma setDerived_eventTable_local c :
  tag (setDerived_eventTable c) = tag c
  ∧ children (setDerived_eventTable c) = children c.
Proof. unfold setDerived_eventTable. by case_decide. Qed.

Lemma setContinuous_eventTable_ToRouteId c :
  get "ToRouteIdFieldName" (setContinuous_eventTable c) = Some "".
Proof.
  unfold setContinuous_eventTable. case_decide; rewrite !get_set; by vm_compute.
Qed.

(** [updateContinuousMetadata] on a document of the shape of the LRS
    metadata: the event tables, rewritten, end up below the continuous
    network and nowhere else. *)
Lemma updateContinuousMetadata_row_moves m :
  events_registered_with_engineering m →
  ∃ m' continuous' engineering' engineering,
    network "P_EngineeringNetwork" m = Some engineering
    ∧ updateContinuousMetadata_row m = inr m'
    ∧ network "P_ContinuousNetwork" m' = Some continuous'
    ∧ network "P_EngineeringNetwork" m' = Some engineering'
    ∧ iter_tag "EventTable" continuous' = setContinuous_eventTable <$> event_tables engineering
    ∧ iter_tag "EventTable" engineering' = []
    ∧ is_Some (find "EventTables" engineering')
    ∧ iter_tag "EventTable" m' = setContinuous_eventTable <$> event_tables engineering.
Proof.
  intros [(cont & Hcont & Hempty) (stat & Hstat & Hevents & Hall)].
  unfold network, find, find_attr, event_tables in *.
  destruct (find_i "Networks" m) as [[iN networks]|] eqn:HN; [|done].
  cbn [fmap option_fmap option_map mbind option_bind snd] in Hcont, Hstat.
  destruct (find_attr_i "Network" "Name" "P_ContinuousNetwork" networks)
    as [[iC cont0]|] eqn:HC; [|done].
  destruct (find_attr_i "Network" "Name" "P_EngineeringNetwork" networks)
    as [[iS stat0]|] eqn:HS; [|done].
  cbn in Hcont, Hstat. injection Hcont as ->. injection Hstat as ->.
  unfold find in *.
  destruct (find_i "EventTables" cont) as [[iM emptyEvents]|] eqn:HM; [|by destruct Hempty].
  destruct (find_i "EventTables" stat) as [[iT events]|] eqn:HT; [|by destruct Hevents].
  cbn [fmap option_fmap option_map snd] in Hall.
  clear Hempty Hevents.
  pose proof (list_find_lookup _ _ _ _ HN) as [HNl HNt].
  pose proof (list_find_lookup _ _ _ _ HC) as [HCl HCt].
  pose proof (list_find_lookup _ _ _ _ HS) as [HSl HSt].
  pose proof (list_find_lookup _ _ _ _ HM) as [HMl HMt].
  pose proof (list_find_lookup _ _ _ _ HT) as [HTl HTt].
  set (events' := update_children "EventTable" setContinuous_eventTable events).
  set (cont' := insert 1 events' (remove_at iM cont)).
  set (stat' := insert 1 emptyEvents (remove_at iT stat)).
  set (networks' := set_child iS stat' (set_child iC cont' networks)).
  set (m' := set_child iN networks' m).
  assert (updateContinuousMetadata_row m = inr m') as Hrun.
  { unfold updateContinuousMetadata_row. rewrite HN. cbn [need rbind].
    rewrite HC, HS. cbn [need rbind]. by rewrite HM, HT. }
  (* every event table is below the engineering network's list *)
  pose proof (iter_tag_descend "EventTable" m iN networks HNl) as E1.
  pose proof (iter_tag_descend "EventTable" networks iS stat HSl) as E2.
  pose proof (iter_tag_descend "EventTable" stat iT events HTl) as E3.
  pose proof (f_equal length (iter_tag_unfold "EventTable" events)) as E4.
  rewrite length_app in E4.
  destruct (flat_map_iter_tag_children "EventTable" (children events)) as [E5 E6].
  apply (f_equal length) in Hall. unfold findall in Hall.
  assert (tag m ≠ "EventTable" ∧ tag networks ≠ "EventTable"
          ∧ tag stat ≠ "EventTable" ∧ tag events ≠ "EventTable") as (Tm & Tn & Ts & Te).
  { repeat case_decide; cbn [length] in *; split_and!; (done || lia). }
  rewrite decide_False in E1 by done. rewrite decide_False in E2 by done.
  rewrite decide_False in E3 by done. rewrite decide_False in E4 by done.
  cbn [length] in E1, E2, E3, E4.
  assert (Hfree_s := flat_map_nil_length (iter_tag "EventTable") (delete iT (children stat))
                       ltac:(lia)).
  assert (Hothers_m := delete_nil_others (iter_tag "EventTable") (children m) iN ltac:(lia)).
  assert (Hothers_n := delete_nil_others (iter_tag "EventTable") (children networks) iS ltac:(lia)).
  assert (Hothers_s := delete_nil_others (iter_tag "EventTable") (children stat) iT ltac:(lia)).
  assert (Hchildren := E6 ltac:(lia)).
  clear E1 E2 E3 E4 E5 E6 Hall.
  assert (iC ≠ iS) as Hne.
  { intros ->. rewrite HCl in HSl. injection HSl as ->.
    destruct HCt as [_ HCn], HSt as [_ HSn]. rewrite HCn in HSn. discriminate HSn. }
  assert (iter_tag "EventTable" cont = []) as Hfree_c by (by apply (Hothers_n iC)).
  assert (Forall (λ c, iter_tag "EventTable" c = []) (children cont)) as Hfree_cc.
  { apply Forall_forall. intros c Hc. by apply (iter_tag_nil_children _ cont). }
  assert (iter_tag "EventTable" events'
          = setContinuous_eventTable <$> findall "EventTable" events) as Hev.
  { rewrite iter_tag_unfold. change (tag events') with (tag events).
    rewrite decide_False by done. cbn [app]. subst events'. unfold update_children.
    cbn [children with_children].
    apply flat_map_iter_tag_update; [apply setContinuous_eventTable_local | done]. }
  assert (iter_tag "EventTable" cont' = iter_tag "EventTable" events') as Hc'.
  { rewrite (iter_tag_unfold _ cont'). change (tag cont') with (tag cont).
    rewrite decide_False by (by apply iter_tag_nil_tag). cbn [app].
    subst cont'. unfold insert, remove_at. cbn [children with_children].
    rewrite flat_map_app. cbn [flat_map].
    rewrite !flat_map_nil; [by rewrite app_nil_r | |].
    - by apply Forall_drop, Forall_delete.
    - by apply Forall_take, Forall_delete. }
  assert (iter_tag "EventTable" stat' = []) as Hs'.
  { rewrite (iter_tag_unfold _ stat'). change (tag stat') with (tag stat).
    rewrite decide_False by done. cbn [app].
    subst stat'. unfold insert, remove_at. cbn [children with_children].
    rewrite flat_map_app. cbn [flat_map].
    rewrite (iter_tag_nil_children _ cont emptyEvents Hfree_c)
      by (by eapply list_elem_of_lookup_2).
    rewrite !flat_map_nil; [done | |].
    - by apply Forall_drop.
    - by apply Forall_take. }
  (* the networks are found where they were *)
  set (N1 := <[iC := cont']> (children networks)).
  assert (N1 !! iC = Some cont' ∧ N1 !! iS = Some stat) as [HN1C HN1S].
  { subst N1. split.
    - apply list_lookup_insert_eq. by eapply lookup_lt_Some.
    - by rewrite list_lookup_insert_ne. }
  assert (children networks' !! iC = Some cont'
          ∧ children networks' !! iS = Some stat') as [HN2C HN2S].
  { subst networks'. unfold set_child. cbn [children with_children]. fold N1. split.
    - by rewrite list_lookup_insert_ne.
    - apply list_lookup_insert_eq. by eapply lookup_lt_Some. }
  assert (∀ name i x,
            find_attr_i "Network" "Name" name networks = Some (i, x) →
            find_attr_i "Network" "Name" name networks'
              = (i,.) <$> children networks' !! i) as Hfind.
  { intros name i x Hx.
    unfold find_attr_i in Hx |- *.
    set (is_network := λ c : Element, tag c = "Network" ∧ get "Name" c = Some name) in *.
    destruct (list_find_preserved is_network (children networks) N1 i x)
      as (x1 & Hx1 & Hf1); [| done |].
    { by apply (Forall2_insert_same _ _ _ cont). }
    destruct (list_find_preserved is_network N1 (children networks') i x1)
      as (x2 & Hx2 & Hf2); [| done |].
    { subst networks'. unfold set_child. cbn [children with_children]. fold N1.
      by apply (Forall2_insert_same _ _ _ stat). }
    by rewrite Hf2, Hx2. }
  assert (find_i "Networks" m' = Some (iN, networks')) as HN'.
  { unfold find_i in HN |- *.
    destruct (list_find_preserved (λ c, tag c = "Networks") (children m) (children m')
                iN networks) as (x & Hx & Hf); [| done |].
    { subst m'. unfold set_child. cbn [children with_children].
      by apply (Forall2_insert_same _ _ _ networks). }
    subst m'. unfold set_child in Hx. cbn [children with_children] in Hx.
    rewrite list_lookup_insert_eq in Hx by (by eapply lookup_lt_Some).
    by injection Hx as <-. }
  assert (iter_tag "EventTable" networks' = iter_tag "EventTable" cont') as Hn'.
  { rewrite (iter_tag_unfold _ networks'). change (tag networks') with (tag networks).
    rewrite decide_False by done. cbn [app].
    apply (flat_map_single _ _ iC); [done|]. intros j x Hj Hx.
    destruct (decide (j = iS)) as [->|HjS]; [by rewrite HN2S in Hx; injection Hx as <-|].
    subst networks'. unfold set_child in Hx. cbn [children with_children] in Hx.
    rewrite !list_lookup_insert_ne in Hx by done. by apply (Hothers_n j). }
  assert (iter_tag "EventTable" m' = iter_tag "EventTable" networks') as Hm'.
  { rewrite (iter_tag_unfold _ m'). change (tag m') with (tag m).
    rewrite decide_False by done. cbn [app].
    apply (flat_map_single _ _ iN).
    - subst m'. unfold set_child. cbn [children with_children].
      apply list_lookup_insert_eq. by eapply lookup_lt_Some.
    - intros j x Hj Hx. subst m'. unfold set_child in Hx. cbn [children with_children] in Hx.
      rewrite list_lookup_insert_ne in Hx by done. by apply (Hothers_m j). }
  exists m', cont', stat', stat. rewrite HN'. cbn [fmap option_fmap option_map snd mbind option_bind].
  rewrite HS, HT, (Hfind _ _ _ HC), (Hfind _ _ _ HS), HN2C, HN2S.
  cbn [fmap option_fmap option_map snd].
  split_and!; try done.
  - by rewrite Hc'.
  - unfold find_i. apply fmap_is_Some, (list_find_elem_of _ _ emptyEvents); [|done].
    subst stat'. unfold insert. cbn [children with_children]. set_solver.
  - by rewrite Hm', Hn', Hc'.
Qed.

Lemma findall_update_children t (f : Element → Element) e :
  (∀ c, tag (f c) = tag c) →
  findall t (update_children t f e) = f <$> findall t e.
Proof.
  intros Hf. unfold findall, update_children. cbn [children with_children].
  induction (children e) as [|c l IH]; [done|].
  cbn [map]. rewrite !filter_cons, IH.
  destruct (decide (tag c = t)) as [Ht|Ht].
  - by rewrite decide_True by (by rewrite Hf).
  - by rewrite decide_False.
Qed.

(** A child changed in place is found where the old one was, when its
    tag is the same. *)
Lemma find_i_set_child t i c c' e :
  find_i t e = Some (i, c) → tag c' = tag c → find_i t (set_child i c' e) = Some (i, c').
Proof.
  intros Hfind Htag. unfold find_i in *.
  pose proof (list_find_lookup _ _ _ _ Hfind) as [Hl Ht].
  destruct (list_find_preserved (λ x, tag x = t) (children e)
              (children (set_child i c' e)) i c) as (x & Hx & Hf); [| done |].
  { unfold set_child. cbn [children with_children].
    apply (Forall2_insert_same _ _ _ c); [done | done | by rewrite Htag]. }
  unfold set_child in Hx. cbn [children with_children] in Hx.
  rewrite list_lookup_insert_eq in Hx by (by eapply lookup_lt_Some).
  by injection Hx as <-.
Qed.

Lemma find_attr_i_set_child t key value i j c c' e :
  find_attr_i t key value e = Some (i, c) →
  ∀ old, children e !! j = Some old → tag c' = tag old → get key c' = get key old →
  find_attr_i t key value (set_child j c' e)
    = Some (i, if decide (i = j) then c' else c).
Proof.
  intros Hfind old Hold Htag Hget. unfold find_attr_i in *.
  pose proof (list_find_lookup _ _ _ _ Hfind) as [Hl Ht].
  destruct (list_find_preserved (λ x, tag x = t ∧ get key x = Some value) (children e)
              (children (set_child j c' e)) i c) as (x & Hx & Hf); [| done |].
  { unfold set_child. cbn [children with_children].
    apply (Forall2_insert_same _ _ _ old); [done | done | by rewrite Htag, Hget]. }
  rewrite Hf. unfold set_child in Hx. cbn [children with_children] in Hx.
  destruct (decide (i = j)) as [->|Hne].
  - rewrite list_lookup_insert_eq in Hx by (by eapply lookup_lt_Some). by injection Hx as <-.
  - rewrite list_lookup_insert_ne in Hx by done. rewrite Hl in Hx. by injection Hx as <-.
Qed.

Lemma get_set_eq key value e : get key (set key value e) = Some value.
Proof. rewrite get_set. by rewrite decide_True. Qed.

Lemma get_set_ne key key' value e : key' ≠ key → get key (set key' value e) = get key e.
Proof. intros Hne. rewrite get_set. by rewrite decide_False. Qed.

Lemma setDerived_eventTable_attributes c :
  stores_derived_fields (setDerived_eventTable c).
Proof.
  unfold stores_derived_fields, setDerived_eventTable.
  destruct (decide (get "IsPointEvent" _ = Some "true")) as [Hp|Hp].
  - rewrite !get_set_ne in Hp by discriminate.
    repeat (rewrite get_set_eq || rewrite get_set_ne by discriminate).
    by rewrite decide_True.
  - rewrite !get_set_ne in Hp by discriminate.
    repeat (rewrite get_set_eq || rewrite get_set_ne by discriminate).
    by rewrite decide_False.
Qed.

(** [setDerivedNetwork] on one document: the engineering network is found
    where it was, and its event tables are the old ones with the derived
    fields set. *)
Lemma setDerivedNetwork_row_derives m engineering :
  network "P_EngineeringNetwork" m = Some engineering →
  is_Some (find "EventTables" engineering) →
  ∃ m' engineering',
    setDerivedNetwork_row m = inr m'
    ∧ network "P_EngineeringNetwork" m' = Some engineering'
    ∧ event_tables engineering' = setDerived_eventTable <$> event_tables engineering.
Proof.
  intros Heng Hevents. unfold network, find, find_attr, event_tables in *.
  destruct (find_i "Networks" m) as [[iN networks]|] eqn:HN; [|done].
  cbn [fmap option_fmap option_map mbind option_bind snd] in Heng.
  destruct (find_attr_i "Network" "Name" "P_EngineeringNetwork" networks)
    as [[iE e]|] eqn:HE; [|done].
  cbn in Heng. injection Heng as ->.
  destruct (find_i "EventTables" engineering) as [[iT events]|] eqn:HT;
    [|by destruct Hevents].
  clear Hevents. cbn [fmap option_fmap option_map snd].
  pose proof (list_find_lookup _ _ _ _ HN) as [HNl HNt].
  pose proof (list_find_lookup _ _ _ _ HE) as [HEl HEt].
  pose proof (list_find_lookup _ _ _ _ HT) as [HTl HTt].
  assert (truthy (Some engineering) = true) as Htruthy.
  { unfold truthy, len. apply lookup_lt_Some in HTl.
    destruct (children engineering); [simpl in HTl; lia | done]. }
  set (events' := update_children "EventTable" setDerived_eventTable events).
  set (engineering' := set_child iT events' engineering).
  (* the continuous network, set as derived when it is there and has children *)
  set (networks1 :=
    match find_attr_i "Network" "Name" "P_ContinuousNetwork" networks with
    | Some (iC, c) =>
        if truthy (Some c)
        then set_child iC (set "IsDerived" "true" (set "DerivedFromNetwork" "2" c)) networks
        else networks
    | None => networks
    end).
  assert (find_attr_i "Network" "Name" "P_EngineeringNetwork" networks1
          = Some (iE, engineering)) as HE1.
  { subst networks1.
    destruct (find_attr_i "Network" "Name" "P_ContinuousNetwork" networks)
      as [[iC c]|] eqn:HC; [|done].
    destruct (truthy (Some c)); [|done].
    pose proof (list_find_lookup _ _ _ _ HC) as [HCl [_ HCn]].
    rewrite (find_attr_i_set_child _ _ _ iE iC engineering _ networks HE c HCl);
      [| done | by rewrite !get_set].
    rewrite decide_False; [done|].
    intros ->. rewrite HCl in HEl. injection HEl as ->.
    destruct HEt as [_ HEn]. rewrite HCn in HEn. discriminate HEn. }
  pose proof (list_find_lookup _ _ _ _ HE1) as [HE1l _].
  set (networks2 := set_child iE engineering' networks1).
  assert (tag networks2 = tag networks) as Htag2.
  { subst networks2 networks1. unfold set_child.
    destruct (find_attr_i "Network" "Name" "P_ContinuousNetwork" networks) as [[iC c]|];
      [|done].
    by destruct (truthy (Some c)). }
  exists (set_child iN networks2 m), engineering'. split_and!.
  - unfold setDerivedNetwork_row. rewrite HN. cbn [need rbind].
    fold networks1. rewrite HE, Htruthy, HT. by cbn [need rbind].
  - rewrite (find_i_set_child _ _ networks) by done.
    cbn [fmap option_fmap option_map mbind option_bind snd].
    subst networks2.
    rewrite (find_attr_i_set_child _ _ _ iE iE engineering _ networks1 HE1 engineering HE1l)
      by done.
    by rewrite decide_True.
  - subst engineering'. unfold find.
    rewrite (find_i_set_child _ _ events), HT by done.
    cbn [fmap option_fmap option_map snd]. subst events'.
    apply findall_update_children. intros c. apply setDerived_eventTable_local.
Qed.

Lemma filter_none {X} (P : X → Prop) `{!∀ x, Decision (P x)} l :
  Forall (λ x, ¬ P x) l → filter P l = [].
Proof.
  induction 1 as [|x l Hx _ IH]; [done|]. by rewrite filter_cons, decide_False.
Qed.

Lemma findall_of_free_parent t t' e events :
  iter_tag t e = [] → find t' e = Some events → findall t events = [].
Proof.
  intros He Hfind. unfold find, find_i in Hfind.
  destruct (list_find _ (children e)) as [[i x]|] eqn:Hx; [|done].
  injection Hfind as ->. apply list_find_lookup in Hx as [Hx _].
  assert (iter_tag t events = []) as Hev.
  { apply (iter_tag_nil_children t e); [done|]. by eapply list_elem_of_lookup_2. }
  unfold findall. apply filter_none, Forall_forall. intros c Hc.
  by apply iter_tag_nil_tag, (iter_tag_nil_children t events).
Qed.

Lemma metadata_shape : events_registered_with_engineering Example.metadata.
Proof.
  split.
  - eexists. split; [by vm_compute | by eexists].
  - eexists. split_and!; [by vm_compute | by eexists | by vm_compute].
Qed.

(** C1, as stated, fails on both sides.  [updateContinuousMetadata]
    rewrites the event tables of the engineering network's list only, and
    then exchanges the lists of the two networks: an event table of the
    continuous network keeps its [ToRouteIdFieldName].  And
    [setDerivedNetwork] goes through the [EventTable] children of the
    first [EventTables] element of the engineering network: an event
    table elsewhere under that network is left without the derived
    fields. *)
Lemma event_tables_out_of_reach :
  (∃ result eventTable,
     updateContinuousMetadata_row Example.metadata_with_more_events = inr result
     ∧ eventTable ∈ iter_tag "EventTable" result
     ∧ get "ToRouteIdFieldName" eventTable = Some "CONTINTOROUTEID")
  ∧ (∃ result engineering eventTable,
       setDerivedNetwork_row Example.metadata_with_more_events = inr result
       ∧ network "P_EngineeringNetwork" result = Some engineering
       ∧ eventTable ∈ iter_tag "EventTable" engineering
       ∧ get "StoreFieldsFromDerivedNetworkWithEventRecords" eventTable = None).
Proof.
  split.
  - eexists _, _. split_and!; [by vm_compute | | ].
    + apply (list_elem_of_lookup_2 _ 1). by vm_compute.
    + by vm_compute.
  - eexists _, _, _. split_and!; [by vm_compute | by vm_compute | | ].
    + apply (list_elem_of_lookup_2 _ 1). by vm_compute.
    + by vm_compute.
Qed.

(** C1, amended.  On a metadata document whose engineering network has
    an event table list: when every event table of the document is
    registered with the engineering network, as in the shipped metadata
    (the continuous network has none of its own), then after
    [updateContinuousMetadata] no [EventTable] element of the resulting
    document has a non-empty [ToRouteIdFieldName] (each has it set to the
    empty text); and after [setDerivedNetwork] the event tables in the
    list of the engineering network (the [EventTable] children of its
    first [EventTables] element) are the former ones, each with
    [StoreFieldsFromDerivedNetworkWithEventRecords] "true",
    [DerivedRouteIdFieldName] "CONTINROUTEID", [DerivedRouteNameFieldName]
    "CONTINROUTENAME", and [DerivedFromMeasureFieldName] "CONTINM" for a
    point event, or "CONTINFROMM" with [DerivedToMeasureFieldName]
    "CONTINTOM" for a line event.  Both functions return. *)
Theorem mode_postconditions (metadataXml engineering : Element) :
  network "P_EngineeringNetwork" metadataXml = Some engineering →
  is_Some (find "EventTables" engineering) →
  (events_registered_with_engineering metadataXml →
   ∃ result,
     updateContinuousMetadata_row metadataXml = inr result
     ∧ ∀ eventTable, eventTable ∈ iter_tag "EventTable" result →
                     get "ToRouteIdFieldName" eventTable = Some "")
  ∧ (∃ result engineering',
       setDerivedNetwork_row metadataXml = inr result
       ∧ network "P_EngineeringNetwork" result = Some engineering'
       ∧ event_tables engineering' = setDerived_eventTable <$> event_tables engineering
       ∧ ∀ eventTable, eventTable ∈ event_tables engineering' →
                       stores_derived_fields eventTable).
Proof.
  intros Heng Hevents. split.
  - intros Hshape.
    destruct (updateContinuousMetadata_row_moves _ Hshape)
      as (result & _ & _ & eng & _ & Hrun & _ & _ & _ & _ & _ & Hall).
    exists result. split; [done|]. intros eventTable. rewrite Hall.
    intros (c & -> & _)%list_elem_of_fmap. apply setContinuous_eventTable_ToRouteId.
  - destruct (setDerivedNetwork_row_derives _ _ Heng Hevents)
      as (result & engineering' & Hrun & Hnet & Htables).
    exists result, engineering'. split_and!; [done | done | done |].
    intros eventTable. rewrite Htables.
    intros (c & -> & _)%list_elem_of_fmap. apply setDerived_eventTable_attributes.
Qed.

Lemma mode_postconditions_witness :
  (∃ result,
     updateContinuousMetadata_row Example.metadata = inr result
     ∧ ∀ eventTable, eventTable ∈ iter_tag "EventTable" result →
                     get "ToRouteIdFieldName" eventTable = Some "")
  ∧ ∃ result engineering',
      setDerivedNetwork_row Example.metadata = inr result
      ∧ network "P_EngineeringNetwork" result = Some engineering'
      ∧ length (event_tables engineering') = 2
      ∧ ∀ eventTable, eventTable ∈ event_tables engineering' →
                      stores_derived_fields eventTable.
Proof.
  destruct metadata_shape as [_ (engineering & Heng & Hevents & Hall)].
  destruct (mode_postconditions Example.metadata engineering Heng Hevents) as [HA HB].
  split.
  - apply HA. apply metadata_shape.
  - destruct HB as (result & engineering' & Hrun & Hnet & Htables & Hattrs).
    exists result, engineering'. split_and!; [done | done | | done].
    rewrite Htables, length_fmap.
    assert (Some engineering = network "P_EngineeringNetwork" Example.metadata) as Heq
      by done.
    vm_compute in Heq. injection Heq as ->. by vm_compute.
Defined.

(** C2, as stated, fails: the code exchanges the [EventTables] elements
    of the two networks.  When the continuous network has an event table
    of its own, that table is in the list of the engineering network
    afterwards, which is not empty then. *)
Lemma exchange_fills_engineering_list :
  ∃ result engineering events eventTable,
    updateContinuousMetadata_row Example.metadata_with_more_events = inr result
    ∧ network "P_EngineeringNetwork" result = Some engineering
    ∧ find "EventTables" engineering = Some events
    ∧ eventTable ∈ findall "EventTable" events
    ∧ get "Name" eventTable = Some "P_Crossing".
Proof.
  eexists _, _, _, _. split_and!; [by vm_compute | by vm_compute | by vm_compute | | ].
  - apply (list_elem_of_lookup_2 _ 0). by vm_compute.
  - by vm_compute.
Qed.

(** C2, amended.  On a metadata document of the shape of the LRS
    metadata (both networks with an event table list, every event table
    registered with the engineering network, so that the list of the
    continuous network is empty), [updateContinuousMetadata] moves the event
    tables: afterwards the [EventTable] elements in the subtree of the
    continuous network are exactly the ones that were the engineering
    network's, the same objects in the same order with their attributes
    rewritten; the engineering network still has an [EventTables] element,
    which has no [EventTable] child, and its subtree holds no [EventTable]
    element at all, so none is under both networks. *)
Theorem continuous_mode_moves_event_tables (metadataXml : Element) :
  events_registered_with_engineering metadataXml →
  ∃ result continuous' engineering' engineering,
    network "P_EngineeringNetwork" metadataXml = Some engineering
    ∧ updateContinuousMetadata_row metadataXml = inr result
    ∧ network "P_ContinuousNetwork" result = Some continuous'
    ∧ network "P_EngineeringNetwork" result = Some engineering'
    ∧ iter_tag "EventTable" continuous'
        = setContinuous_eventTable <$> event_tables engineering
    ∧ oid <$> iter_tag "EventTable" continuous' = oid <$> event_tables engineering
    ∧ (∃ events, find "EventTables" engineering' = Some events
                 ∧ findall "EventTable" events = [])
    ∧ iter_tag "EventTable" engineering' = []
    ∧ ∀ eventTable, eventTable ∈ iter_tag "EventTable" continuous' →
                    eventTable ∉ iter_tag "EventTable" engineering'.
Proof.
  intros Hshape.
  destruct (updateContinuousMetadata_row_moves _ Hshape)
    as (result & continuous' & engineering' & engineering
        & Heng & Hrun & Hc & He & Hmoved & Hnone & [events Hevents] & _).
  exists result, continuous', engineering', engineering.
  split_and!; try done.
  - rewrite Hmoved, <- list_fmap_compose. apply list_fmap_ext.
    intros _ c _. unfold compose, setContinuous_eventTable. by case_decide.
  - exists events. split; [done|]. by apply (findall_of_free_parent "EventTable" "EventTables" engineering').
  - intros eventTable _. rewrite Hnone. apply not_elem_of_nil.
Qed.

Lemma continuous_mode_moves_event_tables_witness :
  ∃ result continuous' engineering',
    updateContinuousMetadata_row Example.metadata = inr result
    ∧ network "P_ContinuousNetwork" result = Some continuous'
    ∧ network "P_EngineeringNetwork" result = Some engineering'
    ∧ oid <$> iter_tag "EventTable" continuous' = [39; 40]
    ∧ iter_tag "EventTable" engineering' = [].
Proof.
  destruct (continuous_mode_moves_event_tables Example.metadata metadata_shape)
    as (result & continuous' & engineering' & engineering
        & Heng & Hrun & Hc & He & _ & Hoids & _ & Hnone & _).
  exists result, continuous', engineering'. split_and!; try done.
  rewrite Hoids. vm_compute in Heng. injection Heng as <-. by vm_compute.
Defined.

(** ** The substitution of the spatial references *)

Lemma iter_unfold e : iter e = e :: flat_map iter (children e).
Proof. by destruct e. Qed.

Lemma with_children_same e : with_children e (children e) = e.
Proof. by destruct e. Qed.

Lemma replace_where_unfold test new e :
  replace_where test new e
  = with_children e
      (map (λ c, if test c then new else replace_where test new c) (children e)).
Proof. by destruct e. Qed.

Lemma oid_replace_where test new e : oid (replace_where test new e) = oid e.
Proof. by destruct e. Qed.

Lemma modify_unfold o f e :
  modify o f e
  = if decide (oid e = o) then f e else with_children e (map (modify o f) (children e)).
Proof. by destruct e. Qed.

Lemma elem_of_flat_map {X Y} (f : X → list Y) l y :
  y ∈ flat_map f l ↔ ∃ x, x ∈ l ∧ y ∈ f x.
Proof.
  induction l as [|a l IH]; simpl.
  - split; [by intros ?%elem_of_nil | by intros (x & ?%elem_of_nil & _)].
  - rewrite elem_of_app, IH. split.
    + intros [H|(x & Hx & Hy)]; [exists a | exists x]; split; try done;
        [apply list_elem_of_here | by apply list_elem_of_further].
    + intros (x & [->|Hx]%elem_of_cons & Hy); [by left | right; by exists x].
Qed.

Lemma oids_unfold e : oids e = oid e :: flat_map oids (children e).
Proof.
  unfold oids. rewrite iter_unfold, fmap_cons. f_equal.
  induction (children e) as [|c l IH]; [done|]. simpl. by rewrite fmap_app, IH.
Qed.

Lemma oid_in_oids e : oid e ∈ oids e.
Proof. rewrite oids_unfold. apply list_elem_of_here. Qed.

(** The objects of the tree after a substitution are objects of the tree
    before it or of the fragment. *)
Lemma oids_replace_where test new e o :
  o ∈ oids (replace_where test new e) → o ∈ oids e ∨ o ∈ oids new.
Proof.
  revert o. induction e as [e IH] using Element_tree_ind. intros o.
  rewrite (replace_where_unfold test new e), (oids_unfold e), (oids_unfold (with_children _ _)).
  cbn [oid children with_children].
  intros [->|Ho]%elem_of_cons; [left; apply list_elem_of_here|].
  apply elem_of_flat_map in Ho as (c' & (c & <- & Hc)%list_elem_of_In%in_map_iff & Ho).
  apply list_elem_of_In in Hc. destruct (test c); [by right|].
  destruct (proj1 (Forall_forall _ _) IH c Hc o Ho) as [H|H]; [left|by right].
  apply list_elem_of_further, elem_of_flat_map. by exists c.
Qed.

Lemma map_same {X} (f : X → X) l : Forall (λ x, f x = x) l → map f l = l.
Proof. induction 1 as [|x l Hx _ IH]; [done|]. simpl. by rewrite Hx, IH. Qed.

Lemma Forall_with_elem_of {X} (P : X → Prop) l :
  Forall P l → Forall (λ x, P x ∧ x ∈ l) l.
Proof.
  intros H. apply Forall_forall. intros x Hx. split; [|done].
  by apply (proj1 (Forall_forall _ _) H).
Qed.

Lemma modify_absent o f e : o ∉ oids e → modify o f e = e.
Proof.
  induction e as [e IH] using Element_tree_ind. rewrite oids_unfold, modify_unfold.
  intros [Hne Ho]%not_elem_of_cons. rewrite decide_False by done.
  transitivity (with_children e (children e)); [|apply with_children_same].
  f_equal. apply map_same.
  eapply Forall_impl; [apply Forall_with_elem_of, IH|].
  cbn beta. intros c [Hc Hin]. apply Hc. intros H. apply Ho, elem_of_flat_map. by exists c.
Qed.

Lemma lookup_obj_absent o e : o ∉ oids e → lookup_obj o e = None.
Proof.
  intros Ho. unfold lookup_obj.
  destruct (list_find _ _) as [[i x]|] eqn:H; [|done].
  apply list_find_lookup in H as [H <-]. destruct Ho.
  apply list_elem_of_fmap. exists x. split; [done|]. by eapply list_elem_of_lookup_2.
Qed.

Lemma replace_where_ext test test' new e :
  (∀ y, y ∈ iter e → test y = test' y) →
  replace_where test new e = replace_where test' new e.
Proof.
  induction e as [e IH] using Element_tree_ind. intros H.
  rewrite (replace_where_unfold test new e), (replace_where_unfold test' new e).
  f_equal. apply map_ext_Forall.
  eapply Forall_impl; [apply Forall_with_elem_of, IH|].
  cbn beta. intros c [Hc Hin].
  assert (∀ y, y ∈ iter c → y ∈ iter e) as Hsub.
  { intros y Hy. rewrite iter_unfold. apply list_elem_of_further, elem_of_flat_map. by exists c. }
  rewrite (H c) by (apply Hsub; rewrite iter_unfold; apply list_elem_of_here).
  destruct (test' c); [done|]. apply Hc. intros y Hy. by apply H, Hsub.
Qed.

Lemma replace_where_none test new e :
  (∀ y, y ∈ iter e → test y = false) → replace_where test new e = e.
Proof.
  induction e as [e IH] using Element_tree_ind. intros H.
  rewrite (replace_where_unfold test new e).
  transitivity (with_children e (children e)); [|apply with_children_same].
  f_equal. apply map_same.
  eapply Forall_impl; [apply Forall_with_elem_of, IH|].
  cbn beta. intros c [Hc Hin].
  assert (∀ y, y ∈ iter c → y ∈ iter e) as Hsub.
  { intros y Hy. rewrite iter_unfold. apply list_elem_of_further, elem_of_flat_map. by exists c. }
  rewrite (H c) by (apply Hsub; rewrite iter_unfold; apply list_elem_of_here).
  apply Hc. intros y Hy. by apply H, Hsub.
Qed.

Lemma oids_elem_of e y : y ∈ iter e → oid y ∈ oids e.
Proof. intros Hy. apply list_elem_of_fmap. by exists y. Qed.

Lemma oids_child e c : c ∈ children e → ∀ o, o ∈ oids c → o ∈ flat_map oids (children e).
Proof. intros Hc o Ho. apply elem_of_flat_map. by exists c. Qed.

Lemma among_cons o ids y : oid y ≠ o → among (o :: ids) y = among ids y.
Proof.
  intros Hne. unfold among. apply bool_decide_ext. rewrite elem_of_cons. naive_solver.
Qed.

(** A subtree that does not hold the object [o] is placed the same way
    whether [o] is among the identities or not. *)
Lemma placed_cons ids new o c :
  o ∉ oids c → placed (o :: ids) new c = placed ids new c.
Proof.
  intros Ho. unfold placed.
  assert (∀ y, y ∈ iter c → among (o :: ids) y = among ids y) as Hext.
  { intros y Hy. apply among_cons. intros <-. by apply Ho, oids_elem_of. }
  rewrite (Hext c) by (rewrite iter_unfold; apply list_elem_of_here).
  by rewrite (replace_where_ext _ _ new c Hext).
Qed.

Lemma oids_placed ids new o c :
  o ∉ oids c → o ∉ oids new → o ∉ oids (placed ids new c).
Proof.
  intros Hc Hnew. unfold placed. destruct (among ids c); [done|].
  intros [H|H]%oids_replace_where; tauto.
Qed.

Lemma insert_remove_at {X} (l : list X) i y :
  i < length l → take i (delete i l) ++ y :: drop i (delete i l) = <[i := y]> l.
Proof.
  revert i. induction l as [|a l IH]; intros [|i] Hi; simpl in *; try lia; [done|].
  f_equal. apply IH. lia.
Qed.

Lemma list_find_absent {X} (P : X → Prop) `{!∀ x, Decision (P x)} l :
  (∀ x, x ∈ l → ¬ P x) → list_find P l = None.
Proof. intros Hno. by apply list_find_None, Forall_forall. Qed.

(** The child [x] of a parent, among the placed children: it is found at
    its index, and putting the fragment there is placing with [x] among
    the identities. *)
Lemma replace_child ids new cs : ∀ i x,
  NoDup (flat_map oids cs) → cs !! i = Some x → oid x ∉ ids → oid x ∉ oids new →
  list_find (λ c, oid c = oid x) (map (placed ids new) cs)
    = Some (i, replace_where (among ids) new x)
  ∧ map (placed (oid x :: ids) new) cs = <[i := new]> (map (placed ids new) cs).
Proof.
  induction cs as [|c rest IH]; intros [|i] x Hnd Hx Hids Hnew; try done;
    cbn [flat_map] in Hnd; apply NoDup_app in Hnd as (Hc & Hdisj & Hrest); simpl in Hx.
  - injection Hx as ->.
    assert (placed ids new x = replace_where (among ids) new x) as Hout.
    { unfold placed, among. by rewrite bool_decide_eq_false_2. }
    assert (placed (oid x :: ids) new x = new) as Hin.
    { unfold placed, among. rewrite bool_decide_eq_true_2; [done | apply list_elem_of_here]. }
    cbn [map list_find]. rewrite Hin, Hout, decide_True by apply oid_replace_where.
    split; [done|]. cbn [base.insert list_insert]. f_equal.
    apply map_ext_Forall, Forall_forall. intros r Hr. apply placed_cons.
    intros H. apply (Hdisj (oid x)); [apply oid_in_oids|].
    apply elem_of_flat_map. by exists r.
  - assert (oid x ∉ oids c) as Hxc.
    { intros H. apply (Hdisj _ H), elem_of_flat_map. exists x.
      split; [by eapply list_elem_of_lookup_2 | apply oid_in_oids]. }
    destruct (IH i x Hrest Hx Hids Hnew) as [Hfind Hmap].
    cbn [map list_find]. rewrite Hfind, decide_False.
    + split; [done|]. cbn [base.insert list_insert]. f_equal; [by apply placed_cons | done].
    + intros H. apply (oids_placed ids new (oid x) c Hxc Hnew).
      rewrite <- H. apply oid_in_oids.
Qed.

(** What is below a child of an element of the tree is below the root. *)
Lemma child_below e : ∀ p x,
  p ∈ iter e → x ∈ children p → oid x ∈ flat_map oids (children e).
Proof.
  induction e as [e IH] using Element_tree_ind. intros p x Hp Hx.
  rewrite iter_unfold in Hp. apply elem_of_cons in Hp as [->|Hp].
  - apply (oids_child e x Hx), oid_in_oids.
  - apply elem_of_flat_map in Hp as (c & Hc & Hp).
    apply (oids_child e c Hc). rewrite oids_unfold. apply list_elem_of_further.
    by apply (proj1 (Forall_forall _ _) IH c Hc p x).
Qed.

Lemma list_find_app_snd {X} (P : X → Prop) `{!∀ x, Decision (P x)} l1 l2 :
  snd <$> list_find P (l1 ++ l2)
  = match snd <$> list_find P l1 with
    | Some y => Some y
    | None => snd <$> list_find P l2
    end.
Proof.
  destruct (list_find P l1) as [[i y]|] eqn:H1.
  - by rewrite (list_find_app_l _ _ _ _ _ H1).
  - rewrite (list_find_app_r _ _ _ H1). by destruct (list_find P l2) as [[]|].
Qed.

(** Siblings that do not hold the object [o]: it is not found below them
    and a change of it leaves them as they are. *)
Lemma siblings_untouched ids new o f l :
  o ∉ flat_map oids l → o ∉ oids new →
  list_find (λ y, oid y = o) (flat_map iter (map (placed ids new) l)) = None
  ∧ map (modify o f) (map (placed ids new) l) = map (placed ids new) l.
Proof.
  intros Hl Hnew.
  assert (∀ c, c ∈ l → o ∉ oids (placed ids new c)) as Hout.
  { intros c Hc. apply oids_placed; [|done]. intros H. apply Hl, elem_of_flat_map. by exists c. }
  split.
  - apply list_find_absent. intros y (c' & Hc' & Hy)%elem_of_flat_map.
    apply list_elem_of_In, in_map_iff in Hc' as (c & <- & Hc%list_elem_of_In).
    intros <-. by apply (Hout c Hc), oids_elem_of.
  - rewrite map_map. apply map_ext_Forall, Forall_forall. intros c Hc.
    by apply modify_absent, Hout.
Qed.

Lemma siblings_placed_cons ids new o l :
  o ∉ flat_map oids l → map (placed (o :: ids) new) l = map (placed ids new) l.
Proof.
  intros Hl. apply map_ext_Forall, Forall_forall. intros c Hc. apply placed_cons.
  intros H. apply Hl, elem_of_flat_map. by exists c.
Qed.

Lemma replace_turn_siblings ids new cs p i x :
  Forall (turn_on ids new) cs → NoDup (flat_map oids cs) → p ∈ flat_map iter cs →
  children p !! i = Some x → oid x ∉ ids → oid p ∉ oids new → oid x ∉ oids new →
  match snd <$> list_find (λ y, oid y = oid p) (flat_map iter (map (placed ids new) cs)) with
  | None => map (placed (oid x :: ids) new) cs = map (placed ids new) cs
  | Some parent =>
      index x parent = Some i
      ∧ map (modify (oid p) (put_in_place i new x)) (map (placed ids new) cs)
        = map (placed (oid x :: ids) new) cs
  end.
Proof.
  intros Hturns. induction Hturns as [|c rest Hturn _ IH];
    intros Hnd Hp Hx Hxids Hpnew Hxnew; [by apply elem_of_nil in Hp|].
  cbn [flat_map] in Hnd, Hp. apply NoDup_app in Hnd as (Hc & Hdisj & Hrest).
  assert (x ∈ children p) as Hxp by (by eapply list_elem_of_lookup_2).
  cbn [map flat_map]. rewrite list_find_app_snd.
  apply elem_of_app in Hp as [Hp|Hp].
  - (* the parent is below the first sibling *)
    assert (oid p ∈ oids c) as Hpc by (by apply oids_elem_of).
    assert (oid x ∈ flat_map oids (children c)) as Hxc by (by apply (child_below c p x)).
    assert (oid x ∈ oids c) as Hxc' by (rewrite oids_unfold; by apply list_elem_of_further).
    destruct (siblings_untouched ids new (oid p) (put_in_place i new x) rest
                (Hdisj _ Hpc) Hpnew) as [Hfind Hmod].
    rewrite Hfind, Hmod, (siblings_placed_cons ids new (oid x) rest (Hdisj _ Hxc')).
    destruct (decide (oid c ∈ ids)) as [Hin|Hout].
    + assert (placed ids new c = new) as ->
        by (unfold placed, among; by rewrite bool_decide_eq_true_2).
      assert (placed (oid x :: ids) new c = new) as ->.
      { unfold placed, among. rewrite bool_decide_eq_true_2; [done|].
        by apply list_elem_of_further. }
      rewrite list_find_absent; [done|].
      intros y Hy Heq. apply Hpnew. rewrite <- Heq. by apply oids_elem_of.
    + assert (placed ids new c = replace_where (among ids) new c) as ->
        by (unfold placed, among; by rewrite bool_decide_eq_false_2).
      assert (placed (oid x :: ids) new c = replace_where (among (oid x :: ids)) new c) as ->.
      { unfold placed, among. rewrite bool_decide_eq_false_2; [done|].
        rewrite oids_unfold in Hc. apply NoDup_cons in Hc as [Hroot _].
        intros [Heq|?]%elem_of_cons; [|done]. apply Hroot. by rewrite Heq. }
      specialize (Hturn p i x Hc Hp Hx Hxids Hout Hpnew Hxnew). unfold lookup_obj in Hturn.
      destruct (snd <$> list_find _ (iter (replace_where (among ids) new c))) as [parent|].
      * destruct Hturn as [Hindex Hturn]. split; [done|]. by rewrite Hturn.
      * cbn [fmap option_fmap option_map]. by rewrite Hturn.
  - (* the parent is below a later sibling *)
    assert (oid p ∈ flat_map oids rest ∧ oid x ∈ flat_map oids rest) as [Hpr Hxr].
    { apply elem_of_flat_map in Hp as (r & Hr & Hp). split; apply elem_of_flat_map; exists r.
      - split; [done | by apply oids_elem_of].
      - split; [done|]. rewrite oids_unfold. by apply list_elem_of_further, (child_below r p x). }
    assert (∀ o, o ∈ flat_map oids rest → o ∉ oids c) as Hdisj'
      by (intros o Ho Hoc; by apply (Hdisj o Hoc)).
    rewrite (placed_cons ids new (oid x) c (Hdisj' _ Hxr)).
    rewrite (list_find_absent _ (iter (placed ids new c))).
    2:{ intros y Hy Heq. apply (oids_placed ids new (oid p) c (Hdisj' _ Hpr) Hpnew).
        rewrite <- Heq. by apply oids_elem_of. }
    rewrite (modify_absent (oid p) _ (placed ids new c))
      by (apply oids_placed; [by apply Hdisj' | done]).
    cbn [fmap option_fmap option_map].
    specialize (IH Hrest Hp Hx Hxids Hpnew Hxnew).
    destruct (snd <$> list_find _ (flat_map iter (map (placed ids new) rest))) as [parent|].
    + destruct IH as [Hindex IH]. split; [done|]. by rewrite IH.
    + by rewrite IH.
Qed.

Lemma with_children_replace_where test new e l :
  with_children (replace_where test new e) l = with_children e l.
Proof. by destruct e. Qed.

Lemma children_replace_where ids new e :
  children (replace_where (among ids) new e) = map (placed ids new) (children e).
Proof. by destruct e. Qed.

Lemma replace_where_placed ids new e :
  replace_where (among ids) new e = with_children e (map (placed ids new) (children e)).
Proof. by destruct e. Qed.

(** One turn of the loop puts the fragment in the place of the child, or
    leaves the tree as it is when the child is gone already. *)
Lemma replace_turn ids new t : turn_on ids new t.
Proof.
  induction t as [t IH] using Element_tree_ind.
  intros p i x Hnd Hp Hx Hxids Htids Hpnew Hxnew.
  rewrite oids_unfold in Hnd. apply NoDup_cons in Hnd as [Hroot Hnd].
  pose proof (children_replace_where ids new t) as Hchildren.
  pose proof (replace_where_placed (oid x :: ids) new t) as Hafter.
  pose proof (replace_where_placed ids new t) as Hbefore.
  pose proof (oid_replace_where (among ids) new t) as Hoid.
  unfold lookup_obj. rewrite (iter_unfold (replace_where (among ids) new t)).
  cbn [list_find]. set (r := replace_where (among ids) new t) in *.
  rewrite iter_unfold in Hp. apply elem_of_cons in Hp as [->|Hp].
  - rewrite decide_True by done. cbn [fmap option_fmap option_map snd].
    destruct (replace_child ids new (children t) i x Hnd Hx Hxids Hxnew) as [Hfind Hmap].
    assert (index x r = Some i) as Hindex.
    { unfold index. by rewrite Hchildren, Hfind. }
    split; [done|].
    rewrite modify_unfold, decide_True by done.
    unfold put_in_place, remove. rewrite Hindex. cbn [mbind option_bind].
    unfold ET.insert, remove_at. cbn [children with_children].
    rewrite insert_remove_at.
    2:{ rewrite Hchildren, length_map. by eapply lookup_lt_Some. }
    rewrite Hafter, Hmap, Hchildren. by destruct t.
  - assert (oid p ∈ flat_map oids (children t)) as Hpt.
    { apply elem_of_flat_map in Hp as (c & Hc & Hp). apply elem_of_flat_map.
      exists c. split; [done | by apply oids_elem_of]. }
    assert (oid r ≠ oid p) as Hne.
    { rewrite Hoid. intros Heq. apply Hroot. by rewrite Heq. }
    rewrite decide_False by done. rewrite Hchildren.
    pose proof (replace_turn_siblings ids new (children t) p i x IH Hnd Hp Hx Hxids
                  Hpnew Hxnew) as H.
    destruct (list_find _ (flat_map iter (map (placed ids new) (children t))))
      as [[j parent]|]; cbn in H |- *.
    + destruct H as [Hindex H]. split; [done|].
      rewrite modify_unfold, decide_False, Hchildren, H, Hafter by done.
      apply with_children_replace_where.
    + by rewrite Hafter, Hbefore, H.
Qed.

(** *** The dictionary of parents *)

Lemma parents_of_children (cs : list Element) q : ∀ (m : gmap nat nat) k,
  (k ∉ oid <$> cs → foldl (λ m c, <[oid c := q]> m) m cs !! k = m !! k)
  ∧ (k ∈ oid <$> cs → foldl (λ m c, <[oid c := q]> m) m cs !! k = Some q).
Proof.
  induction cs as [|c cs IH]; intros m k; cbn [foldl fmap list_fmap].
  - split; [done | by intros ?%elem_of_nil].
  - destruct (IH (<[oid c := q]> m) k) as [IH1 IH2]. split.
    + intros [Hne Hk]%not_elem_of_cons. by rewrite IH1, lookup_insert_ne.
    + intros Hk. destruct (decide (k ∈ oid <$> cs)) as [Hin|Hout]; [by apply IH2|].
      apply elem_of_cons in Hk as [->|Hk]; [|done]. by rewrite IH1, lookup_insert_eq.
Qed.

Lemma parents_of_elements (ps : list Element) : ∀ (m : gmap nat nat) k,
  (k ∉ flat_map (λ p, oid <$> children p) ps →
   foldl (λ m p, foldl (λ m c, <[oid c := oid p]> m) m (children p)) m ps !! k = m !! k)
  ∧ (NoDup (flat_map (λ p, oid <$> children p) ps) →
     ∀ p, p ∈ ps → k ∈ oid <$> children p →
     foldl (λ m p, foldl (λ m c, <[oid c := oid p]> m) m (children p)) m ps !! k
       = Some (oid p)).
Proof.
  induction ps as [|q ps IH]; intros m k; cbn [foldl flat_map].
  - split; [done | by intros _ p ?%elem_of_nil].
  - destruct (IH (foldl (λ m c, <[oid c := oid q]> m) m (children q)) k) as [IH1 IH2].
    destruct (parents_of_children (children q) (oid q) m k) as [Hq1 Hq2]. split.
    + intros [Hk1 Hk2]%not_elem_of_app. by rewrite IH1, Hq1.
    + intros (Hndq & Hdisj & Hnd)%NoDup_app p [->|Hp]%elem_of_cons Hk.
      * rewrite IH1 by (by apply Hdisj). by apply Hq2.
      * by apply IH2.
Qed.

(** The children of the elements of a tree are its elements but the root. *)
Lemma children_of_elements e :
  flat_map (λ p, oid <$> children p) (iter e) ≡ₚ flat_map oids (children e).
Proof.
  induction e as [e IH] using Element_tree_ind.
  rewrite iter_unfold. cbn [flat_map].
  induction IH as [|c rest Hc _ IHrest]; [done|].
  cbn [flat_map fmap list_fmap]. rewrite flat_map_app, (oids_unfold c), Hc, <- IHrest.
  cbn [app]. constructor.
  by rewrite !app_assoc, (Permutation_app_comm (oid <$> rest)).
Qed.

Lemma xmlParentMap_child e p x :
  NoDup (oids e) → p ∈ iter e → x ∈ children p →
  xmlParentMap e !! oid x = Some (oid p).
Proof.
  rewrite oids_unfold. intros [_ Hnd]%NoDup_cons Hp Hx.
  apply (proj2 (parents_of_elements (iter e) ∅ (oid x))); [|done|].
  - by rewrite children_of_elements.
  - apply list_elem_of_fmap. by exists x.
Qed.

Lemma xmlParentMap_root e : NoDup (oids e) → xmlParentMap e !! oid e = None.
Proof.
  rewrite oids_unfold. intros [Hroot _]%NoDup_cons.
  unfold xmlParentMap. rewrite (proj1 (parents_of_elements (iter e) ∅ (oid e))); [done|].
  by rewrite children_of_elements.
Qed.

Lemma parent_in_tree e x :
  x ∈ iter e → x = e ∨ ∃ p i, p ∈ iter e ∧ children p !! i = Some x.
Proof.
  induction e as [e IH] using Element_tree_ind. rewrite iter_unfold.
  intros [->|(c & Hc & Hx)%elem_of_flat_map]%elem_of_cons; [by left|]. right.
  destruct (proj1 (Forall_forall _ _) IH c Hc Hx) as [->|(p & i & Hp & Hi)].
  - apply list_elem_of_lookup_1 in Hc as [i Hi]. exists e, i.
    split; [apply list_elem_of_here | done].
  - exists p, i. split; [|done]. apply list_elem_of_further, elem_of_flat_map. by exists c.
Qed.

Lemma NoDup_fmap_eq {X Y} (f : X → Y) l x y :
  NoDup (f <$> l) → x ∈ l → y ∈ l → f x = f y → x = y.
Proof.
  induction l as [|a l IH]; cbn [fmap list_fmap]; [by intros _ ?%elem_of_nil|].
  intros [Ha Hnd]%NoDup_cons [->|Hx]%elem_of_cons [->|Hy]%elem_of_cons Heq; [done| | |by apply IH].
  - destruct Ha. rewrite Heq. apply list_elem_of_fmap. by exists y.
  - destruct Ha. rewrite <- Heq. apply list_elem_of_fmap. by exists x.
Qed.

(** *** The loop *)

Lemma replaceSpatialReference_turn new e ids p i x w :
  NoDup (oids e) → p ∈ iter e → children p !! i = Some x →
  oid x ∉ ids → oid e ∉ ids → oid p ∉ oids new → oid x ∉ oids new →
  replaceSpatialReference_step (xmlParentMap e) new (replace_where (among ids) new e) x w
    = (w, inr (replace_where (among (oid x :: ids)) new e)).
Proof.
  intros Hnd Hp Hx Hxids Heids Hpnew Hxnew.
  pose proof (replace_turn ids new e p i x Hnd Hp Hx Hxids Heids Hpnew Hxnew) as Hturn.
  unfold replaceSpatialReference_step, bind, some.
  rewrite (xmlParentMap_child e p x Hnd Hp) by (by eapply list_elem_of_lookup_2).
  cbn [ret]. destruct (lookup_obj (oid p) _) as [parent|].
  - destruct Hturn as [-> Hturn]. unfold ret. by rewrite <- Hturn.
  - unfold ret. by rewrite Hturn.
Qed.

Lemma replaceSpatialReference_turns new e w :
  NoDup (oids e) → (∀ y, y ∈ iter e → oid y ∉ oids new) →
  ∀ xs ids,
    NoDup (oid <$> xs) →
    (∀ x, x ∈ xs →
       x ∈ iter e ∧ (oid x ∉ ids) ∧ (∃ p i, p ∈ iter e ∧ children p !! i = Some x)) →
    oid e ∉ ids →
    fold_each xs (replaceSpatialReference_step (xmlParentMap e) new)
      (replace_where (among ids) new e) w
    = (w, inr (replace_where (among (reverse (oid <$> xs) ++ ids)) new e)).
Proof.
  intros Hnd Hfresh. induction xs as [|x xs IH]; intros ids Hxs Hin Heids; [done|].
  cbn [fmap list_fmap] in Hxs. apply NoDup_cons in Hxs as [Hx Hxs].
  destruct (Hin x) as (Hxe & Hxids & p & i & Hp & Hi); [apply list_elem_of_here|].
  cbn [fold_each]. unfold bind at 1.
  rewrite (replaceSpatialReference_turn new e ids p i x w) by auto.
  rewrite IH; [| done | |].
  - cbn [fmap list_fmap]. by rewrite reverse_cons, <- app_assoc.
  - intros y Hy. destruct (Hin y) as (Hye & Hyids & Hparent); [by apply list_elem_of_further|].
    split_and!; [done | | done].
    intros [Heq|?]%elem_of_cons; [|done]. apply Hx. rewrite <- Heq.
    apply list_elem_of_fmap. by exists y.
  - intros [Heq|?]%elem_of_cons; [|done].
    rewrite oids_unfold in Hnd. apply NoDup_cons in Hnd as [Hroot _]. apply Hroot.
    rewrite Heq. apply (child_below e p x Hp). by eapply list_elem_of_lookup_2.
Qed.

(** The loop as a whole: every turn finds the invariant of the turns
    before it. *)
Lemma replaceSpatialReference_loop (updmXml newSpatialReferenceXml : Element)
    (w : World) :
  distinct_objects updmXml →
  tag updmXml ≠ "SpatialReference" →
  (∀ x, x ∈ iter updmXml → oid x ∉ oids newSpatialReferenceXml) →
  fold_each (iter_tag "SpatialReference" updmXml)
    (replaceSpatialReference_step (xmlParentMap updmXml) newSpatialReferenceXml) updmXml w
  = (w, inr (replace_outer newSpatialReferenceXml updmXml)).
Proof.
  intros Hnd Htag Hfresh. set (new := newSpatialReferenceXml) in *.
  set (xs := iter_tag "SpatialReference" updmXml).
  assert (∀ x, x ∈ xs ↔ x ∈ iter updmXml ∧ tag x = "SpatialReference") as Hxs.
  { intros x. unfold xs, iter_tag. rewrite list_elem_of_filter. tauto. }
  assert (NoDup (oid <$> xs)) as Hndxs.
  { apply (sublist_NoDup _ _ Hnd), fmap_sublist, sublist_filter. }
  assert (replace_where (among []) new updmXml = updmXml) as Hstart.
  { apply replace_where_none. intros y _. apply bool_decide_eq_false, not_elem_of_nil. }
  transitivity
    (fold_each xs (replaceSpatialReference_step (xmlParentMap updmXml) new)
       (replace_where (among []) new updmXml) w); [by rewrite Hstart|].
  rewrite (replaceSpatialReference_turns new updmXml w Hnd Hfresh xs []); [| done | |].
  - do 2 f_equal. apply replace_where_ext. intros y Hy. unfold among.
    apply bool_decide_ext. rewrite app_nil_r, elem_of_reverse, list_elem_of_fmap. split.
    + intros (z & Hz & [Hze Hzt]%Hxs). by rewrite (NoDup_fmap_eq oid _ y z Hnd Hy Hze Hz).
    + intros Hyt. exists y. split; [done|]. by apply Hxs.
  - intros x [Hxe Hxt]%Hxs. split_and!; [done | apply not_elem_of_nil |].
    destruct (parent_in_tree updmXml x Hxe) as [->|H]; done.
  - apply not_elem_of_nil.
Qed.

(** X1.  The loop of [replaceSpatialReference] on a parsed document whose
    root is no [SpatialReference] element, with a fragment that shares no
    object with the document: it returns, without a call to the platform,
    the document in which every outermost [SpatialReference] element has
    given way to the fragment, at the index where it stood.  A
    [SpatialReference] element below another one goes away with the outer
    one; nothing else changes. *)
Theorem replaceSpatialReference_replaces_outermost (updmXml newSpatialReferenceXml : Element)
    (w : World) :
  distinct_objects updmXml →
  tag updmXml ≠ "SpatialReference" →
  (∀ x, x ∈ iter updmXml → oid x ∉ oids newSpatialReferenceXml) →
  fold_each (iter_tag "SpatialReference" updmXml)
    (replaceSpatialReference_step (xmlParentMap updmXml) newSpatialReferenceXml) updmXml w
  = (w, inr (replace_outer newSpatialReferenceXml updmXml)).
Proof. apply replaceSpatialReference_loop. Qed.

(** X2.  When the root of the document is itself a [SpatialReference]
    element, the loop of [replaceSpatialReference] raises [KeyError] on its
    first turn: the root is the first element the loop comes to, and the
    turn for the root raises, whatever the document is by then, for the
    root has no entry in the dictionary of parents.  So the loop raises
    before any turn has taken an element out or put one in, and without
    a call. *)
Theorem replaceSpatialReference_root (updmXml newSpatialReferenceXml : Element) (w : World) :
  distinct_objects updmXml →
  tag updmXml = "SpatialReference" →
  head (iter_tag "SpatialReference" updmXml) = Some updmXml
  ∧ (∀ document,
       replaceSpatialReference_step (xmlParentMap updmXml) newSpatialReferenceXml
         document updmXml w
       = (w, inl KeyError))
  ∧ fold_each (iter_tag "SpatialReference" updmXml)
      (replaceSpatialReference_step (xmlParentMap updmXml) newSpatialReferenceXml) updmXml w
    = (w, inl KeyError).
Proof.
  intros Hnd Htag.
  assert (∀ document,
            replaceSpatialReference_step (xmlParentMap updmXml) newSpatialReferenceXml
              document updmXml w
            = (w, inl KeyError)) as Hturn.
  { intros document. unfold replaceSpatialReference_step, bind, some.
    by rewrite (xmlParentMap_root _ Hnd). }
  rewrite iter_tag_unfold, decide_True by done. split_and!; [done | done |].
  cbn [app fold_each]. unfold bind at 1. by rewrite Hturn.
Qed.

Lemma replaceSpatialReference_replaces_outermost_witness :
  fold_each (iter_tag "SpatialReference" Example.nested)
    (replaceSpatialReference_step (xmlParentMap Example.nested) Example.fragment)
    Example.nested initial
  = (initial, inr (replace_outer Example.fragment Example.nested))
  ∧ replace_outer Example.fragment Example.nested
    = Example.node 60 "Workspace" []
        [ Example.fragment;
          Example.node 64 "DataElement" []
            [ Example.leaf 65 "Name" "P_Pipes"; Example.fragment ] ].
Proof.
  split; [|reflexivity].
  apply (replaceSpatialReference_replaces_outermost Example.nested Example.fragment initial).
  - apply (bool_decide_unpack _). by vm_compute.
  - discriminate.
  - apply Forall_forall, (bool_decide_unpack _). by vm_compute.
Defined.

Lemma replaceSpatialReference_root_witness :
  let root := Example.node 61 "SpatialReference" [] [ Example.leaf 62 "WKT" "old" ] in
  fold_each (iter_tag "SpatialReference" root)
    (replaceSpatialReference_step (xmlParentMap root) Example.fragment) root initial
  = (initial, inl KeyError).
Proof.
  apply (replaceSpatialReference_root
           (Example.node 61 "SpatialReference" [] [ Example.leaf 62 "WKT" "old" ])
           Example.fragment initial).
  - apply (bool_decide_unpack _). by vm_compute.
  - reflexivity.
Defined.

(** ** What a computation adds to the trace *)

Lemma only_calls_ret {X} Q (a : X) : only_calls Q (ret a).
Proof. intros w. exists []. by rewrite app_nil_r. Qed.

Lemma only_calls_raise {X} Q e : only_calls Q (@raise X e).
Proof. intros w. exists []. by rewrite app_nil_r. Qed.

Lemma only_calls_lift {X} Q (r : Exn + X) : only_calls Q (lift r).
Proof. intros w. exists []. by rewrite app_nil_r. Qed.

Lemma only_calls_some {X} Q (o : option X) e : only_calls Q (some o e).
Proof. destruct o; [apply only_calls_ret | apply only_calls_raise]. Qed.

Lemma only_calls_get_world Q : only_calls Q get_world.
Proof. intros w. exists []. by rewrite app_nil_r. Qed.

Lemma only_calls_put_Lrs_Metadata Q rows : only_calls Q (put_Lrs_Metadata rows).
Proof. intros w. exists []. by rewrite app_nil_r. Qed.

Lemma only_calls_put_Lrs_Event_Behavior Q rows : only_calls Q (put_Lrs_Event_Behavior rows).
Proof. intros w. exists []. by rewrite app_nil_r. Qed.

Lemma only_calls_emit (Q : Call → Prop) c : Q c → only_calls Q (emit c).
Proof. intros Hc w. exists [c]. split; [done | by constructor]. Qed.

Lemma only_calls_bind {X Y} Q (m : M X) (k : X → M Y) :
  only_calls Q m → (∀ a, only_calls Q (k a)) → only_calls Q (bind m k).
Proof.
  intros Hm Hk w. destruct (Hm w) as (cs & Hcs & HQ). unfold bind.
  destruct (m w) as [w' [e|a]]; [by exists cs|].
  destruct (Hk a w') as (ds & Hds & HQ'). exists (cs ++ ds).
  cbn [fst] in Hcs. rewrite Hds, Hcs, app_assoc. split; [done | by apply Forall_app].
Qed.

Lemma only_calls_try_except {X} Q (body : M X) handler :
  only_calls Q body → (∀ e, only_calls Q (handler e)) → only_calls Q (try_except body handler).
Proof.
  intros Hm Hk w. destruct (Hm w) as (cs & Hcs & HQ). unfold try_except.
  destruct (body w) as [w' [e|a]]; [|by exists cs].
  destruct (Hk e w') as (ds & Hds & HQ'). exists (cs ++ ds).
  cbn [fst] in Hcs. rewrite Hds, Hcs, app_assoc. split; [done | by apply Forall_app].
Qed.

Lemma only_calls_try_finally {X} Q (body : M X) cleanup :
  only_calls Q body → only_calls Q cleanup → only_calls Q (try_finally body cleanup).
Proof.
  intros Hm Hk w. destruct (Hm w) as (cs & Hcs & HQ). unfold try_finally.
  destruct (body w) as [w' r]. destruct (Hk w') as (ds & Hds & HQ').
  exists (cs ++ ds). cbn [fst] in Hcs.
  destruct (cleanup w') as [w'' [e|[]]]; cbn [fst] in *;
    rewrite Hds, Hcs, app_assoc; (split; [done | by apply Forall_app]).
Qed.

Lemma only_calls_for_each {X} Q (xs : list X) body :
  (∀ x, only_calls Q (body x)) → only_calls Q (for_each xs body).
Proof.
  intros Hbody. induction xs as [|x xs IH]; [apply only_calls_ret|].
  apply only_calls_bind; [apply Hbody | by intros _].
Qed.

Lemma only_calls_fold_each {X S} Q (xs : list X) (body : S → X → M S) s :
  (∀ s x, only_calls Q (body s x)) → only_calls Q (fold_each xs body s).
Proof.
  intros Hbody. revert s. induction xs as [|x xs IH]; intros s; [apply only_calls_ret|].
  apply only_calls_bind; [apply Hbody | apply IH].
Qed.

Ltac calls_step :=
  first
    [ match goal with H : context [only_calls] |- _ => apply H end
    | apply only_calls_ret
    | apply only_calls_raise
    | apply only_calls_lift
    | apply only_calls_some
    | apply only_calls_get_world
    | apply only_calls_put_Lrs_Metadata
    | apply only_calls_put_Lrs_Event_Behavior
    | apply only_calls_emit
    | apply only_calls_bind; [|intros ?]
    | apply only_calls_try_except; [|intros ?]
    | apply only_calls_try_finally
    | apply only_calls_for_each; intros ?
    | apply only_calls_fold_each; intros ? ?
    | match goal with
      | |- only_calls _ (if ?b then _ else _) => destruct b
      | |- only_calls _ (match ?x with _ => _ end) => destruct x
      end
    | progress cbv zeta
    | progress unfold arcpy, logWarning, logError, setProgressor, setProgressor_counting, log,
        getXYToleranceParam, getZToleranceParam, validateInput, convertUnits, getUnitsNumber,
        getMetersPerUnit, deleteGdbItem, deleteFile, getXmlTree, _setTandR,
        setToleranceAndResolution, getSpatialReferenceXML, replaceSpatialReference_step,
        replaceSpatialReference, populateUpdmWorkspace, createUpdm, populateLrsWorkspace,
        UpdateCursor_Lrs_Metadata, setDerivedNetwork, updateEventBehaviorTable,
        updateContinuousMetadata, removeEngineeringFields, updateEventNetwork,
        addReferentMethodDomain, updateMetadata, addDomains, registerAsVersioned,
        addIndex_turn, addIndex, addIndexes, createLrs, removeDomains, removeDatasets,
        checkNames, start ].

Ltac calls := repeat calls_step.

Lemma stops_only_calls {X} Q (m : M X) : stops Q m → only_calls Q m.
Proof. intros H w. apply (H w). Qed.

Lemma stops_raise {X} Q e : stops Q (@raise X e).
Proof. intros w. split; [by exists e|]. exists []. by rewrite app_nil_r. Qed.

Lemma stops_bind_l {X Y} Q (m : M X) (k : X → M Y) : stops Q m → stops Q (bind m k).
Proof.
  intros Hm w. destruct (Hm w) as [[e He] Hcs]. unfold bind.
  destruct (m w) as [w' [e'|a]]; [|done]. split; [by exists e'|done].
Qed.

Lemma stops_bind {X Y} Q (m : M X) (k : X → M Y) :
  only_calls Q m → (∀ a, stops Q (k a)) → stops Q (bind m k).
Proof.
  intros Hm Hk w. split.
  - unfold bind. destruct (m w) as [w' [e|a]]; [by exists e|]. apply (Hk a w').
  - apply only_calls_bind; [done|]. intros a. apply stops_only_calls, Hk.
Qed.

Lemma stops_try_except {X} Q (body : M X) handler :
  stops Q body → (∀ e, stops Q (handler e)) → stops Q (try_except body handler).
Proof.
  intros Hm Hk w. split.
  - destruct (Hm w) as [[e He] _]. unfold try_except.
    destruct (body w) as [w' [e'|a]]; [|done]. apply (Hk e' w').
  - apply only_calls_try_except; [by apply stops_only_calls|].
    intros e. apply stops_only_calls, Hk.
Qed.

Lemma stops_try_finally {X} Q (body : M X) cleanup :
  stops Q body → only_calls Q cleanup → stops Q (try_finally body cleanup).
Proof.
  intros Hm Hk w. split.
  - destruct (Hm w) as [[e He] _]. unfold try_finally.
    destruct (body w) as [w' r]. cbn [snd] in He. subst r.
    destruct (cleanup w') as [w'' [e'|[]]]; [by exists e' | by exists e].
  - apply only_calls_try_finally; [by apply stops_only_calls | done].
Qed.

(** [logError] with [raiseError] raises. *)
Lemma stops_logError (Q : Call → Prop) message errorMessage :
  Q (AddError message) → stops Q (logError message errorMessage true).
Proof.
  intros HQ. unfold logError. apply stops_bind; [by apply only_calls_emit|].
  intros _. apply stops_raise.
Qed.

(** A unit of measure that the table of [convertUnits] does not have
    stops the conversion from meters. *)
Lemma convertUnits_unknown_stops (Q : Call → Prop) d toUnits :
  (∀ message, Q (AddError message)) →
  PyStr.lower toUnits ≠ "meters" →
  unitsConversions_dict !! PyStr.lower toUnits = None →
  stops Q (convertUnits d (Some toUnits) (Some "Meters")).
Proof.
  intros HQ Hne Hnone. unfold convertUnits. apply stops_try_except.
  - cbn [fmap option_fmap option_map].
    change (PyStr.lower "Meters") with "meters".
    rewrite decide_False by done. rewrite Hnone.
    destruct (unitsConversions_dict !! "meters");
      (apply stops_bind_l, stops_logError, HQ).
  - intros e. apply stops_bind; [|intros _; apply stops_raise].
    unfold logError. calls. apply HQ.
Qed.

(** The conversion of the M tolerance is reached by every run that gets
    past the name check, and it comes before the first import. *)
Lemma start_unknown_unit_stops (P : Params) (A : Platform)
    (updmXmlString lrsXmlString : string) :
  PyStr.lower (getMUnitsParam P) ≠ "meters" →
  unitsConversions_dict !! PyStr.lower (getMUnitsParam P) = None →
  stops (λ c, is_import c = false) (start P A updmXmlString lrsXmlString).
Proof.
  intros Hne Hnone. unfold start.
  apply stops_try_finally; [|calls; done].
  do 6 (apply stops_bind; [calls; done | intros ?]).
  apply stops_bind_l. unfold createUpdm. apply stops_bind_l.
  unfold replaceSpatialReference.
  do 3 (apply stops_bind; [calls; done | intros ?]).
  apply stops_bind_l. unfold setToleranceAndResolution.
  do 2 (apply stops_bind; [calls; done | intros ?]).
  apply stops_bind_l. by apply convertUnits_unknown_stops.
Qed.

(** X3.  A run whose measure unit is ASCII text and, in lower case,
    neither "meters" nor a key of the conversion table of [convertUnits]
    raises, and up to then it has made no import call: validation does not
    look at the unit, and the conversion of the M tolerance, which fails,
    comes before the first import.  (Conflicting items may have been
    deleted by then.) *)
Theorem unknown_measure_unit_stops_before_import (P : Params) (A : Platform)
    (updmXmlString lrsXmlString : string) :
  PyStr.is_ascii (getMUnitsParam P) = true →
  PyStr.lower (getMUnitsParam P) ≠ "meters" →
  unitsConversions_dict !! PyStr.lower (getMUnitsParam P) = None →
  stops (λ c, is_import c = false) (start P A updmXmlString lrsXmlString).
Proof. intros _. apply start_unknown_unit_stops. Qed.

Lemma unknown_measure_unit_stops_before_import_witness :
  let P := Example.with_mUnits (Some "Furlongs") Example.params in
  let A := Example.platform ["C:/data/updm.gdb/P_Valve"] true in
  stops (λ c, is_import c = false) (start P A "updm" "lrs")
  ∧ validateInput P initial = (initial, inr tt)
  ∧ (start P A "updm" "lrs" initial).2 = inl (ExecuteError cannot_calculate)
  ∧ existsb (λ c, match c with Delete_management _ => true | _ => false end)
      (trace (start P A "updm" "lrs" initial).1) = true.
Proof.
  split_and!.
  - apply (unknown_measure_unit_stops_before_import
             (Example.with_mUnits (Some "Furlongs") Example.params));
      [reflexivity | discriminate | reflexivity].
  - reflexivity.
  - by vm_compute.
  - by vm_compute.
Defined.

(** X5.  With [arcpy.env.overwriteOutput] off, a run deletes no domain,
    and the only item it ever deletes is the scratch feature class that
    [getSpatialReferenceXML] made, whatever the parameters, the documents
    and the answers of the platform are. *)
Theorem no_deletion_without_overwrite (P : Params) (A : Platform)
    (updmXmlString lrsXmlString : string) :
  overwriteOutput A = false →
  only_calls (spares_workspace A) (start P A updmXmlString lrsXmlString).
Proof.
  intros Hover.
  assert (∀ updmXml lrsXml workspace,
            only_calls (spares_workspace A) (checkNames P A updmXml lrsXml workspace))
    as Hcheck.
  { intros. unfold checkNames. rewrite Hover. calls; exact I. }
  unfold start. calls; first [exact I | reflexivity].
Qed.

Lemma no_deletion_without_overwrite_witness :
  only_calls (spares_workspace (Example.platform [] false))
    (start Example.params (Example.platform [] false) "updm" "lrs").
Proof. by apply (no_deletion_without_overwrite Example.params (Example.platform [] false)). Defined.

(** X4.  When [validateInput] raises, what it raises is an execution error
    with a message, and every run with these parameters is the same four
    calls: the blank message, the progress label, the error with that
    message, and the blank message of the [finally] clause.  The documents
    are not parsed and the platform is not asked anything. *)
Theorem rejected_run_only_logs (P : Params) (e : Exn) :
  (validateInput P initial).2 = inl e →
  ∃ message,
    e = ExecuteError message
    ∧ ∀ (A : Platform) (updmXmlString lrsXmlString : string) (w : World),
        start P A updmXmlString lrsXmlString w
        = (logged w [ AddMessage newline;
                      SetProgressorLabel "Executing Create UPDM Geodatabase...";
                      AddError message;
                      AddMessage newline ],
           inl (ExecuteError message)).
Proof.
  rewrite validateInput_outcome. destruct (first_complaint P) as [message|] eqn:Hm; [|done].
  intros [= <-]. exists message. split; [done|]. intros. by apply start_rejected.
Qed.

Lemma rejected_run_only_logs_witness :
  let P := {| outputGDBParam := ""; spatialReferenceParam := None; mUnitsParam := None;
              xyToleranceParam := None; zToleranceParam := None;
              eventRegistrationNetworkParam := ""; registerPipeSystemParam := None |} in
  ∃ message,
    ExecuteError "Please provide an Output GDB." = ExecuteError message
    ∧ ∀ A updmXmlString lrsXmlString w,
        start P A updmXmlString lrsXmlString w
        = (logged w [ AddMessage newline;
                      SetProgressorLabel "Executing Create UPDM Geodatabase...";
                      AddError message;
                      AddMessage newline ],
           inl (ExecuteError message)).
Proof. intros P. by apply (rejected_run_only_logs P). Defined.

(** X6.  With [arcpy.env.overwriteOutput] off, [checkNames] only writes
    messages, and it returns exactly when neither a declared dataset nor a
    declared domain exists already: both name checks return the empty
    list. *)
Theorem checkNames_without_overwrite (P : Params) (A : Platform) (updmXml lrsXml : Element)
    (workspace : string) (w : World) :
  overwriteOutput A = false →
  let run := checkNames P A updmXml lrsXml workspace w in
  (∃ cs, run.1 = logged w cs ∧ forallb is_message cs = true)
  ∧ (run.2 = inr tt ↔
     checkDatasetNames P A [updmXml; lrsXml] workspace = inr []
     ∧ checkDomainNames A [updmXml; lrsXml] workspace = inr []).
Proof.
  intros Hover. unfold checkNames, log, bind, lift, emit, ret. rewrite Hover.
  destruct (checkDatasetNames P A [updmXml; lrsXml] workspace) as [e|datasets];
    cbn [fst snd]; [split; [by eexists [_] | split; [done | by intros [? _]]]|].
  destruct (checkDomainNames A [updmXml; lrsXml] workspace) as [e|domains];
    cbn [fst snd]; [split; [by eexists [_] | split; [done | by intros [_ ?]]]|].
  case_decide as Hlen.
  - unfold logError, bind, emit, raise. cbn [fst snd]. rewrite logged_logged. split.
    + by eexists [_; _].
    + split; [done|]. intros [[= ->] [= ->]]. simpl in Hlen. lia.
  - cbn [fst snd]. split; [by eexists [_]|]. split; [|done]. intros _.
    destruct datasets, domains; simpl in Hlen; try done; exfalso; apply Hlen; lia.
Qed.

Lemma checkNames_without_overwrite_witness :
  let A := Example.platform ["C:/data/updm.gdb/P_Valve"] false in
  let run := checkNames Example.params A Example.updm Example.lrs "C:/data/updm.gdb" initial in
  (∃ cs, run.1 = logged initial cs ∧ forallb is_message cs = true)
  ∧ (run.2 = inr tt ↔
     checkDatasetNames Example.params A [Example.updm; Example.lrs] "C:/data/updm.gdb" = inr []
     ∧ checkDomainNames A [Example.updm; Example.lrs] "C:/data/updm.gdb" = inr []).
Proof.
  intros A.
  by apply (checkNames_without_overwrite Example.params A Example.updm Example.lrs).
Defined.

(** ** Unit conversion, continued *)

(** X9.  Every unit that [convertUnits] can convert has a units number:
    for a unit whose lower-case name is a key of the conversion table,
    [getUnitsNumber] returns a number other than 0 (the number of
    esriUnknownUnits) and logs no warning. *)
Theorem convertible_units_have_numbers (units : string) (w : World) :
  PyStr.lower units ∈ dom unitsConversions_dict →
  ∃ n, getUnitsNumber (Some units) w = (w, inr n) ∧ n ≠ 0%Z.
Proof.
  intros [v Hv%unitsConversions_lookup]%elem_of_dom.
  unfold getUnitsNumber, bind. cbn [fmap option_fmap option_map mbind option_bind].
  unfold unitsConversions in Hv.
  repeat (apply elem_of_cons in Hv as [Hv|Hv];
          [ injection Hv as -> _; eexists; split; [reflexivity | done] | ]).
  by apply elem_of_nil in Hv.
Qed.

Lemma convertible_units_have_numbers_witness :
  ∃ n, getUnitsNumber (Some "Nautical Miles") initial = (initial, inr n) ∧ n ≠ 0%Z.
Proof.
  apply (convertible_units_have_numbers "Nautical Miles" initial).
  apply (bool_decide_unpack _). by vm_compute.
Defined.

(** ** Scratch items *)

(** X10.  [deleteFile] and [deleteGdbItem] never raise.  For the empty
    name they do nothing; otherwise they make the one deletion call, and
    when that call fails they log the warning "Could not delete ..." and
    return all the same. *)
Theorem delete_helpers_swallow_failures (A : Platform) (item : string) (w : World) :
  deleteFile A item w
  = (logged w (if decide (item = "") then []
               else if fails A (os_remove item)
                    then [os_remove item; AddWarning ("Could not delete " +:+ item)]
                    else [os_remove item]),
     inr tt)
  ∧ deleteGdbItem A item w
    = (logged w (if decide (item = "") then []
                 else if fails A (Delete_management item)
                      then [Delete_management item; AddWarning ("Could not delete " +:+ item)]
                      else [Delete_management item]),
       inr tt).
Proof.
  unfold deleteFile, deleteGdbItem, try_except, arcpy, logWarning, bind, emit, raise, ret.
  case_decide; [by rewrite logged_nil|].
  destruct (fails A (os_remove item)), (fails A (Delete_management item));
    by rewrite ?logged_logged.
Qed.

(** X11.  [getSpatialReferenceXML] always tries to delete its scratch
    feature class and its scratch file, whether the creation or the export
    failed or not (the scratch names being non-empty); and it returns the
    first [SpatialReference] element of the exported document exactly when
    neither call fails, else it raises the failure of the first call that
    failed. *)
Theorem getSpatialReferenceXML_cleans_up (A : Platform) (sr : option SpatialReference)
    (w : World) :
  let fcPath := CreateScratchName A "srFC" (scratchGDB A) in
  let xmlPath := CreateScratchName A "srFC.xml" (scratchFolder A) in
  let create :=
    CreateFeatureclass_management (os_path_split A fcPath).1 (os_path_split A fcPath).2 sr in
  let export := ExportXMLWorkspaceDocument_management fcPath xmlPath "SCHEMA_ONLY" in
  let run := getSpatialReferenceXML A sr w in
  fcPath ≠ "" → xmlPath ≠ "" →
  run.2 = (if fails A create then inl (CallFailed create)
           else if fails A export then inl (CallFailed export)
           else inr (head (iter_tag "SpatialReference" (exported_document A sr))))
  ∧ ∃ cs, trace run.1 = trace w ++ cs
          ∧ Delete_management fcPath ∈ cs ∧ os_remove xmlPath ∈ cs.
Proof.
  intros fcPath xmlPath create export run Hfc Hxml. subst run.
  unfold getSpatialReferenceXML, try_finally, deleteGdbItem, deleteFile, try_except, arcpy,
    logWarning, bind, emit, raise, ret.
  fold fcPath xmlPath. rewrite !decide_False by done. fold create export.
  destruct (fails A create), (fails A export),
    (fails A (Delete_management fcPath)), (fails A (os_remove xmlPath));
    cbn [fst snd logged trace]; (split; [done|]);
    rewrite <- ?app_assoc; eexists; (split; [reflexivity|]); cbn [app];
    split; repeat first [apply list_elem_of_here | apply list_elem_of_further].
Qed.

Lemma getSpatialReferenceXML_cleans_up_witness :
  let A := Example.platform [] false in
  let run := getSpatialReferenceXML A (Some Example.spatialReference) initial in
  run.2 = inr (head (iter_tag "SpatialReference" Example.exported))
  ∧ ∃ cs, trace run.1 = trace initial ++ cs
          ∧ Delete_management "C:/scratch/scratch.gdb/srFC" ∈ cs
          ∧ os_remove "C:/scratch/srFC.xml" ∈ cs.
Proof.
  intros A.
  apply (getSpatialReferenceXML_cleans_up A (Some Example.spatialReference) initial);
    discriminate.
Defined.

(** ** The cursors *)

Lemma set_rows_one (rows : list Z) : ∀ k m,
  k + m = length rows →
  foldl (λ rows n, <[n := 1%Z]> rows) rows (seq k m) = take k rows ++ replicate m 1%Z.
Proof.
  intros k m. revert k rows. induction m as [|m IH]; intros k rows Hlen; cbn [seq foldl replicate].
  - rewrite app_nil_r, take_ge; [done | lia].
  - rewrite IH by (rewrite length_insert; lia).
    destruct (lookup_lt_is_Some_2 rows k) as [x Hx]; [lia|].
    rewrite (take_S_r _ _ 1%Z) by (apply list_lookup_insert_eq; lia).
    rewrite take_insert_ge by lia. by rewrite <- app_assoc.
Qed.

Lemma updateEventBehaviorTable_rows P A :
  (∀ n, fails A (updateRow (getFullTableName P A "Lrs_Event_Behavior") n) = false) →
  ∀ ns w,
    for_each ns
      (λ n, arcpy A (updateRow (getFullTableName P A "Lrs_Event_Behavior") n) ;;;
            w <- get_world ;;
            put_Lrs_Event_Behavior (<[n := 1%Z]> (Lrs_Event_Behavior w))) w
    = ({| trace := trace w ++ (updateRow (getFullTableName P A "Lrs_Event_Behavior") <$> ns);
          Lrs_Metadata := Lrs_Metadata w;
          Lrs_Event_Behavior := foldl (λ rows n, <[n := 1%Z]> rows) (Lrs_Event_Behavior w) ns |},
       inr tt).
Proof.
  intros Hok. induction ns as [|n ns IH]; intros w.
  - cbn. rewrite app_nil_r. by destruct w.
  - cbn [for_each]. unfold bind at 1. unfold arcpy at 1, bind, emit, get_world,
      put_Lrs_Event_Behavior, ret. rewrite Hok. cbn [logged trace Lrs_Metadata Lrs_Event_Behavior].
    rewrite IH. cbn [trace Lrs_Metadata Lrs_Event_Behavior fmap list_fmap foldl].
    by rewrite <- app_assoc.
Qed.

(** X12.  When no row update fails, [updateEventBehaviorTable] returns
    with the network id 1 in every row of [Lrs_Event_Behavior], having
    updated the rows in order, one call each; [Lrs_Metadata] is left
    alone. *)
Theorem updateEventBehaviorTable_sets_every_row (P : Params) (A : Platform) (w : World) :
  (∀ n, fails A (updateRow (getFullTableName P A "Lrs_Event_Behavior") n) = false) →
  ∃ w',
    updateEventBehaviorTable P A w = (w', inr tt)
    ∧ Lrs_Event_Behavior w' = replicate (length (Lrs_Event_Behavior w)) 1%Z
    ∧ Lrs_Metadata w' = Lrs_Metadata w
    ∧ trace w' = trace w ++ (updateRow (getFullTableName P A "Lrs_Event_Behavior")
                               <$> seq 0 (length (Lrs_Event_Behavior w))).
Proof.
  intros Hok. unfold updateEventBehaviorTable, bind at 1, get_world.
  rewrite (updateEventBehaviorTable_rows P A Hok). eexists. split; [done|].
  cbn [trace Lrs_Metadata Lrs_Event_Behavior]. split_and!; [|done..].
  by rewrite set_rows_one.
Qed.

Lemma updateEventBehaviorTable_sets_every_row_witness :
  let w := {| trace := []; Lrs_Metadata := []; Lrs_Event_Behavior := [2; 2; 1]%Z |} in
  ∃ w',
    updateEventBehaviorTable Example.params (Example.platform [] false) w = (w', inr tt)
    ∧ Lrs_Event_Behavior w' = [1; 1; 1]%Z
    ∧ Lrs_Metadata w' = []
    ∧ trace w' = updateRow "C:/data/updm.gdb/Lrs_Event_Behavior" <$> [0; 1; 2].
Proof.
  intros w.
  by apply (updateEventBehaviorTable_sets_every_row Example.params
              (Example.platform [] false) w).
Defined.

(** The turns of the cursor over [Lrs_Metadata] for the rows from [k]
    on, with a loop body that only computes: when the body succeeds on
    these rows and no row update fails, each of them is replaced by what
    the body makes of it, and the local state is threaded through. *)
Lemma UpdateCursor_Lrs_Metadata_turns {St} P A (body : St → Element → M (St * Element))
    (h : St → Element → St) (g : Element → Element) :
  (∀ n, fails A (updateRow (getFullTableName P A "Lrs_Metadata") n) = false) →
  ∀ m k w s,
    k + m ≤ length (Lrs_Metadata w) →
    Forall (λ x, ∀ s w, body s x w = (w, inr (h s x, g x)))
      (take m (drop k (Lrs_Metadata w))) →
    fold_each (seq k m)
      (λ s n,
         w <- get_world ;;
         metadataXml <- some (Lrs_Metadata w !! n) ValueError ;;
         r <- body s metadataXml ;;
         arcpy A (updateRow (getFullTableName P A "Lrs_Metadata") n) ;;;
         w <- get_world ;;
         put_Lrs_Metadata (<[n := r.2]> (Lrs_Metadata w)) ;;;
         ret r.1) s w
    = ({| trace := trace w ++ (updateRow (getFullTableName P A "Lrs_Metadata") <$> seq k m);
          Lrs_Metadata := take k (Lrs_Metadata w)
                          ++ (g <$> take m (drop k (Lrs_Metadata w)))
                          ++ drop (k + m) (Lrs_Metadata w);
          Lrs_Event_Behavior := Lrs_Event_Behavior w |},
       inr (foldl h s (take m (drop k (Lrs_Metadata w))))).
Proof.
  intros Hok. induction m as [|m IH]; intros k w s Hlen Hrows.
  - cbn [seq fold_each fmap list_fmap]. rewrite app_nil_r, Nat.add_0_r, take_0.
    cbn [fmap list_fmap app foldl]. rewrite take_drop. by destruct w.
  - destruct (lookup_lt_is_Some_2 (Lrs_Metadata w) k) as [x Hx]; [lia|].
    rewrite (drop_S _ _ _ Hx), firstn_cons in Hrows |- *.
    apply Forall_cons in Hrows as [Hfx Hrows].
    cbn [seq fold_each]. unfold bind at 1.
    unfold bind at 1, get_world at 1. unfold bind at 1. rewrite Hx. cbn [some ret].
    unfold bind at 1. rewrite Hfx.
    unfold bind at 1, arcpy at 1, bind at 1, emit at 1. rewrite Hok.
    unfold bind, get_world, put_Lrs_Metadata, ret.
    cbn [logged trace Lrs_Metadata Lrs_Event_Behavior fst snd].
    rewrite IH; cbn [trace Lrs_Metadata Lrs_Event_Behavior].
    + rewrite (take_S_r _ _ (g x)) by (apply list_lookup_insert_eq; by eapply lookup_lt_Some).
      rewrite take_insert_ge, !drop_insert_lt by lia.
      cbn [fmap list_fmap foldl].
      replace (k + S m) with (S k + m) by lia.
      by rewrite <- !app_assoc.
    + rewrite length_insert. lia.
    + by rewrite drop_insert_lt by lia.
Qed.

(** The loop body of the two patchers. *)
Lemma patcher_body (f : Element → Exn + Element) (g : Element → Element) rows :
  Forall (λ x, f x = inr (g x)) rows →
  Forall (λ x, ∀ (s : unit) w,
            (r <- lift (f x) ;; ret (tt, r)) w = (w, inr ((λ _ _, tt) s x, g x))) rows.
Proof.
  intros Hrows. eapply Forall_impl; [exact Hrows|].
  intros x Hx s w. unfold bind, lift. by rewrite Hx.
Qed.

Lemma fold_each_app {X S} (xs ys : list X) (body : S → X → M S) s w :
  fold_each (xs ++ ys) body s w = bind (fold_each xs body s) (fold_each ys body) w.
Proof.
  revert s w. induction xs as [|x xs IH]; intros s w; [done|].
  cbn [app fold_each]. unfold bind in *. destruct (body s x w) as [w' [e|a]]; [done|].
  apply IH.
Qed.

Lemma setContinuous_eventTable_RouteId c :
  get "RouteIdFieldName" (setContinuous_eventTable c) = Some "CONTINROUTEID".
Proof.
  unfold setContinuous_eventTable.
  case_decide; repeat (rewrite get_set_eq || rewrite get_set_ne by discriminate); done.
Qed.

(** X13.  [updateContinuousMetadata] on the table: when every row of
    [Lrs_Metadata] has the shape of the LRS metadata and no row update
    fails, it returns, every row is what the loop body makes of it, rows
    are updated in order, and afterwards every [EventTable] element of
    every row has [ToRouteIdFieldName] "" and [RouteIdFieldName]
    "CONTINROUTEID". *)
Theorem updateContinuousMetadata_every_row (P : Params) (A : Platform) (w : World) :
  Forall events_registered_with_engineering (Lrs_Metadata w) →
  (∀ n, fails A (updateRow (getFullTableName P A "Lrs_Metadata") n) = false) →
  ∃ w',
    updateContinuousMetadata P A w = (w', inr tt)
    ∧ Forall2 (λ before after, updateContinuousMetadata_row before = inr after)
        (Lrs_Metadata w) (Lrs_Metadata w')
    ∧ Forall (λ after, ∀ eventTable, eventTable ∈ iter_tag "EventTable" after →
                get "ToRouteIdFieldName" eventTable = Some ""
                ∧ get "RouteIdFieldName" eventTable = Some "CONTINROUTEID")
        (Lrs_Metadata w')
    ∧ Lrs_Event_Behavior w' = Lrs_Event_Behavior w
    ∧ trace w' = trace w ++ (updateRow (getFullTableName P A "Lrs_Metadata")
                               <$> seq 0 (length (Lrs_Metadata w))).
Proof.
  intros Hrows Hok.
  set (g := λ x, match updateContinuousMetadata_row x with inr y => y | inl _ => x end).
  assert (Forall (λ x, updateContinuousMetadata_row x = inr (g x)
                       ∧ ∀ eventTable, eventTable ∈ iter_tag "EventTable" (g x) →
                           get "ToRouteIdFieldName" eventTable = Some ""
                           ∧ get "RouteIdFieldName" eventTable = Some "CONTINROUTEID")
            (Lrs_Metadata w)) as Hg.
  { eapply Forall_impl; [exact Hrows|]. cbn beta. intros x Hx.
    destruct (updateContinuousMetadata_row_moves x Hx)
      as (m' & _ & _ & engineering & _ & Hrun & _ & _ & _ & _ & _ & Hall).
    unfold g. rewrite Hrun. split; [done|]. intros eventTable. rewrite Hall.
    intros (c & -> & _)%list_elem_of_fmap.
    split; [apply setContinuous_eventTable_ToRouteId | apply setContinuous_eventTable_RouteId]. }
  apply Forall_and in Hg as [Hrun Hpost].
  unfold updateContinuousMetadata, UpdateCursor_Lrs_Metadata, bind at 1, get_world.
  rewrite (UpdateCursor_Lrs_Metadata_turns P A _ (λ _ _, tt) g Hok);
    [| done | rewrite drop_0, take_ge by done; by apply patcher_body].
  eexists. split; [by destruct (foldl _ _ _)|]. cbn [trace Lrs_Metadata Lrs_Event_Behavior take drop app].
  rewrite take_0, drop_0, take_ge, drop_ge, app_nil_r by (cbn; lia). cbn [app].
  split_and!; [| |done..].
  - apply Forall2_fmap_r, Forall_Forall2_diag, Hrun.
  - by apply Forall_fmap.
Qed.

Lemma updateContinuousMetadata_every_row_witness :
  let w := {| trace := []; Lrs_Metadata := [Example.metadata]; Lrs_Event_Behavior := [] |} in
  ∃ w',
    updateContinuousMetadata Example.params (Example.platform [] false) w = (w', inr tt)
    ∧ Forall2 (λ before after, updateContinuousMetadata_row before = inr after)
        [Example.metadata] (Lrs_Metadata w')
    ∧ Forall (λ after, ∀ eventTable, eventTable ∈ iter_tag "EventTable" after →
                get "ToRouteIdFieldName" eventTable = Some ""
                ∧ get "RouteIdFieldName" eventTable = Some "CONTINROUTEID")
        (Lrs_Metadata w')
    ∧ Lrs_Event_Behavior w' = []
    ∧ trace w' = [updateRow "C:/data/updm.gdb/Lrs_Metadata" 0].
Proof.
  intros w.
  apply (updateContinuousMetadata_every_row Example.params (Example.platform [] false) w);
    [|done].
  constructor; [apply metadata_shape | constructor].
Defined.

(** X14.  [setDerivedNetwork] on the table: when in every row of
    [Lrs_Metadata] the engineering network has an [EventTables] element and
    no row update fails, it returns, every row is what the loop body makes
    of it, and afterwards every event table of the engineering network of
    every row stores the derived fields. *)
Theorem setDerivedNetwork_every_row (P : Params) (A : Platform) (w : World) :
  Forall (λ metadataXml, ∃ engineering,
            network "P_EngineeringNetwork" metadataXml = Some engineering
            ∧ is_Some (find "EventTables" engineering)) (Lrs_Metadata w) →
  (∀ n, fails A (updateRow (getFullTableName P A "Lrs_Metadata") n) = false) →
  ∃ w',
    setDerivedNetwork P A w = (w', inr tt)
    ∧ Forall2 (λ before after, setDerivedNetwork_row before = inr after)
        (Lrs_Metadata w) (Lrs_Metadata w')
    ∧ Forall (λ after, ∃ engineering,
                network "P_EngineeringNetwork" after = Some engineering
                ∧ ∀ eventTable, eventTable ∈ event_tables engineering →
                                stores_derived_fields eventTable)
        (Lrs_Metadata w')
    ∧ Lrs_Event_Behavior w' = Lrs_Event_Behavior w
    ∧ trace w' = trace w ++ (updateRow (getFullTableName P A "Lrs_Metadata")
                               <$> seq 0 (length (Lrs_Metadata w))).
Proof.
  intros Hrows Hok.
  set (g := λ x, match setDerivedNetwork_row x with inr y => y | inl _ => x end).
  assert (Forall (λ x, setDerivedNetwork_row x = inr (g x)
                       ∧ ∃ engineering,
                           network "P_EngineeringNetwork" (g x) = Some engineering
                           ∧ ∀ eventTable, eventTable ∈ event_tables engineering →
                                           stores_derived_fields eventTable)
            (Lrs_Metadata w)) as Hg.
  { eapply Forall_impl; [exact Hrows|]. cbn beta. intros x (engineering & Heng & Hevents).
    destruct (setDerivedNetwork_row_derives x engineering Heng Hevents)
      as (m' & engineering' & Hrun & Hnet & Htables).
    unfold g. rewrite Hrun. split; [done|]. exists engineering'. split; [done|].
    intros eventTable. rewrite Htables.
    intros (c & -> & _)%list_elem_of_fmap. apply setDerived_eventTable_attributes. }
  apply Forall_and in Hg as [Hrun Hpost].
  unfold setDerivedNetwork, UpdateCursor_Lrs_Metadata, bind at 1, get_world.
  rewrite (UpdateCursor_Lrs_Metadata_turns P A _ (λ _ _, tt) g Hok);
    [| done | rewrite drop_0, take_ge by done; by apply patcher_body].
  eexists. split; [by destruct (foldl _ _ _)|]. cbn [trace Lrs_Metadata Lrs_Event_Behavior take drop app].
  rewrite take_0, drop_0, take_ge, drop_ge, app_nil_r by (cbn; lia). cbn [app].
  split_and!; [| |done..].
  - apply Forall2_fmap_r, Forall_Forall2_diag, Hrun.
  - by apply Forall_fmap.
Qed.

Lemma setDerivedNetwork_every_row_witness :
  let w := {| trace := []; Lrs_Metadata := [Example.metadata]; Lrs_Event_Behavior := [] |} in
  ∃ w',
    setDerivedNetwork Example.params (Example.platform [] false) w = (w', inr tt)
    ∧ Forall2 (λ before after, setDerivedNetwork_row before = inr after)
        [Example.metadata] (Lrs_Metadata w')
    ∧ Forall (λ after, ∃ engineering,
                network "P_EngineeringNetwork" after = Some engineering
                ∧ ∀ eventTable, eventTable ∈ event_tables engineering →
                                stores_derived_fields eventTable)
        (Lrs_Metadata w')
    ∧ Lrs_Event_Behavior w' = []
    ∧ trace w' = [updateRow "C:/data/updm.gdb/Lrs_Metadata" 0].
Proof.
  intros w.
  apply (setDerivedNetwork_every_row Example.params (Example.platform [] false) w); [|done].
  constructor; [|constructor].
  destruct metadata_shape as [_ (engineering & Heng & Hevents & _)]. by exists engineering.
Defined.

Lemma UpdateCursor_Lrs_Metadata_turn_raises {St} P A (body : St → Element → M (St * Element))
    s n x e w :
  Lrs_Metadata w !! n = Some x → body s x w = (w, inl e) →
  (w <- get_world ;;
   metadataXml <- some (Lrs_Metadata w !! n) ValueError ;;
   r <- body s metadataXml ;;
   arcpy A (updateRow (getFullTableName P A "Lrs_Metadata") n) ;;;
   w <- get_world ;;
   put_Lrs_Metadata (<[n := r.2]> (Lrs_Metadata w)) ;;;
   ret r.1) w
  = (w, inl e).
Proof.
  intros Hx Hf. unfold bind at 1, get_world at 1. unfold bind at 1. rewrite Hx. cbn [some ret].
  unfold bind at 1. by rewrite Hf.
Qed.

(** X15.  The cursor of [setDerivedNetwork] is not all-or-nothing: when
    the loop body raises on a row (for one, [AttributeError] on a document
    without a [Networks] element), the function raises that exception; the
    rows before the bad row have been rewritten and updated by then, the
    bad row and the rows behind it are as they were. *)
Theorem setDerivedNetwork_stops_at_first_bad_row (P : Params) (A : Platform) (w : World)
    (before behind : list Element) (bad : Element) (e : Exn) :
  Lrs_Metadata w = before ++ bad :: behind →
  Forall (λ metadataXml, ∃ engineering,
            network "P_EngineeringNetwork" metadataXml = Some engineering
            ∧ is_Some (find "EventTables" engineering)) before →
  setDerivedNetwork_row bad = inl e →
  (∀ n, fails A (updateRow (getFullTableName P A "Lrs_Metadata") n) = false) →
  ∃ w' after,
    setDerivedNetwork P A w = (w', inl e)
    ∧ Lrs_Metadata w' = after ++ bad :: behind
    ∧ Forall2 (λ b a, setDerivedNetwork_row b = inr a) before after
    ∧ trace w' = trace w ++ (updateRow (getFullTableName P A "Lrs_Metadata")
                               <$> seq 0 (length before)).
Proof.
  intros Hrows Hbefore Hbad Hok.
  set (g := λ x, match setDerivedNetwork_row x with inr y => y | inl _ => x end).
  assert (Forall (λ x, setDerivedNetwork_row x = inr (g x)) before) as Hg.
  { eapply Forall_impl; [exact Hbefore|]. cbn beta. intros x (engineering & Heng & Hevents).
    destruct (setDerivedNetwork_row_derives x engineering Heng Hevents)
      as (m' & _ & Hrun & _). unfold g. by rewrite Hrun. }
  unfold setDerivedNetwork, UpdateCursor_Lrs_Metadata, bind at 1, get_world.
  rewrite Hrows, length_app. cbn [length]. rewrite seq_app, fold_each_app.
  unfold bind at 1.
  rewrite (UpdateCursor_Lrs_Metadata_turns P A _ (λ _ _, tt) g Hok).
  2:{ rewrite Hrows, length_app. cbn. lia. }
  2:{ rewrite Hrows, drop_0, take_app_length. by apply patcher_body. }
  cbn [Nat.add]. rewrite Hrows, take_0, drop_0, take_app_length, drop_app_length.
  cbn [app seq fold_each]. unfold bind at 1.
  rewrite (UpdateCursor_Lrs_Metadata_turn_raises P A
             (λ _ metadataXml, r <- lift (setDerivedNetwork_row metadataXml) ;; ret (tt, r))
             tt (length before) bad e);
    [| cbn [Lrs_Metadata]; by rewrite list_lookup_middle by (by rewrite length_fmap)
     | unfold bind, lift; by rewrite Hbad].
  eexists _, (g <$> before). split; [done|]. cbn [trace Lrs_Metadata].
  split_and!; [done | | done].
  apply Forall2_fmap_r, Forall_Forall2_diag, Hg.
Qed.

Lemma setDerivedNetwork_stops_at_first_bad_row_witness :
  let bad := Example.node 70 "Lrs" [] [] in
  let w := {| trace := []; Lrs_Metadata := [Example.metadata; bad; Example.metadata];
              Lrs_Event_Behavior := [] |} in
  ∃ w' after,
    setDerivedNetwork Example.params (Example.platform [] false) w = (w', inl AttributeError)
    ∧ Lrs_Metadata w' = after ++ [bad; Example.metadata]
    ∧ Forall2 (λ b a, setDerivedNetwork_row b = inr a) [Example.metadata] after
    ∧ trace w' = [updateRow "C:/data/updm.gdb/Lrs_Metadata" 0].
Proof.
  intros bad w.
  apply (setDerivedNetwork_stops_at_first_bad_row Example.params (Example.platform [] false)
           w [Example.metadata] [Example.metadata] bad AttributeError); [done | | done | done].
  constructor; [|constructor].
  destruct metadata_shape as [_ (engineering & Heng & Hevents & _)]. by exists engineering.
Defined.

(** ** What a whole run does and does not do *)

(** X16.  Unless the event registration network is "CONTINUOUS", a run
    deletes no field: [removeEngineeringFields] is reached in that mode
    only, and no other function deletes a field. *)
Theorem no_field_deleted_unless_continuous (P : Params) (A : Platform)
    (updmXmlString lrsXmlString : string) :
  getEventRegistrationNetworkParamAsText P ≠ "CONTINUOUS" →
  only_calls (λ c, is_field_deletion c = false) (start P A updmXmlString lrsXmlString).
Proof.
  intros Hmode.
  assert (∀ lrsMetadata,
            only_calls (λ c, is_field_deletion c = false) (updateEventNetwork P A lrsMetadata))
    as Hupdate.
  { intros. unfold updateEventNetwork. cbv zeta. rewrite decide_False by done. calls; done. }
  unfold start. calls; done.
Qed.

Lemma no_field_deleted_unless_continuous_witness :
  only_calls (λ c, is_field_deletion c = false)
    (start Example.params (Example.platform [] false) "updm" "lrs").
Proof.
  by apply (no_field_deleted_unless_continuous Example.params (Example.platform [] false)).
Defined.

(** X17.  Unless the output workspace is a remote database, a run
    registers nothing as versioned. *)
Theorem versioning_only_on_remote_database (P : Params) (A : Platform)
    (updmXmlString lrsXmlString : string) :
  workspaceType A (getOutputGDBParamAsText P) ≠ "RemoteDatabase" →
  only_calls (λ c, is_versioning c = false) (start P A updmXmlString lrsXmlString).
Proof.
  intros Htype.
  assert (only_calls (λ c, is_versioning c = false)
            (registerAsVersioned P A (getOutputGDBParamAsText P))) as Hregister.
  { unfold registerAsVersioned. rewrite decide_False by done. calls. }
  unfold start. calls; done.
Qed.

Lemma versioning_only_on_remote_database_witness :
  only_calls (λ c, is_versioning c = false)
    (start Example.params (Example.platform [] false) "updm" "lrs").
Proof.
  by apply (versioning_only_on_remote_database Example.params (Example.platform [] false)).
Defined.

(** *** The imports *)

Lemma omap_import_call_quiet cs :
  Forall (λ c, is_import c = false) cs → omap import_call cs = [].
Proof.
  induction 1 as [|c cs Hc _ IH]; [done|]. cbn [omap list_omap].
  destruct c; try done.
Qed.

Lemma imports_as_quiet {X} (m : M X) :
  only_calls (λ c, is_import c = false) m → imports_as [] m.
Proof.
  intros Hm w. destruct (Hm w) as (cs & Hcs & Hquiet). exists cs.
  by rewrite (omap_import_call_quiet cs Hquiet).
Qed.

Lemma imports_as_bind {X Y} l1 l2 (m : M X) (k : X → M Y) :
  imports_as l1 m → (∀ a, imports_as l2 (k a)) → imports_as (l1 ++ l2) (bind m k).
Proof.
  intros Hm Hk w. destruct (Hm w) as (cs & Hcs & Hpre & Hall). unfold bind.
  destruct (m w) as [w' [e|a]]; cbn [fst snd] in *.
  - exists cs. split_and!; [done | by apply prefix_app_r | done].
  - destruct (Hk a w') as (ds & Hds & Hpre' & Hall'). exists (cs ++ ds).
    rewrite Hds, Hcs, app_assoc, omap_app, (Hall a eq_refl). split_and!; [done | |].
    + by apply prefix_app.
    + intros b Hb. by rewrite (Hall' b Hb).
Qed.

Lemma imports_as_try_finally {X} l (body : M X) cleanup :
  imports_as l body → only_calls (λ c, is_import c = false) cleanup →
  imports_as l (try_finally body cleanup).
Proof.
  intros Hm Hk w. destruct (Hm w) as (cs & Hcs & Hpre & Hall). unfold try_finally.
  destruct (body w) as [w' r]. destruct (Hk w') as (ds & Hds & Hquiet).
  exists (cs ++ ds). cbn [fst snd] in *.
  assert (omap import_call (cs ++ ds) = omap import_call cs) as Hsame
    by (by rewrite omap_app, (omap_import_call_quiet ds Hquiet), app_nil_r).
  rewrite Hsame.
  destruct (cleanup w') as [w'' [e|[]]]; cbn [fst snd] in *;
    rewrite Hds, Hcs, app_assoc; (split_and!; [done | done |]); [done|].
  intros a ->. by apply (Hall a).
Qed.

Lemma imports_as_import A workspace path importType :
  imports_as [(workspace, path, importType)]
    (arcpy A (ImportXMLWorkspaceDocument_management workspace path importType)).
Proof.
  intros w. exists [ImportXMLWorkspaceDocument_management workspace path importType].
  unfold arcpy, bind, emit. destruct (fails A _); by cbn.
Qed.

Ltac quiet := apply imports_as_quiet; calls; done.

(** X18.  The imports of a run are, in this order and into the output
    workspace, the UPDM scratch file with "SCHEMA_ONLY" and the LRS scratch
    file with "DATA": a run that returns has made exactly these two import
    calls, a run that raises has made the first of them, or none, or
    both. *)
Theorem imports_of_a_run (P : Params) (A : Platform) (updmXmlString lrsXmlString : string) :
  imports_as
    [ (getOutputGDBParamAsText P, CreateScratchName A "updm.xml" (scratchFolder A),
       "SCHEMA_ONLY");
      (getOutputGDBParamAsText P, CreateScratchName A "lrs.xml" (scratchFolder A), "DATA") ]
    (start P A updmXmlString lrsXmlString).
Proof.
  unfold start. apply imports_as_try_finally; [|calls; done].
  do 6 (apply (imports_as_bind [] _); [quiet | intros ?]).
  apply (imports_as_bind [_] [_]).
  - unfold createUpdm. apply (imports_as_bind [] _); [quiet | intros ?].
    unfold populateUpdmWorkspace. apply imports_as_try_finally; [|calls; done].
    do 2 (apply (imports_as_bind [] _); [quiet | intros ?]).
    apply (imports_as_bind [_] []); [apply imports_as_import | intros ?; quiet].
  - intros _. unfold createLrs.
    apply (imports_as_bind [_] []); [|intros ?; quiet].
    unfold populateLrsWorkspace. apply imports_as_try_finally; [|calls; done].
    do 2 (apply (imports_as_bind [] _); [quiet | intros ?]).
    apply (imports_as_bind [_] []); [apply imports_as_import | intros ?; quiet].
Qed.

(** ** The continuous network in [setDerivedNetwork] *)

(** X19.  The truth value of an element is whether it has children, so
    the test [if (continuousNetwork)] of [setDerivedNetwork] marks the
    continuous network as derived ([IsDerived] "true", [DerivedFromNetwork]
    "2") when it has a child element, and leaves a continuous network
    without children as it is.  (The engineering network is taken to have
    its [EventTables] element, so that the body returns.) *)
Theorem setDerivedNetwork_marks_network_with_children (metadataXml continuous engineering : Element) :
  network "P_ContinuousNetwork" metadataXml = Some continuous →
  network "P_EngineeringNetwork" metadataXml = Some engineering →
  is_Some (find "EventTables" engineering) →
  ∃ result continuous',
    setDerivedNetwork_row metadataXml = inr result
    ∧ network "P_ContinuousNetwork" result = Some continuous'
    ∧ (children continuous = [] → continuous' = continuous)
    ∧ (children continuous ≠ [] →
       continuous' = set "IsDerived" "true" (set "DerivedFromNetwork" "2" continuous)).
Proof.
  intros Hcont Heng Hevents. unfold network, find, find_attr in *.
  destruct (find_i "Networks" metadataXml) as [[iN networks]|] eqn:HN; [|done].
  cbn [fmap option_fmap option_map mbind option_bind snd] in Hcont, Heng.
  destruct (find_attr_i "Network" "Name" "P_ContinuousNetwork" networks)
    as [[iC c]|] eqn:HC; [|done].
  destruct (find_attr_i "Network" "Name" "P_EngineeringNetwork" networks)
    as [[iE e]|] eqn:HE; [|done].
  cbn in Hcont, Heng. injection Hcont as ->. injection Heng as ->.
  destruct (find_i "EventTables" engineering) as [[iT events]|] eqn:HT;
    [|by destruct Hevents].
  clear Hevents.
  pose proof (list_find_lookup _ _ _ _ HN) as [HNl HNt].
  pose proof (list_find_lookup _ _ _ _ HC) as [HCl [HCt HCn]].
  pose proof (list_find_lookup _ _ _ _ HE) as [HEl [HEt HEn]].
  pose proof (list_find_lookup _ _ _ _ HT) as [HTl HTt].
  assert (iC ≠ iE) as Hne.
  { intros ->. rewrite HCl in HEl. injection HEl as ->. rewrite HCn in HEn. discriminate HEn. }
  assert (truthy (Some engineering) = true) as Htruthy.
  { unfold truthy, len. apply lookup_lt_Some in HTl.
    destruct (children engineering); [simpl in HTl; lia | done]. }
  set (continuous' := if truthy (Some continuous)
                      then set "IsDerived" "true" (set "DerivedFromNetwork" "2" continuous)
                      else continuous).
  set (networks1 := if truthy (Some continuous) then set_child iC continuous' networks
                    else networks).
  assert (tag networks1 = tag networks) as Htag1
    by (unfold networks1; by destruct (truthy (Some continuous))).
  assert (find_attr_i "Network" "Name" "P_ContinuousNetwork" networks1
          = Some (iC, continuous')) as HC1.
  { unfold networks1, continuous'. destruct (truthy (Some continuous)); [|done].
    rewrite (find_attr_i_set_child _ _ _ iC iC continuous _ networks HC continuous HCl);
      [by rewrite decide_True by done | done | by rewrite !get_set]. }
  assert (find_attr_i "Network" "Name" "P_EngineeringNetwork" networks1
          = Some (iE, engineering)) as HE1.
  { unfold networks1, continuous'. destruct (truthy (Some continuous)); [|done].
    rewrite (find_attr_i_set_child _ _ _ iE iC engineering _ networks HE continuous HCl);
      [by rewrite decide_False by done | done | by rewrite !get_set]. }
  pose proof (list_find_lookup _ _ _ _ HE1) as [HE1l _].
  set (events' := update_children "EventTable" setDerived_eventTable events).
  set (engineering' := set_child iT events' engineering).
  set (networks2 := set_child iE engineering' networks1).
  exists (set_child iN networks2 metadataXml), continuous'. split_and!.
  - unfold setDerivedNetwork_row. rewrite HN. cbn [need rbind]. rewrite HC, HE.
    rewrite Htruthy, HT. cbn [need rbind].
    unfold networks2, engineering', events', networks1, continuous'.
    by destruct (truthy (Some continuous)).
  - rewrite (find_i_set_child _ _ networks) by done.
    cbn [fmap option_fmap option_map mbind option_bind snd]. unfold networks2.
    rewrite (find_attr_i_set_child _ _ _ iC iE continuous' _ networks1 HC1 engineering HE1l)
      by done.
    by rewrite decide_False by done.
  - intros Hnone. unfold continuous', truthy, len. by rewrite Hnone.
  - intros Hsome. unfold continuous', truthy, len. by destruct (children continuous).
Qed.

Lemma setDerivedNetwork_marks_network_with_children_witness :
  let continuous :=
    Example.node 82 "Network" [("Name", "P_ContinuousNetwork"); ("IsDerived", "false")] [] in
  let engineering :=
    Example.node 83 "Network" [("Name", "P_EngineeringNetwork")]
      [ Example.node 84 "EventTables" [] [] ] in
  let metadataXml :=
    Example.node 80 "Lrs" [] [ Example.node 81 "Networks" [] [continuous; engineering] ] in
  ∃ result continuous',
    setDerivedNetwork_row metadataXml = inr result
    ∧ network "P_ContinuousNetwork" result = Some continuous'
    ∧ get "IsDerived" continuous' = Some "false".
Proof.
  intros continuous engineering metadataXml.
  destruct (setDerivedNetwork_marks_network_with_children metadataXml continuous engineering)
    as (result & continuous' & Hrun & Hnet & Hnone & _); [done | done | by eexists |].
  exists result, continuous'. split_and!; [done | done |]. by rewrite Hnone.
Defined.

(** ** Changes of every element with a tag *)

Lemma update_all_unfold t f e :
  update_all t f e
  = let e' := with_children e (map (update_all t f) (children e)) in
    if decide (tag e = t) then f e' else e'.
Proof. by destruct e. Qed.

Lemma flat_map_map {X Y Z} (f : Y → list Z) (g : X → Y) l :
  flat_map f (map g l) = flat_map (λ x, f (g x)) l.
Proof. induction l as [|x l IH]; [done|]. simpl. by rewrite IH. Qed.

Lemma Forall2_flat_map {X Y Z} (R : Y → Z → Prop) (f : X → list Y) (g : X → list Z) l :
  Forall (λ c, Forall2 R (f c) (g c)) l → Forall2 R (flat_map f l) (flat_map g l).
Proof. induction 1 as [|c l Hc _ IH]; [constructor|]. simpl. by apply Forall2_app. Qed.

Lemma Forall2_chain {X Y Z} (R : X → Y → Prop) (S : Y → Z → Prop) (T : X → Z → Prop)
    l1 l2 l3 :
  (∀ x y z, R x y → S y z → T x z) →
  Forall2 R l1 l2 → Forall2 S l2 l3 → Forall2 T l1 l3.
Proof.
  intros HT HR. revert l3. induction HR as [|x y l1 l2 Hxy _ IH]; intros l3 HS.
  - apply Forall2_nil_inv_l in HS as ->. constructor.
  - apply Forall2_cons_inv_l in HS as (z & l3' & Hyz & HS & ->).
    constructor; [by eapply HT | by apply IH].
Qed.

(** A change [f] that leaves the children alone, applied to every element
    with tag [t]: the elements of the tree are, in order, the former ones,
    changed by [f] where the tag is [t]. *)
Lemma update_all_nodes t (f : Element → Element) e :
  (∀ z cs, f (with_children z cs) = with_children (f z) cs) →
  Forall2 (λ x y, same_node (if decide (tag x = t) then f x else x) y)
    (iter e) (iter (update_all t f e)).
Proof.
  intros Hf. induction e as [e IH] using Element_tree_ind.
  rewrite update_all_unfold. cbv zeta. rewrite (iter_unfold e).
  assert (∀ root, with_children root [] = with_children
                    (if decide (tag e = t) then f e else e) [] →
                  children root = map (update_all t f) (children e) →
                  Forall2 (λ x y, same_node (if decide (tag x = t) then f x else x) y)
                    (e :: flat_map iter (children e)) (iter root)) as Hroot.
  { intros root Hnode Hchildren. rewrite (iter_unfold root), Hchildren, flat_map_map.
    constructor; [done|]. by apply Forall2_flat_map. }
  apply Hroot.
  - case_decide; [|by destruct e].
    by rewrite !Hf.
  - case_decide; [|by destruct e].
    by rewrite Hf.
Qed.

Lemma update_all_absent t f e : iter_tag t e = [] → update_all t f e = e.
Proof.
  induction e as [e IH] using Element_tree_ind. intros Hnone.
  rewrite update_all_unfold. cbv zeta.
  rewrite decide_False by (by apply iter_tag_nil_tag).
  transitivity (with_children e (children e)); [|apply with_children_same].
  f_equal. apply map_same.
  eapply Forall_impl; [apply Forall_with_elem_of, IH|].
  cbn beta. intros c [Hc Hin]. apply Hc. by apply (iter_tag_nil_children t e).
Qed.

Lemma same_node_fields x y :
  same_node x y →
  oid y = oid x ∧ tag y = tag x ∧ attrib y = attrib x ∧ text y = text x ∧ tail y = tail x.
Proof. unfold same_node. destruct x, y. cbn. by intros [= -> -> -> -> ->]. Qed.




(** ** [updateMetadata] *)

Lemma getUnitsNumber_known units number w :
  unitsNumbers_dict !! PyStr.lower units = Some number →
  getUnitsNumber (Some units) w = (w, inr number).
Proof.
  intros Hn. unfold getUnitsNumber, bind.
  cbn [fmap option_fmap option_map mbind option_bind]. rewrite Hn.
  cbn [ret mbind option_bind]. by rewrite Hn.
Qed.

Lemma units_number_of_elements {X} units number (l : list X) : ∀ z w,
  unitsNumbers_dict !! PyStr.lower units = Some number →
  fold_each l (λ _ _, getUnitsNumber (Some units)) z w
  = (w, inr (match l with [] => z | _ :: _ => number end)).
Proof.
  induction l as [|x l IH]; intros z w Hn; [done|].
  cbn [fold_each]. unfold bind. rewrite (getUnitsNumber_known _ _ _ Hn), (IH _ _ Hn).
  by destruct l.
Qed.

Lemma foldl_last {X Y} (g : X → Y) l (s : option Y) :
  foldl (λ _ x, Some (g x)) s l = match last l with Some x => Some (g x) | None => s end.
Proof.
  revert s. induction l as [|x l IH]; intros s; [done|]. cbn [foldl]. rewrite IH.
  rewrite last_cons. by destruct (last l).
Qed.

(** A pass that sets the text, and a pass that changes the attributes, of
    the elements with a tag, after passes that left the elements with a
    text and attributes given by [T] and [U]. *)
Lemma pass_text t v (T : Element → option string) (U : Element → gmap string string)
    l1 l2 l3 :
  Forall2 (λ x y, oid y = oid x ∧ tag y = tag x ∧ tail y = tail x
                  ∧ text y = T x ∧ attrib y = U x) l1 l2 →
  Forall2 (λ y z, same_node (if decide (tag y = t) then with_text y (Some v) else y) z)
    l2 l3 →
  Forall2 (λ x z, oid z = oid x ∧ tag z = tag x ∧ tail z = tail x
                  ∧ text z = (if decide (tag x = t) then Some v else T x)
                  ∧ attrib z = U x) l1 l3.
Proof.
  apply Forall2_chain. intros x y z (Ho & Ht & Hl & Hx & Ha) Hyz.
  rewrite Ht in Hyz.
  destruct (decide (tag x = t));
    apply same_node_fields in Hyz as (Ho' & Ht' & Ha' & Hx' & Hl');
    destruct y; cbn in *; split_and!; congruence.
Qed.

Lemma pass_attrib t (f : Element → Element) (u : gmap string string → gmap string string)
    (T : Element → option string) (U : Element → gmap string string) l1 l2 l3 :
  (∀ y, oid (f y) = oid y ∧ tag (f y) = tag y ∧ tail (f y) = tail y
        ∧ text (f y) = text y ∧ attrib (f y) = u (attrib y)) →
  Forall2 (λ x y, oid y = oid x ∧ tag y = tag x ∧ tail y = tail x
                  ∧ text y = T x ∧ attrib y = U x) l1 l2 →
  Forall2 (λ y z, same_node (if decide (tag y = t) then f y else y) z) l2 l3 →
  Forall2 (λ x z, oid z = oid x ∧ tag z = tag x ∧ tail z = tail x
                  ∧ text z = T x
                  ∧ attrib z = (if decide (tag x = t) then u (U x) else U x)) l1 l3.
Proof.
  intros Hf. apply Forall2_chain. intros x y z (Ho & Ht & Hl & Hx & Ha) Hyz.
  destruct (Hf y) as (Hfo & Hft & Hfl & Hfx & Hfa).
  rewrite Ht in Hyz.
  destruct (decide (tag x = t));
    apply same_node_fields in Hyz as (Ho' & Ht' & Ha' & Hx' & Hl');
    split_and!; congruence.
Qed.

(** The four passes of the loop body over a document. *)
Lemma updateMetadata_passes number e :
  Forall2 (metadata_updated number) (iter e)
    (iter (update_all "EventTable"
             (λ eventTable, set "TimeZoneId" "UTC" (set "TimeZoneOffset" "0" eventTable))
             (update_all "TimeZoneId" (λ timeZoneId, with_text timeZoneId (Some "UTC"))
                (update_all "TimeZoneOffset"
                   (λ timeZoneOffset, with_text timeZoneOffset (Some "0"))
                   (update_all "UnitsOfMeasure"
                      (λ units, with_text units (Some (PyStr.str_int number))) e))))).
Proof.
  unfold metadata_updated.
  eapply (pass_attrib "EventTable"
            (λ y, set "TimeZoneId" "UTC" (set "TimeZoneOffset" "0" y))
            (λ a, <["TimeZoneId" := "UTC"]> (<["TimeZoneOffset" := "0"]> a)));
    [by intros [] | | apply update_all_nodes; by intros [] ?].
  eapply (pass_text "TimeZoneId"); [|apply update_all_nodes; by intros [] ?].
  eapply (pass_text "TimeZoneOffset"); [|apply update_all_nodes; by intros [] ?].
  eapply (pass_text "UnitsOfMeasure" _ text attrib);
    [|apply update_all_nodes; by intros [] ?].
  by apply Forall_Forall2_diag, Forall_true.
Qed.

(** X21.  [updateMetadata] on the table: when the measure unit has the
    units number [number] and no row update fails, it logs its message,
    updates the rows in order and returns the document of the last row
    ([None] without rows).  In every row the elements are the former ones,
    in order, with their tags and tails; the text of a [UnitsOfMeasure]
    element is the number, that of a [TimeZoneOffset] element "0", that of
    a [TimeZoneId] element "UTC"; an [EventTable] element has the
    attributes [TimeZoneOffset] "0" and [TimeZoneId] "UTC"; every other
    text and attribute is as before. *)
Theorem updateMetadata_every_row (P : Params) (A : Platform) (w : World) (number : Z) :
  unitsNumbers_dict !! PyStr.lower (getMUnitsParamAsText P) = Some number →
  (∀ n, fails A (updateRow (getFullTableName P A "Lrs_Metadata") n) = false) →
  ∃ w',
    updateMetadata P A w = (w', inr (last (Lrs_Metadata w')))
    ∧ Forall2 (λ before after, Forall2 (metadata_updated number) (iter before) (iter after))
        (Lrs_Metadata w) (Lrs_Metadata w')
    ∧ Lrs_Event_Behavior w' = Lrs_Event_Behavior w
    ∧ trace w' = trace w ++ AddMessage "Updating LRS metadata"
                            :: (updateRow (getFullTableName P A "Lrs_Metadata")
                                  <$> seq 0 (length (Lrs_Metadata w))).
Proof.
  intros Hnumber Hok.
  set (g := λ e,
         update_all "EventTable"
           (λ eventTable, set "TimeZoneId" "UTC" (set "TimeZoneOffset" "0" eventTable))
           (update_all "TimeZoneId" (λ timeZoneId, with_text timeZoneId (Some "UTC"))
              (update_all "TimeZoneOffset"
                 (λ timeZoneOffset, with_text timeZoneOffset (Some "0"))
                 (update_all "UnitsOfMeasure"
                    (λ units, with_text units (Some (PyStr.str_int number))) e)))).
  unfold updateMetadata, log, bind at 1, bind at 1, emit. cbn [ret].
  unfold UpdateCursor_Lrs_Metadata, bind at 1, get_world at 1.
  rewrite (UpdateCursor_Lrs_Metadata_turns P A _ (λ _ x, Some (g x)) g Hok); [| done |].
  - cbn [logged trace Lrs_Metadata Lrs_Event_Behavior].
    rewrite take_0, drop_0, take_ge, drop_ge, app_nil_r by (cbn; lia). cbn [app].
    match goal with |- ∃ w', (?x, _) = _ ∧ _ => exists x end.
    cbn [trace Lrs_Metadata Lrs_Event_Behavior]. split; [|split_and!].
    + rewrite foldl_last, fmap_last. by destruct (last (Lrs_Metadata w)).
    + cbn [Lrs_Metadata]. apply Forall2_fmap_r, Forall_Forall2_diag, Forall_forall.
      intros e _. apply updateMetadata_passes.
    + done.
    + cbn [trace]. by rewrite <- app_assoc.
  - apply Forall_forall. intros e _ s w0. unfold bind.
    rewrite (units_number_of_elements _ number _ _ _ Hnumber). cbn [ret].
    destruct (iter_tag "UnitsOfMeasure" e) eqn:Hunits; [|done].
    unfold g. by rewrite !(update_all_absent "UnitsOfMeasure" _ e Hunits).
Qed.

Lemma updateMetadata_every_row_witness :
  let w := {| trace := []; Lrs_Metadata := [Example.metadata]; Lrs_Event_Behavior := [] |} in
  ∃ w',
    updateMetadata Example.params (Example.platform [] false) w
      = (w', inr (last (Lrs_Metadata w')))
    ∧ Forall2 (λ before after, Forall2 (metadata_updated 3) (iter before) (iter after))
        [Example.metadata] (Lrs_Metadata w')
    ∧ Lrs_Event_Behavior w' = []
    ∧ trace w' = [ AddMessage "Updating LRS metadata";
                   updateRow "C:/data/updm.gdb/Lrs_Metadata" 0 ].
Proof.
  intros w.
  by apply (updateMetadata_every_row Example.params (Example.platform [] false) w 3).
Defined.

(** ** The names that exist already, continued *)

Lemma omap_filter {X} (h : X → option string) (Q : string → Prop) `{!∀ n, Decision (Q n)}
    (l : list X) :
  omap (λ x, name ← h x; if decide (Q name) then Some name else None) l
  = filter Q (omap h l).
Proof.
  induction l as [|x l IH]; [done|]. cbn [omap list_omap]. rewrite IH.
  destruct (h x) as [name|]; cbn [mbind option_bind]; [|done].
  rewrite filter_cons. by case_decide.
Qed.

(** X22.  For workspace documents with a list of domains,
    [checkDomainNames] returns the declared domain names that the
    geodatabase has already, in the order of the documents and with a name
    as often as it is declared.  A [Domain] element without a [DomainName]
    declares nothing and is passed over. *)
Theorem checkDomainNames_existing (A : Platform) (workspaceXmls : list Element) (gdb : string) :
  Forall (λ workspaceXml, ∃ definition,
            find "WorkspaceDefinition" workspaceXml = Some definition
            ∧ is_Some (find "Domains" definition)) workspaceXmls →
  checkDomainNames A workspaceXmls gdb
  = inr (filter (λ name, name ∈ ListDomains A gdb)
           (flat_map declared_domains workspaceXmls)).
Proof.
  induction 1 as [|doc docs (definition & Hdefinition & [domains Hdomains]) _ IH]; [done|].
  cbn [checkDomainNames flat_map]. rewrite IH. unfold checkDomainNames_in, declared_domains.
  rewrite Hdefinition. cbn [need rbind]. rewrite Hdomains. cbn [need rbind].
  by rewrite omap_filter, filter_app.
Qed.

Lemma checkDomainNames_existing_witness :
  checkDomainNames (Example.platform_with_domains ["dLRSNetworks"; "dOther"])
    [Example.updm; Example.lrs] "C:/data/updm.gdb"
  = inr ["dLRSNetworks"].
Proof.
  rewrite (checkDomainNames_existing (Example.platform_with_domains ["dLRSNetworks"; "dOther"])
             [Example.updm; Example.lrs] "C:/data/updm.gdb"); [by vm_compute|].
  repeat constructor; eexists; (split; [reflexivity | by eexists]).
Defined.

(** ** The removal of the conflicting items *)

Lemma fold_each_cons {X St} (x : X) xs (body : St → X → M St) s w :
  fold_each (x :: xs) body s w
  = match body s x w with
    | (w', inr a) => fold_each xs body a w'
    | (w', inl e) => (w', inl e)
    end.
Proof. done. Qed.

(** One turn of the loop of [removeDatasets]. *)
Lemma removeDatasets_turn P A counter invalidDataset w :
  let call := Delete_management (getFullTableName P A invalidDataset) in
  ∃ label counter',
    try_except
      (counter <- setProgressor_counting "Removing conflicting items: " counter 1 ;;
       arcpy A call ;;;
       ret counter)
      (λ e, logError ("Unable to remove item: " +:+ invalidDataset) None false ;;;
            raise e) w
    = if fails A call
      then (logged w [ SetProgressorLabel label; call;
                       AddError ("Unable to remove item: " +:+ invalidDataset) ],
            inl (CallFailed call))
      else (logged w [SetProgressorLabel label; call], inr counter').
Proof.
  intros call. eexists _, _.
  unfold try_except, setProgressor_counting, setProgressor, arcpy, logError, bind, some, emit,
    raise, ret. cbn [fst snd]. fold call.
  destruct (fails A call); by rewrite !logged_logged.
Qed.

Lemma removeDatasets_turns P A datasets : ∀ counter w,
  let full := getFullTableName P A in
  let run :=
    fold_each datasets
      (λ counter invalidDataset,
         try_except
           (counter <- setProgressor_counting "Removing conflicting items: " counter 1 ;;
            arcpy A (Delete_management (getFullTableName P A invalidDataset)) ;;;
            ret counter)
           (λ e, logError ("Unable to remove item: " +:+ invalidDataset) None false ;;;
                 raise e))
      counter w in
  ∃ cs,
    run.1 = logged w cs
    ∧ match list_find (λ d, fails A (Delete_management (full d)) = true) datasets with
      | None => (∃ counter', run.2 = inr counter') ∧ omap deleted_item cs = full <$> datasets
      | Some (k, d) =>
          run.2 = inl (CallFailed (Delete_management (full d)))
          ∧ omap deleted_item cs = full <$> take (S k) datasets
          ∧ last cs = Some (AddError ("Unable to remove item: " +:+ d))
      end.
Proof.
  induction datasets as [|d datasets IH]; intros counter w full run; subst run.
  - exists []. cbn. rewrite logged_nil. split; [done|]. split; [by eexists | done].
  - rewrite fold_each_cons. cbn [list_find].
    destruct (removeDatasets_turn P A counter d w) as (label & counter' & Hturn).
    rewrite Hturn. fold full. destruct (fails A (Delete_management (full d))) eqn:Hfails.
    + rewrite decide_True by done. eexists. split; [done|]. by cbn.
    + rewrite decide_False by done.
      destruct (IH counter' (logged w [SetProgressorLabel label; Delete_management (full d)]))
        as (cs & Hcs & Hrest).
      fold full in Hcs, Hrest.
      exists ([SetProgressorLabel label; Delete_management (full d)] ++ cs).
      rewrite Hcs, logged_logged. split; [done|].
      destruct (list_find _ datasets) as [[k d']|]; cbn [fmap option_fmap option_map prod_map].
      * destruct Hrest as (Hrun & Hdeleted & Hlast). split_and!; [done | |].
        -- cbn. by rewrite Hdeleted.
        -- destruct cs; [done|]. cbn [app]. by rewrite !last_cons_cons.
      * destruct Hrest as [Hrun Hdeleted]. split; [done|]. cbn. by rewrite Hdeleted.
Qed.

(** X23.  [removeDatasets] deletes the items in the given order and stops
    at the first deletion that fails.  When none fails it returns, with one
    deletion call for each dataset, by its full name; when the deletion
    of the dataset at index [k] is the first to fail, the deletion calls
    are those of the datasets up to that one, the last call is the error
    "Unable to remove item: ..." for it, and the failure is raised. *)
Theorem removeDatasets_stops_at_first_failure (P : Params) (A : Platform)
    (datasets : list string) (w : World) :
  let full := getFullTableName P A in
  let run := removeDatasets P A datasets w in
  ∃ cs,
    run.1 = logged w cs
    ∧ match list_find (λ d, fails A (Delete_management (full d)) = true) datasets with
      | None => run.2 = inr tt ∧ omap deleted_item cs = full <$> datasets
      | Some (k, d) =>
          run.2 = inl (CallFailed (Delete_management (full d)))
          ∧ omap deleted_item cs = full <$> take (S k) datasets
          ∧ last cs = Some (AddError ("Unable to remove item: " +:+ d))
      end.
Proof.
  intros full run.
  assert (∃ cs r,
            run = (logged w cs, r)
            ∧ match list_find (λ d, fails A (Delete_management (full d)) = true) datasets with
              | None => r = inr tt ∧ omap deleted_item cs = full <$> datasets
              | Some (k, d) =>
                  r = inl (CallFailed (Delete_management (full d)))
                  ∧ omap deleted_item cs = full <$> take (S k) datasets
                  ∧ last cs = Some (AddError ("Unable to remove item: " +:+ d))
              end) as (cs & r & -> & Hrest); [|by exists cs].
  subst run. unfold removeDatasets.
  destruct datasets as [|d0 datasets0] eqn:Hdatasets.
  { exists [], (inr tt). by rewrite logged_nil. }
  rewrite <- Hdatasets. clear Hdatasets.
  unfold log at 1, bind at 1, bind at 1, emit at 1. cbn [ret]. unfold bind at 1.
  match goal with
  | |- context [fold_each datasets ?body ?c ?w0] =>
      destruct (removeDatasets_turns P A datasets c w0) as (cs & Hcs & Hloop);
      cbv zeta in Hcs, Hloop; revert Hcs Hloop;
      destruct (fold_each datasets body c w0) as [w1 r]; intros Hcs Hloop
  end.
  cbn [fst snd] in Hcs, Hloop. subst w1. fold full in Hloop.
  destruct (list_find _ datasets) as [[k d]|].
  - destruct Hloop as (-> & Hdeleted & Hlast).
    exists (AddMessage ("Removing conflicting items ("
                        +:+ PyStr.str_int (Z.of_nat (length datasets)) +:+ ")") :: cs).
    eexists. rewrite logged_logged. split_and!; [done | done | by cbn |].
    destruct cs; [done|]. by rewrite last_cons_cons.
  - destruct Hloop as [[counter' ->] Hdeleted].
    exists (AddMessage ("Removing conflicting items ("
                        +:+ PyStr.str_int (Z.of_nat (length datasets)) +:+ ")") :: cs
            ++ [SetProgressorLabel "Executing Create UPDM Geodatabase..."]).
    exists (inr tt). unfold setProgressor, bind, emit, ret. cbn [fst snd].
    rewrite !logged_logged. split_and!; [done | done |].
    cbn [omap list_omap deleted_item]. by rewrite omap_app, app_nil_r.
Qed.

Lemma removeDatasets_stops_at_first_failure_witness :
  let A := Example.platform_with_locks ["C:/data/updm.gdb/P_Valve"] in
  let run := removeDatasets Example.params A ["P_Pipes"; "P_Valve"; "Lrs_Metadata"] initial in
  ∃ cs,
    run.1 = logged initial cs
    ∧ run.2 = inl (CallFailed (Delete_management "C:/data/updm.gdb/P_Valve"))
    ∧ omap deleted_item cs = ["C:/data/updm.gdb/P_Pipes"; "C:/data/updm.gdb/P_Valve"]
    ∧ last cs = Some (AddError "Unable to remove item: P_Valve").
Proof.
  intros A.
  destruct (removeDatasets_stops_at_first_failure Example.params A
              ["P_Pipes"; "P_Valve"; "Lrs_Metadata"] initial) as (cs & Hcs & Hrest).
  exists cs. split; [done|]. exact Hrest.
Defined.

(** ** The spatial reference substitution as a whole *)

(** A child of an unnested document is unnested. *)
Lemma unnested_child e c : unnested e → c ∈ children e → unnested c.
Proof.
  intros Hun Hc x Hx. apply Hun. rewrite iter_tag_unfold. apply elem_of_app. right.
  apply elem_of_flat_map. by exists c.
Qed.

(** When no [SpatialReference] element lies inside another one, the
    [SpatialReference] elements of the document with the fragment in the
    place of the outermost ones are the fragment, once for each element
    there was. *)
Lemma iter_tag_replace_outer new e :
  iter_tag "SpatialReference" new = [new] →
  unnested e → tag e ≠ "SpatialReference" →
  iter_tag "SpatialReference" (replace_outer new e)
  = (λ _, new) <$> iter_tag "SpatialReference" e.
Proof.
  intros Hnew. induction e as [e IH] using Element_tree_ind. intros Hun Htag.
  unfold replace_outer. rewrite replace_where_unfold.
  rewrite (iter_tag_unfold _ (with_children _ _)), (iter_tag_unfold _ e).
  cbn [tag with_children children]. rewrite !decide_False by done. cbn [app].
  rewrite flat_map_map.
  assert (Forall (λ c, c ∈ children e) (children e)) as Hin by (by apply Forall_forall).
  revert IH Hin. generalize (children e) at 1 3 4 5. intros l IH Hin.
  induction IH as [|c l Hc _ IHl]; [done|].
  apply Forall_cons in Hin as [Hce Hin]. cbn [flat_map]. rewrite fmap_app, <- IHl by done.
  f_equal. case_bool_decide as Hc'.
  - rewrite Hnew. rewrite (Hun c); [done|].
    rewrite iter_tag_unfold. apply elem_of_app. right. apply elem_of_flat_map.
    exists c. split; [done|]. rewrite iter_tag_unfold, decide_True by done.
    apply list_elem_of_here.
  - apply Hc; [by apply (unnested_child e)|done].
Qed.

(** C3, as stated, fails: a [SpatialReference] element inside another one
    is not replaced but goes away with the outer one, so the number of
    [SpatialReference] elements is not kept.  Here the document has three
    of them and the result two. *)
Lemma nested_spatial_references_go :
  ∃ w result,
    replaceSpatialReference Example.params (Example.platform [] false) Example.nested initial
    = (w, inr result)
    ∧ length (iter_tag "SpatialReference" Example.nested) = 3
    ∧ length (iter_tag "SpatialReference" result) = 2.
Proof. eexists _, _. split_and!; by vm_compute. Qed.

(** C3, amended.  Let the first half of [replaceSpatialReference] yield
    the fragment [new]: the export of the spatial reference, the meters per
    unit, and the tolerances set.  For a parsed document (every element an
    object of its own) whose root is no [SpatialReference] element, in
    which no [SpatialReference] element lies inside another one, and a
    fragment that shares no object with the document and is a
    [SpatialReference] element without another one inside:
    [replaceSpatialReference] returns the document in which each
    [SpatialReference] element has given way to the fragment, at the same
    index among the children of the same parent, with every other element
    as it was and where it was; the [SpatialReference] elements of the
    result are the fragment, once for each such element of the document, so
    their number is the same. *)
Theorem spatial_reference_substitution (P : Params) (A : Platform) (updmXml : Element)
    (exported : option Element) (metersPerUnit : Qc) (new : Element) (w w1 w2 : World) :
  getSpatialReferenceXML A (getSpatialReferenceParam P)
    (logged w [AddMessage "Updating spatial references"]) = (w1, inr exported) →
  getMetersPerUnit (getSpatialReferenceParam P) w1 = (w1, inr metersPerUnit) →
  setToleranceAndResolution P A exported metersPerUnit w1 = (w2, inr new) →
  distinct_objects updmXml →
  tag updmXml ≠ "SpatialReference" →
  unnested updmXml →
  (∀ x, x ∈ iter updmXml → oid x ∉ oids new) →
  iter_tag "SpatialReference" new = [new] →
  replaceSpatialReference P A updmXml w = (w2, inr (replace_outer new updmXml))
  ∧ iter_tag "SpatialReference" (replace_outer new updmXml)
    = (λ _, new) <$> iter_tag "SpatialReference" updmXml
  ∧ length (iter_tag "SpatialReference" (replace_outer new updmXml))
    = length (iter_tag "SpatialReference" updmXml).
Proof.
  intros Hexp Hmpu Hset Hnd Htag Hun Hfresh Hnew.
  assert (iter_tag "SpatialReference" (replace_outer new updmXml)
          = (λ _, new) <$> iter_tag "SpatialReference" updmXml) as Hall
    by by apply iter_tag_replace_outer.
  split_and!; [| done | by rewrite Hall, length_fmap].
  unfold replaceSpatialReference, log. unfold bind at 1, bind at 1, emit at 1.
  cbn [ret]. unfold bind at 1. rewrite Hexp. unfold bind at 1. rewrite Hmpu.
  unfold bind at 1. rewrite Hset. by apply replaceSpatialReference_loop.
Qed.

Lemma spatial_reference_substitution_witness :
  ∃ new w2,
    replaceSpatialReference Example.params (Example.platform [] false) Example.updm initial
    = (w2, inr (replace_outer new Example.updm))
    ∧ iter_tag "SpatialReference" (replace_outer new Example.updm)
      = (λ _, new) <$> iter_tag "SpatialReference" Example.updm
    ∧ length (iter_tag "SpatialReference" (replace_outer new Example.updm))
      = length (iter_tag "SpatialReference" Example.updm).
Proof.
  eexists _, _.
  eapply (spatial_reference_substitution Example.params (Example.platform [] false)
            Example.updm).
  - by vm_compute.
  - by vm_compute.
  - by vm_compute.
  - apply (bool_decide_unpack _). by vm_compute.
  - discriminate.
  - intros x Hx. vm_compute in Hx.
    repeat (apply elem_of_cons in Hx as [-> | Hx]; [by vm_compute|]).
    by apply elem_of_nil in Hx.
  - apply Forall_forall, (bool_decide_unpack _). by vm_compute.
  - by vm_compute.
Defined.

(** ** Validation and the inputs it finds *)

(** C8, as stated, fails for the measure unit: validation looks at the
    unit only for being there, and the accessor has put "FEET" for a
    missing one.  A unit that cannot be converted passes validation and is
    found by [convertUnits], after [checkNames]: with the overwrite switch
    on, the conflicting item has been deleted when the run raises. *)
Lemma unknown_unit_found_after_deletion :
  let P := Example.with_mUnits (Some "Furlongs") Example.params in
  let A := Example.platform ["C:/data/updm.gdb/P_Valve"] true in
  let run := start P A "updm" "lrs" initial in
  validateInput P initial = (initial, inr tt)
  ∧ run.2 = inl (ExecuteError cannot_calculate)
  ∧ omap deleted_item (trace run.1)
    = ["C:/data/updm.gdb/P_Valve"; "C:/scratch/scratch.gdb/srFC"].
Proof. split_and!; by vm_compute. Qed.

(** The keys of [eventRegistrationNetworkValues]. *)
Lemma eventRegistrationNetworkValues_get_None key :
  eventRegistrationNetworkValues_get key = None ↔ key ≠ "ENGINEERING" ∧ key ≠ "CONTINUOUS".
Proof.
  unfold eventRegistrationNetworkValues_get, eventRegistrationNetworkValues.
  cbn [list_to_map foldr uncurry fst snd]. rewrite !lookup_insert_None, lookup_empty.
  naive_solver.
Qed.

(** Validation complains of the invalid inputs, and of no others. *)
Lemma first_complaint_invalid P : is_Some (first_complaint P) ↔ invalid_input P.
Proof.
  unfold first_complaint, invalid_input.
  assert (eventRegistrationNetworkValues_get (getEventRegistrationNetworkParamAsText P) = None
          ↔ eventRegistrationNetworkParam P ∉ [""; "ENGINEERING"; "CONTINUOUS"]) as Hnet.
  { rewrite eventRegistrationNetworkValues_get_None.
    unfold getEventRegistrationNetworkParamAsText. cbv zeta. rewrite !not_elem_of_cons.
    destruct (decide (eventRegistrationNetworkParam P = "")) as [He|He].
    - rewrite He. split; [by intros [? _] | by intros [? _]].
    - split; [intros [? ?]; split_and!; [done | done | done | apply not_elem_of_nil]
             | by intros (_ & ? & ? & _)]. }
  destruct (decide (outputGDBParam P = "")) as [?|Hgdb]; [split; [by left | by eexists]|].
  destruct (spatialReferenceParam P) as [sr|]; [|split; [right; by left | by eexists]].
  case_decide as Hxy.
  { split; [|by eexists]. intros _. right. right. left. exists sr. split; [done | by left]. }
  case_decide as Hz.
  { split; [|by eexists]. intros _. right. right. left. exists sr. split; [done | by right]. }
  case_decide as Hn.
  { split; [|by eexists]. intros _. do 3 right. by apply Hnet. }
  split; [by intros [? ?]|].
  intros [?|[?|[(sr' & [= <-] & [?|?])|?]]]; try done. by apply Hnet in H.
Qed.

(** C8, amended.  A missing output path or spatial reference, a
    tolerance that is not positive and an unknown event registration
    network are found by [validateInput]: the run then is the blank
    message, the progress label, the error and the blank message, all of
    them messages, and raises the execution error; nothing is read or
    changed.  Every other input passes validation, whatever the measure
    unit is.  A run whose measure unit, in ASCII, is no key of the table of
    [convertUnits] raises all the same, and before any import; that is
    after [checkNames], which may have deleted conflicting items by then. *)
Theorem invalid_input_detection (P : Params) (A : Platform)
    (updmXmlString lrsXmlString : string) (w : World) :
  (invalid_input P →
     ∃ message,
       validateInput P w = (logged w [AddError message], inl (ExecuteError message))
       ∧ start P A updmXmlString lrsXmlString w
         = (logged w (rejected_run message), inl (ExecuteError message))
       ∧ forallb is_message (rejected_run message) = true)
  ∧ (¬ invalid_input P → validateInput P w = (w, inr tt))
  ∧ (unknown_unit (getMUnitsParam P) →
     stops (λ c, is_import c = false) (start P A updmXmlString lrsXmlString)).
Proof.
  split_and!.
  - intros [message Hm]%first_complaint_invalid. exists message. split_and!.
    + by rewrite validateInput_outcome, Hm.
    + by apply start_rejected.
    + done.
  - intros Hvalid. rewrite validateInput_outcome.
    destruct (first_complaint P) as [message|] eqn:Hm; [|done].
    destruct Hvalid. apply first_complaint_invalid. by eexists.
  - intros [_ Hnone]. apply start_unknown_unit_stops; [|done].
    intros Hm. by rewrite Hm in Hnone.
Qed.

(** ** Indexes and the fields that go *)

Lemma only_calls_fold_each_Forall {X St} Q (xs : list X) (body : St → X → M St) s :
  Forall (λ x, ∀ s, only_calls Q (body s x)) xs → only_calls Q (fold_each xs body s).
Proof.
  intros Hbody. revert s. induction Hbody as [|x xs Hx _ IH]; intros s;
    [apply only_calls_ret|].
  apply only_calls_bind; [apply Hx | apply IH].
Qed.

(** X24.  Outside the "ENGINEERING" mode a run puts no index on a field
    of the engineering network, and the only fields it deletes are fields
    of the engineering network: the fields that [removeEngineeringFields]
    takes away in the "CONTINUOUS" mode are fields that [addIndexes] has
    left alone in that mode. *)
Theorem engineering_fields_deleted_not_indexed (P : Params) (A : Platform)
    (updmXmlString lrsXmlString : string) :
  getEventRegistrationNetworkParamAsText P ≠ "ENGINEERING" →
  only_calls engineering_fields_go (start P A updmXmlString lrsXmlString).
Proof.
  intros Hmode.
  assert (∀ field, field ∉ engineering_fields →
            ∀ base tables counter,
              only_calls engineering_fields_go (addIndex P A base [field] tables counter))
    as Hindex.
  { intros field Hfield base tables counter. unfold addIndex. calls; try exact I.
    by constructor. }
  assert (∀ field, bool_decide (field ∈ engineering_fields) = false →
                   field ∉ engineering_fields) as Hout
    by (intros field Hfield; by apply (bool_decide_eq_false_1 _ Hfield)).
  assert (∀ lrsMetadata, only_calls engineering_fields_go (addIndexes P A lrsMetadata))
    as Hindexes.
  { intros lrsMetadata. unfold addIndexes.
    apply only_calls_bind; [calls; exact I | intros _].
    apply only_calls_bind; [calls | intros m].
    cbv zeta. rewrite decide_False by done.
    apply only_calls_bind; [|intros _; calls; exact I].
    apply only_calls_fold_each_Forall.
    repeat (apply Forall_cons; split;
            [ intros s; cbn [fst snd];
              first [ apply Hindex, Hout; reflexivity
                    | unfold addIndex; calls; try exact I;
                      repeat constructor; apply Hout; reflexivity ] | ]).
    by apply Forall_nil. }
  unfold start. calls; try exact I.
  all: cbn; unfold engineering_fields;
    repeat first [apply list_elem_of_here | apply list_elem_of_further].
Qed.

Lemma engineering_fields_deleted_not_indexed_witness :
  let P := {| outputGDBParam := "C:/data/updm.gdb";
              spatialReferenceParam := Some Example.spatialReference;
              mUnitsParam := None; xyToleranceParam := None; zToleranceParam := None;
              eventRegistrationNetworkParam := "CONTINUOUS";
              registerPipeSystemParam := None |} in
  only_calls engineering_fields_go (start P (Example.platform [] false) "updm" "lrs")
  ∧ (start P (Example.platform [] false) "updm" "lrs" initial).2 = inr tt.
Proof.
  intros P. split; [|by vm_compute].
  by apply (engineering_fields_deleted_not_indexed P (Example.platform [] false)).
Defined.

(** ** Progress of the domain assignment *)

Lemma setProgressor_counting_outcome message counter increment w :
  setProgressor_counting message counter increment w
  = (logged w [ SetProgressorLabel
                  (message +:+ PyStr.str_int (count counter + increment) +:+ "/"
                   +:+ PyStr.str_int (total counter)) ],
     inr {| count := count counter + increment; total := total counter |}).
Proof. done. Qed.

(** One turn of the loop of [addReferentMethodDomain], when no call fails
    and the event table has a name: some domain assignments, then the
    label with the count two further. *)
Lemma addReferentMethodDomain_turn P A counter eventTable w :
  (∀ c, fails A c = false) → is_Some (get "Name" eventTable) →
  ∃ cs,
    (match get "FromReferentMethodFieldName" eventTable with
     | Some field =>
         if decide (field = "") then ret tt
         else name <- some (get "Name" eventTable) TypeError ;;
              arcpy A (AssignDomainToField_management (getFullTableName P A name) field
                         "dReferentMethod")
     | None => ret tt
     end ;;;
     match get "ToReferentMethodFieldName" eventTable with
     | Some field =>
         if decide (field = "") then ret tt
         else name <- some (get "Name" eventTable) TypeError ;;
              arcpy A (AssignDomainToField_management (getFullTableName P A name) field
                         "dReferentMethod")
     | None => ret tt
     end ;;;
     setProgressor_counting "Adding domains: " counter 2) w
    = (logged w (cs ++ [ SetProgressorLabel
                           ("Adding domains: " +:+ PyStr.str_int (count counter + 2) +:+ "/"
                            +:+ PyStr.str_int (total counter)) ]),
       inr {| count := count counter + 2; total := total counter |})
    ∧ omap progress_label cs = [].
Proof.
  intros Hok [name Hname]. rewrite Hname. unfold bind, arcpy, bind, emit, some, ret.
  destruct (get "FromReferentMethodFieldName" eventTable) as [from|],
    (get "ToReferentMethodFieldName" eventTable) as [to|];
    repeat case_decide; rewrite ?Hok; cbn [fst snd];
    rewrite setProgressor_counting_outcome, ?logged_logged; cbn [app];
    match goal with
    | |- ∃ cs, (logged w ?l, _) = _ ∧ _ => exists (removelast l)
    end; by cbn.
Qed.

Lemma addReferentMethodDomain_turns P A eventTables :
  (∀ c, fails A c = false) →
  Forall (λ eventTable, is_Some (get "Name" eventTable)) eventTables →
  ∀ counter w,
  ∃ cs,
    fold_each eventTables
      (λ counter eventTable,
         match get "FromReferentMethodFieldName" eventTable with
         | Some field =>
             if decide (field = "") then ret tt
             else name <- some (get "Name" eventTable) TypeError ;;
                  arcpy A (AssignDomainToField_management (getFullTableName P A name) field
                             "dReferentMethod")
         | None => ret tt
         end ;;;
         match get "ToReferentMethodFieldName" eventTable with
         | Some field =>
             if decide (field = "") then ret tt
             else name <- some (get "Name" eventTable) TypeError ;;
                  arcpy A (AssignDomainToField_management (getFullTableName P A name) field
                             "dReferentMethod")
         | None => ret tt
         end ;;;
         setProgressor_counting "Adding domains: " counter 2)
      counter w
    = (logged w cs,
       inr {| count := count counter + 2 * Z.of_nat (length eventTables);
              total := total counter |})
    ∧ omap progress_label cs
      = (λ k, "Adding domains: " +:+ PyStr.str_int (count counter + 2 * Z.of_nat k) +:+ "/"
              +:+ PyStr.str_int (total counter)) <$> seq 1 (length eventTables).
Proof.
  intros Hok Hnamed. induction Hnamed as [|eventTable eventTables Hname _ IH];
    intros counter w.
  - exists []. rewrite logged_nil. cbn. rewrite Z.add_0_r. by destruct counter.
  - rewrite fold_each_cons.
    destruct (addReferentMethodDomain_turn P A counter eventTable w Hok Hname)
      as (cs0 & -> & Hquiet).
    destruct (IH {| count := count counter + 2; total := total counter |}
                (logged w (cs0 ++ [ SetProgressorLabel
                                      ("Adding domains: " +:+ PyStr.str_int (count counter + 2)
                                       +:+ "/" +:+ PyStr.str_int (total counter)) ])))
      as (cs & -> & Hlabels).
    eexists. rewrite logged_logged. split.
    + do 2 f_equal. cbn [count total length]. f_equal. lia.
    + rewrite !omap_app, Hquiet, Hlabels. cbn [omap list_omap progress_label app count total].
      cbn [length seq fmap list_fmap].
      replace (count counter + 2 * Z.of_nat 1)%Z with (count counter + 2)%Z by lia.
      apply (f_equal (cons _)).
      rewrite <- (fmap_S_seq 1), <- list_fmap_compose. apply list_fmap_ext.
      intros _ k _. unfold compose.
      by replace (count counter + 2 + 2 * Z.of_nat k)%Z
        with (count counter + 2 * Z.of_nat (S k))%Z by lia.
Qed.

(** X25.  The progress of [addDomains].  When no platform call fails and
    every event table of the metadata has a name, [addDomains] returns, and
    with [n] event tables its progress labels are "Adding domains: k/t"
    with the total [t = 4 + 2 n] throughout and [k] going 0, then 2, 4, ...,
    2 n (one step for each event table), then 2 n + 1, ..., 2 n + 4: the
    count ends at the total.  The last label is the one of the tool. *)
Theorem addDomains_progress (P : Params) (A : Platform) (lrsMetadata : Element) (w : World) :
  (∀ c, fails A c = false) →
  Forall (λ eventTable, is_Some (get "Name" eventTable))
    (iter_tag "EventTable" lrsMetadata) →
  let n := length (iter_tag "EventTable" lrsMetadata) in
  let target := (4 + 2 * Z.of_nat n)%Z in
  let label (k : Z) :=
    "Adding domains: " +:+ PyStr.str_int k +:+ "/" +:+ PyStr.str_int target in
  ∃ cs,
    addDomains P A (Some lrsMetadata) w = (logged w cs, inr tt)
    ∧ omap progress_label cs
      = label 0%Z :: ((λ k, label (2 * Z.of_nat k)%Z) <$> seq 1 n)
        ++ [ label (2 * Z.of_nat n + 1)%Z; label (2 * Z.of_nat n + 2)%Z;
             label (2 * Z.of_nat n + 3)%Z; label target;
             "Executing Create UPDM Geodatabase..." ].
Proof.
  intros Hok Hnamed n target label.
  unfold addDomains, log, addReferentMethodDomain. cbv zeta.
  unfold bind at 1, bind at 1, emit at 1. cbn [ret some].
  unfold bind at 1, bind at 1, bind at 1. cbn [ret].
  rewrite setProgressor_counting_outcome. cbn [count total].
  match goal with
  | |- context [fold_each _ ?body ?c ?w0] =>
      destruct (addReferentMethodDomain_turns P A _ Hok Hnamed c w0) as (cs & -> & Hlabels)
  end.
  cbn [count total] in Hlabels |- *. fold n in Hlabels |- *.
  unfold bind, arcpy, bind, emit, ret. rewrite !Hok. cbn [fst snd].
  rewrite !setProgressor_counting_outcome. cbn [count total fst snd].
  unfold setProgressor, bind, emit, ret. cbn [fst snd].
  rewrite !logged_logged. eexists. split; [reflexivity|].
  rewrite !omap_app, Hlabels. cbn [omap list_omap progress_label app].
  replace (4 + 2 * Z.of_nat n)%Z with target by done.
  unfold label. apply (f_equal2 cons); [done|]. apply (f_equal2 app).
  - apply list_fmap_ext. intros _ k _.
    by replace (-1 + 1 + 2 * Z.of_nat k)%Z with (2 * Z.of_nat k)%Z by lia.
  - replace (-1 + 1 + 2 * Z.of_nat n + 1)%Z with (2 * Z.of_nat n + 1)%Z by lia.
    replace (2 * Z.of_nat n + 1 + 1)%Z with (2 * Z.of_nat n + 2)%Z by lia.
    replace (2 * Z.of_nat n + 2 + 1)%Z with (2 * Z.of_nat n + 3)%Z by lia.
    by replace (2 * Z.of_nat n + 3 + 1)%Z with target by (unfold target; lia).
Qed.

Lemma addDomains_progress_witness :
  ∃ cs,
    addDomains Example.params (Example.platform [] false) (Some Example.metadata) initial
      = (logged initial cs, inr tt)
    ∧ omap progress_label cs
      = [ "Adding domains: 0/8"; "Adding domains: 2/8"; "Adding domains: 4/8";
          "Adding domains: 5/8"; "Adding domains: 6/8"; "Adding domains: 7/8";
          "Adding domains: 8/8"; "Executing Create UPDM Geodatabase..." ].
Proof.
  destruct (addDomains_progress Example.params (Example.platform [] false) Example.metadata
              initial) as (cs & Hrun & Hlabels).
  - done.
  - apply (bool_decide_unpack _). by vm_compute.
  - exists cs. split; [done|]. rewrite Hlabels. by vm_compute.
Defined.

End Facts.
